(** * Master Merge Tool: the merge pipeline of [app.js]

    A shallow embedding of the server side of [src/app.js]: the type
    classifier [getFileType], the comparator [naturalSort], the text
    paginator [textToPdfPages], the image placement and the [POST /merge]
    handler, followed by the properties the specification states about them.

    Conventions of the embedding.
    - A JavaScript string is a [string]; the file names the model covers are
      ASCII, so [toLowerCase] acts on the letters [A]-[Z] only.
    - A buffer is a byte string.
    - The libraries the handler calls (pdf-lib, sharp, mammoth, xlsx, marked,
      [String.prototype.localeCompare]) are not part of the repository: they
      are the fields of the record [Env], and every call that receives file
      data may throw.
    - A thrown [Error] is its message.  An exception leaves the document as
      the statements before it mutated it, so the monad [M] returns the
      document next to the outcome.
    - The geometry of a text page is made of whole numbers and of tenths and
      is kept in rationals.  The placement of an image is computed in
      doubles, the binary64 floats of the kernel, as the handler computes
      it, and a page stores each double as the rational it is.
    - The conversion [Number] of a run of digits is a parameter of
      [naturalSort]; [stringToNumber] is the conversion of JavaScript, which
      rounds to the nearest double. *)

From Stdlib Require Import Bool Arith ZArith QArith Qround Qminmax Lia Lqa List Ascii String Permutation.
From Stdlib Require OrdersEx.
From Stdlib Require Floats Uint63.
Import ListNotations.

Open Scope string_scope.
Open Scope list_scope.

(** ** JavaScript strings *)

Module Js.

Definition isUpper (c : ascii) : bool :=
  (65 <=? nat_of_ascii c)%nat && (nat_of_ascii c <=? 90)%nat.

Definition lowerChar (c : ascii) : ascii :=
  if isUpper c then ascii_of_nat (nat_of_ascii c + 32) else c.

(** [s.toLowerCase()] *)
Fixpoint toLowerCase (s : string) : string :=
  match s with
  | EmptyString => EmptyString
  | String c r => String (lowerChar c) (toLowerCase r)
  end.

(** A string is truthy when it is not empty. *)
Definition truthy (s : string) : bool :=
  match s with EmptyString => false | String _ _ => true end.

(** [s.split(sep)] for a separator of one character: never an empty
  array, [''.split(sep)] is [['']]. *)
Fixpoint split (sep : ascii) (s : string) : list string :=
  match s with
  | EmptyString => [EmptyString]
  | String c r =>
      if Ascii.eqb c sep then EmptyString :: split sep r
      else match split sep r with
           | h :: t => String c h :: t
           | [] => [String c EmptyString]
           end
  end.

(** [s.includes(sub)] *)
Fixpoint includes (s sub : string) : bool :=
  String.prefix sub s ||
  match s with
  | EmptyString => false
  | String _ r => includes r sub
  end.

(** [\d] of a regular expression without the [u] flag: [0]-[9]. *)
Definition isDigit (c : ascii) : bool :=
  (48 <=? nat_of_ascii c)%nat && (nat_of_ascii c <=? 57)%nat.

(** [a || b] on strings *)
Definition orElse (a b : string) : string := if truthy a then a else b.

(** White space that [trim] removes, among the ASCII characters. *)
Definition isSpace (c : ascii) : bool :=
  let n := nat_of_ascii c in
  (n =? 32)%nat || ((9 <=? n)%nat && (n <=? 13)%nat).

Fixpoint trimStart (s : string) : string :=
  match s with
  | EmptyString => EmptyString
  | String c r => if isSpace c then trimStart r else s
  end.

Fixpoint trimEnd (s : string) : string :=
  match s with
  | EmptyString => EmptyString
  | String c r =>
      match trimEnd r with
      | EmptyString => if isSpace c then EmptyString else String c EmptyString
      | r' => String c r'
      end
  end.

(** [s.trim()] *)
Definition trim (s : string) : string := trimEnd (trimStart s).

(** [s.replace(/[^\x20-\x7E\n\r\t]/g, ' ')] *)
Fixpoint printable (s : string) : string :=
  match s with
  | EmptyString => EmptyString
  | String c r =>
      let n := nat_of_ascii c in
      let keep := ((32 <=? n)%nat && (n <=? 126)%nat)
                  || (n =? 10)%nat || (n =? 13)%nat || (n =? 9)%nat in
      String (if keep then c else " "%char) (printable r)
  end.

(** [s.endsWith(suffix)] *)
Definition endsWith (s suffix : string) : bool :=
  let n := String.length s in
  let k := String.length suffix in
  (k <=? n)%nat && String.eqb (String.substring (n - k) k s) suffix.

(** The double nearest to the integer [n >= 0], ties to the even
    significand, as the integer that double is: [n] itself below 2^53, a
    multiple of a power of two above, and [None], for [Infinity], from
    2^1024 on. *)
Definition roundToDouble (n : Z) : option Z :=
  if (n <? 2 ^ 53)%Z then Some n
  else
    let e := (Z.log2 n - 52)%Z in
    let q := Z.shiftr n e in
    let r := (n - Z.shiftl q e)%Z in
    let half := Z.shiftl 1 (e - 1) in
    let q' :=
      if (r <? half)%Z then q
      else if (half <? r)%Z then (q + 1)%Z
      else if Z.even q then q else (q + 1)%Z in
    let v := Z.shiftl q' e in
    if (v <? 2 ^ 1024)%Z then Some v else None.

End Js.

(** ** Type classifier *)

(** The keys of [SUPPORTED]. *)
Module Category.

Inductive t : Type :=
  | pdf | image | word | excel | text | markdown | html | powerpoint.

End Category.

Definition FileType : Type := Category.t.

(** [SUPPORTED], in the order [Object.entries] enumerates it. *)
Definition SUPPORTED : list (FileType * list string) :=
  [ (Category.pdf, [".pdf"]);
    (Category.image,
      [".jpg"; ".jpeg"; ".png"; ".gif"; ".webp"; ".bmp"; ".tiff"; ".tif"]);
    (Category.word, [".docx"; ".doc"]);
    (Category.excel, [".xlsx"; ".xls"; ".csv"]);
    (Category.text, [".txt"]);
    (Category.markdown, [".md"; ".markdown"]);
    (Category.html, [".html"; ".htm"]);
    (Category.powerpoint, [".pptx"; ".ppt"]) ].

(** [exts.includes(ext)] *)
Definition arrayIncludes (exts : list string) (ext : string) : bool :=
  existsb (String.eqb ext) exts.

Fixpoint noDot (s : string) : bool :=
  match s with
  | EmptyString => true
  | String c r => negb (Ascii.eqb c ".") && noDot r
  end.

(** [s.match(/\.[^.]+$/)?.[0]]: the leftmost position where a dot is
    followed, up to the end of the string, by one or more characters that
    are not dots. *)
Fixpoint matchExt (s : string) : option string :=
  match s with
  | EmptyString => None
  | String c r =>
      if Ascii.eqb c "." && Js.truthy r && noDot r then Some s
      else matchExt r
  end.

Fixpoint firstType (ext : string) (entries : list (FileType * list string))
  : option FileType :=
  match entries with
  | [] => None
  | (type, exts) :: rest =>
      if arrayIncludes exts ext then Some type else firstType ext rest
  end.

(** The extension [getFileType] looks up; [''] when the pattern finds none. *)
Definition extOf (filename : string) : string :=
  match matchExt (Js.toLowerCase filename) with
  | Some e => e
  | None => EmptyString
  end.

(** [getFileType(filename)]; [None] is the [null] of the source. *)
Definition getFileType (filename : string) : option FileType :=
  firstType (extOf filename) SUPPORTED.

(** ** Natural-order comparator *)

(** The numbers [naturalSort] computes with. *)
Inductive JsNum : Type :=
  | NaN
  | NegInf
  | Fin (z : Z)
  | PosInf.

Definition numTruthy (n : JsNum) : bool :=
  match n with
  | NaN => false
  | Fin z => negb (z =? 0)%Z
  | NegInf | PosInf => true
  end.

(** The sign of a comparator result, as [Array.prototype.sort] reads it. *)
Definition sign (n : JsNum) : Z :=
  match n with
  | NaN => 0
  | NegInf => -1
  | Fin z => Z.sgn z
  | PosInf => 1
  end.

(** First component of a token: [$1 || Infinity]. *)
Inductive Key : Type :=
  | Digits (d : string)
  | Infinity.

Definition Token : Type := (Key * string)%type.

Definition digitVal (c : ascii) : Z := Z.of_nat (nat_of_ascii c) - 48.

Fixpoint numberAcc (acc : Z) (d : string) : Z :=
  match d with
  | EmptyString => acc
  | String c r => numberAcc (10 * acc + digitVal c) r
  end.

(** The decimal value of a run of digits. *)
Definition decimalValue (d : string) : Z := numberAcc 0 d.

(** [Number(d)] for a run of digits [d], the conversion that the
    subtraction [an[0] - bn[0]] applies to a string. *)
Definition stringToNumber (d : string) : option Z :=
  Js.roundToDouble (decimalValue d).

(** The maximal runs of [/(\d+)|(\D+)/g], each with whether it is a run of
    digits. *)
Fixpoint runs (s : string) : list (bool * string) :=
  match s with
  | EmptyString => []
  | String c r =>
      match runs r with
      | (d, run) :: t =>
          if Bool.eqb d (Js.isDigit c) then (d, String c run) :: t
          else (Js.isDigit c, String c EmptyString) :: (d, run) :: t
      | [] => [(Js.isDigit c, String c EmptyString)]
      end
  end.

(** The callback of [replace]: [[$1 || Infinity, $2 || ""]]. *)
Definition tokenOf (r : bool * string) : Token :=
  if fst r then (Digits (snd r), EmptyString) else (Infinity, snd r).

Definition tokens (s : string) : list Token := map tokenOf (runs s).

Section NaturalSort.

(** [x.localeCompare(y)]: negative, zero or positive. *)
Variable localeCompare : string -> string -> Z.

(** [Number(d)] for a run of digits [d]: the double nearest to its decimal
    value, which is an integer, or [None] for [Infinity]. *)
Variable toNumber : string -> option Z.

Definition keyNumber (k : Key) : option Z :=
  match k with
  | Digits d => toNumber d
  | Infinity => None
  end.

(** [an[0] - bn[0]].  The difference of two doubles has the sign of their
    exact difference; [Infinity - Infinity] is [NaN]. *)
Definition keySub (a b : Key) : JsNum :=
  match keyNumber a, keyNumber b with
  | Some x, Some y => Fin (x - y)
  | Some _, None => NegInf
  | None, Some _ => PosInf
  | None, None => NaN
  end.

(** [(an[0] - bn[0]) || an[1].localeCompare(bn[1])] *)
Definition tokenCompare (an bn : Token) : JsNum :=
  let d := keySub (fst an) (fst bn) in
  if numTruthy d then d else Fin (localeCompare (snd an) (snd bn)).

(** The [while] loop and the final [ax.length - bx.length]. *)
Fixpoint compareTokens (ax bx : list Token) : JsNum :=
  match ax, bx with
  | an :: ax', bn :: bx' =>
      let nn := tokenCompare an bn in
      if numTruthy nn then nn else compareTokens ax' bx'
  | _, _ => Fin (Z.of_nat (List.length ax) - Z.of_nat (List.length bx))
  end.

Definition naturalSort (a b : string) : JsNum :=
  compareTokens (tokens a) (tokens b).

End NaturalSort.

(** A conversion for the examples: every run converts to its value. *)
Definition exactNumber (d : string) : option Z := Some (decimalValue d).

(** Ordinal comparison of strings, a [localeCompare] for the examples. *)
Definition ordinalCompare (a b : string) : Z :=
  match String.compare a b with
  | Lt => -1
  | Eq => 0
  | Gt => 1
  end%Z.


(** ** Outcomes, documents and the libraries *)

(** The outcome of a call that may throw; [Throw msg] carries [err.message]. *)
Inductive Res (A : Type) : Type :=
  | Ok (a : A)
  | Throw (msg : string).

Arguments Ok {A} a.
Arguments Throw {A} msg.

Definition Buffer : Type := string.

(** A page of a source PDF, as [copyPages] hands it over. *)
Definition SrcPage : Type := string.

Inductive DrawOp : Type :=
  | DrawText (txt : string) (x y size : Q) (bold : bool)
  | DrawImage (img : Buffer) (x y width height : Q).

(** A page of the output document: copied from a source PDF, or added by
    [addPage([width, height])] and drawn on. *)
Inductive Page : Type :=
  | Copied (src : SrcPage)
  | Fresh (width height : Q) (ops : list DrawOp).

Definition Doc : Type := list Page.

(** Library calls.  [sharp_jpeg buffer resize quality] is the pipeline
    [img.resize(resize, resize, ...).jpeg({ quality }).toBuffer()], where
    [None] for [resize] is no call of [resize] and [None] for [quality] is
    [undefined], the default of sharp.  [canDraw bold s] is whether
    [page.drawText(s, ...)] with the regular or the bold font returns;
    [stripHtml] stands for the
    chain of replacements of the source, a total function on strings whose
    result no property below depends on. *)
Record Env : Type := {
  PDFDocument_load : Buffer -> Res (list SrcPage);
  sharp_metadata : Buffer -> Res (Z * Z);
  sharp_jpeg : Buffer -> option Z -> option Z -> Res Buffer;
  embedJpg : Buffer -> Res unit;
  widthOfTextAtSize : string -> Q -> Res Q;
  canDraw : bool -> string -> Res unit;
  toStringUtf8 : Buffer -> string;
  mammoth_extractRawText : Buffer -> Res string;
  xlsx_table : Buffer -> Res string;
  marked : string -> Res string;
  stripHtml : string -> string;
  xlsx_sheetText : Buffer -> Res string;
  pptx_scrape : string -> string
}.

(** Statements over the growing document.  The document comes back with the
    outcome: what was appended before an exception stays appended. *)
Definition M (A : Type) : Type := Doc -> Res A * Doc.

Definition ret {A : Type} (a : A) : M A := fun doc => (Ok a, doc).

Definition bind {A B : Type} (m : M A) (k : A -> M B) : M B :=
  fun doc =>
    match m doc with
    | (Ok a, doc') => k a doc'
    | (Throw msg, doc') => (Throw msg, doc')
    end.

(** [try { body } catch (err) { handler(err.message) }] *)
Definition tryCatch {A : Type} (body : M A) (handler : string -> M A) : M A :=
  fun doc =>
    match body doc with
    | (Ok a, doc') => (Ok a, doc')
    | (Throw msg, doc') => handler msg doc'
    end.

(** A call that does not touch the document. *)
Definition lift {A : Type} (r : Res A) : M A := fun doc => (r, doc).

Definition bindRes {A B : Type} (r : Res A) (k : A -> Res B) : Res B :=
  match r with
  | Ok a => k a
  | Throw msg => Throw msg
  end.

Notation "x <- m ;; k" := (bind m (fun x => k))
  (at level 61, m at next level, right associativity).
Notation "x <-? r ;; k" := (bindRes r (fun x => k))
  (at level 61, r at next level, right associativity).

(** ** Text paginator

    [textToPdfPages] first embeds the two standard fonts, which involves no
    file data and is taken to return; the constants follow. *)

Definition fontSize : Q := 10.
Definition margin : Q := 50.
Definition pageWidth : Q := 612.
Definition pageHeight : Q := 792.
Definition lineHeight : Q := fontSize * (3 # 2).
Definition maxWidth : Q := pageWidth - margin * 2.

(** [title] used as a condition: [null] and [''] are falsy. *)
Definition titleTruthy (title : option string) : bool :=
  match title with
  | Some t => Js.truthy t
  | None => false
  end.

(** [Math.floor((pageHeight - margin * 2 - (title ? 40 : 0)) / lineHeight)] *)
Definition maxLines (title : option string) : Z :=
  Qfloor ((pageHeight - margin * 2 - (if titleTruthy title then 40 else 0))
          / lineHeight).

(** [a > b] on numbers *)
Definition Qgtb (a b : Q) : bool := negb (Qle_bool a b).

Section Paginator.

Variable E : Env.

(** The loop over the words of one line.  Returns the lines pushed and the
    last value of [current]. *)
Fixpoint wrapWords (words : list string) (current : string)
  : Res (list string * string) :=
  match words with
  | [] => Ok ([], current)
  | word :: rest =>
      let test :=
        if Js.truthy current then (current ++ " " ++ word)%string else word in
      w <-? widthOfTextAtSize E test fontSize ;;
      if Qgtb w maxWidth && Js.truthy current
      then r <-? wrapWords rest word ;; Ok (current :: fst r, snd r)
      else wrapWords rest test
  end.

(** The body of [for (const line of lines)]: the lines it pushes. *)
Definition wrapLine (line : string) : Res (list string) :=
  if negb (Js.truthy line) then Ok [EmptyString]
  else
    r <-? wrapWords (Js.split " " line) EmptyString ;;
    Ok (fst r ++ (if Js.truthy (snd r) then [snd r] else [])).

Fixpoint wrapLines (lines : list string) : Res (list string) :=
  match lines with
  | [] => Ok []
  | line :: rest =>
      ls <-? wrapLine line ;;
      more <-? wrapLines rest ;;
      Ok (ls ++ more)
  end.

(** [wrappedLines] of [textToPdfPages(text, ...)] *)
Definition wrapText (text : string) : Res (list string) :=
  wrapLines (Js.split "010" text).

(** [for (const line of pageLines) { page.drawText(line, ...); y -= lineHeight }]
    on a page that already holds [ops]. *)
Fixpoint drawLines (pageLines : list string) (y : Q) (ops : list DrawOp)
  : Res unit * list DrawOp :=
  match pageLines with
  | [] => (Ok tt, ops)
  | line :: rest =>
      match canDraw E false line with
      | Ok _ =>
          drawLines rest (y - lineHeight)
            (ops ++ [DrawText line margin (y - fontSize) fontSize false])
      | Throw msg => (Throw msg, ops)
      end
  end.

(** One turn of the page loop, at index [i]: the page as the turn leaves it
    (the document holds the page from [addPage] on) and the outcome. *)
Definition renderPage (i : nat) (title : option string) (pageLines : list string)
  : Res unit * Page :=
  let y := pageHeight - margin in
  match (if (i =? 0)%nat && titleTruthy title then title else None) with
  | Some t =>
      match canDraw E true t with
      | Ok _ =>
          let r := drawLines pageLines (y - 40)
                     [DrawText t margin (y - 14) 14 true] in
          (fst r, Fresh pageWidth pageHeight (snd r))
      | Throw msg => (Throw msg, Fresh pageWidth pageHeight [])
      end
  | None =>
      let r := drawLines pageLines y [] in
      (fst r, Fresh pageWidth pageHeight (snd r))
  end.

(** [wrappedLines.slice(i, i + n)] *)
Definition slice {A : Type} (l : list A) (i n : nat) : list A :=
  firstn n (skipn i l).

Definition outOfFuel : string := "page loop did not finish".

(** [for (let i = 0; i < wrappedLines.length; i += maxLines)], from index
    [i] on.  The loop runs at most once per wrapped line when [n] is
    positive; [fuel] bounds the turns. *)
Fixpoint pageLoop (fuel : nat) (wrappedLines : list string) (n : nat)
  (title : option string) (i : nat) : M unit :=
  fun doc =>
    if (i <? List.length wrappedLines)%nat then
      match fuel with
      | O => (Throw outOfFuel, doc)
      | S fuel' =>
          let r := renderPage i title (slice wrappedLines i n) in
          match fst r with
          | Ok _ => pageLoop fuel' wrappedLines n title (i + n) (doc ++ [snd r])
          | Throw msg => (Throw msg, doc ++ [snd r])
          end
      end
    else (Ok tt, doc).

(** [textToPdfPages(text, pdfDoc, title)] *)
Definition textToPdfPages (text : string) (title : option string) : M unit :=
  wrappedLines <- lift (wrapText text) ;;
  pageLoop (List.length wrappedLines) wrappedLines (Z.to_nat (maxLines title))
    title 0.

End Paginator.

(** ** Converters *)

Section Converters.

Variable E : Env.

(** The fields [jpeg] and [resize] of the value that [settings] holds;
    [None] is [undefined]. *)
Record Settings : Type := {
  jpeg : option Z;
  resize : option Z
}.

(** The properties every object literal inherits from [Object.prototype].
    Looked up in the table of settings, each gives a function, and
    [__proto__] the prototype itself: a truthy value that has neither
    [jpeg] nor [resize]. *)
Definition inheritedNames : list string :=
  [ "constructor"; "__defineGetter__"; "__defineSetter__"; "hasOwnProperty";
    "__lookupGetter__"; "__lookupSetter__"; "isPrototypeOf";
    "propertyIsEnumerable"; "toString"; "valueOf"; "__proto__";
    "toLocaleString" ].

(** [{ low: ..., medium: ..., high: ... }[quality] || { jpeg: 75, resize: 2000 }] *)
Definition settingsOf (quality : string) : Settings :=
  if String.eqb quality "low"
  then {| jpeg := Some 50%Z; resize := Some 1200%Z |}
  else if String.eqb quality "medium"
  then {| jpeg := Some 75%Z; resize := Some 2000%Z |}
  else if String.eqb quality "high"
  then {| jpeg := Some 95%Z; resize := Some 4000%Z |}
  else if existsb (String.eqb quality) inheritedNames
  then {| jpeg := None; resize := None |}
  else {| jpeg := Some 75%Z; resize := Some 2000%Z |}.

(** [metadata.width > settings.resize || metadata.height > settings.resize];
    a comparison with [undefined] is false. *)
Definition exceeds (metadata : Z * Z) (limit : option Z) : bool :=
  match limit with
  | Some r => (fst metadata >? r)%Z || (snd metadata >? r)%Z
  | None => false
  end.

(** [imageToPdfPage(buffer, quality)]: the JPEG and its pixel dimensions. *)
Definition imageToPdfPage (buffer : Buffer) (quality : string)
  : Res (Buffer * (Z * Z)) :=
  let settings := settingsOf quality in
  metadata <-? sharp_metadata E buffer ;;
  let resized :=
    if exceeds metadata (resize settings) then resize settings else None in
  jpegBuffer <-? sharp_jpeg E buffer resized (jpeg settings) ;;
  processedMeta <-? sharp_metadata E jpegBuffer ;;
  Ok (jpegBuffer, processedMeta).

(** [wordToText(buffer)] *)
Definition wordToText (buffer : Buffer) : string :=
  match mammoth_extractRawText E buffer with
  | Ok value => Js.orElse value EmptyString
  | Throw _ => Js.printable (toStringUtf8 E buffer)
  end.

(** [excelToText(buffer, filename)]; [xlsx_table] is the table text built
    inside the [try]. *)
Definition excelToText (buffer : Buffer) (filename : string) : string :=
  match xlsx_table E buffer with
  | Ok output => Js.trim output
  | Throw msg => ("Error reading spreadsheet: " ++ msg)%string
  end.

(** [markdownToText(buffer)] *)
Definition markdownToText (buffer : Buffer) : Res string :=
  h <-? marked E (toStringUtf8 E buffer) ;;
  Ok (stripHtml E h).

(** [htmlToText(buffer)] *)
Definition htmlToText (buffer : Buffer) : string :=
  stripHtml E (toStringUtf8 E buffer).

(** [pptxToText(buffer)]; [xlsx_sheetText] is the text gathered from the
    sheets, [pptx_scrape] the fallback over the [<a:t>] runs. *)
Definition pptxToText (buffer : Buffer) : string :=
  match xlsx_sheetText E buffer with
  | Ok sheetText =>
      let t :=
        if negb (Js.truthy (Js.trim sheetText))
        then pptx_scrape E (toStringUtf8 E buffer) else sheetText in
      Js.orElse t "(Could not extract text from presentation)"
  | Throw msg => ("(PowerPoint extraction error: " ++ msg ++ ")")%string
  end.

End Converters.

(** ** Image placement

    The handler computes the scale and the drawn size in doubles. *)

Module Dbl.

Import Floats.

(** A pixel count as a double; exact from 0 up to 2^53. *)
Definition ofZ (z : Z) : float := PrimFloat.of_uint63 (Uint63.of_Z z).

(** [Math.min(a, b)]: [NaN] when either is, and [-0] below [+0]. *)
Definition min (a b : float) : float :=
  if PrimFloat.is_nan a || PrimFloat.is_nan b then PrimFloat.nan
  else if PrimFloat.ltb a b then a
  else if PrimFloat.ltb b a then b
  else if PrimFloat.get_sign a then a else b.

(** [Math.max(a, b)] *)
Definition max (a b : float) : float :=
  if PrimFloat.is_nan a || PrimFloat.is_nan b then PrimFloat.nan
  else if PrimFloat.ltb a b then b
  else if PrimFloat.ltb b a then a
  else if PrimFloat.get_sign a then b else a.

(** The rational a finite double is; zero for the others, which no
    placement of an image with positive sides produces. *)
Definition toQ (x : float) : Q :=
  match FloatOps.Prim2SF x with
  | SpecFloat.S754_finite s m e =>
      let v :=
        match e with
        | Zneg k => Qred (Z.pos m # Pos.shiftl 1 (Npos k))
        | _ => inject_Z (Z.pos m * 2 ^ e)
        end in
      if s then Qopp v else v
  | _ => 0
  end.

Definition le (a b : float) : Prop := PrimFloat.leb a b = true.
Definition lt (a b : float) : Prop := PrimFloat.ltb a b = true.

End Dbl.

Section ImagePlacement.

Import PrimFloat.

(** [Math.min(612 / width, 792 / height, 1)] *)
Definition imageScale (width height : float) : float :=
  Dbl.min (Dbl.min (612 / width) (792 / height)) 1.

(** The size of the drawn image, [w] and [h] of the handler. *)
Definition scaledSize (width height : float) : float * float :=
  (width * imageScale width height, height * imageScale width height)%float.

(** The size of the added page, [[Math.max(w, 100), Math.max(h, 100)]]. *)
Definition imagePageSize (width height : float) : float * float :=
  (Dbl.max (fst (scaledSize width height)) 100,
   Dbl.max (snd (scaledSize width height)) 100).

(** The page of an image whose metadata gives [width] by [height] pixels;
    as JavaScript numbers the two counts are doubles. *)
Definition imagePage (img : Buffer) (width height : Z) : Page :=
  let drawn := scaledSize (Dbl.ofZ width) (Dbl.ofZ height) in
  let page := imagePageSize (Dbl.ofZ width) (Dbl.ofZ height) in
  Fresh (Dbl.toQ (fst page)) (Dbl.toQ (snd page))
    [DrawImage img 0 0 (Dbl.toQ (fst drawn)) (Dbl.toQ (snd drawn))].

End ImagePlacement.

(** ** The merge handler *)

(** An element of [req.files]. *)
Record File : Type := {
  originalname : string;
  mimetype : string;
  buffer : Buffer
}.

Inductive Body : Type :=
  | TextBody (message : string)
  | PdfBody (pages : Doc).

Record Response : Type := {
  status : Z;
  contentType : string;
  contentDisposition : option string;
  body : Body
}.

Definition sendText (code : Z) (message : string) : Response :=
  {| status := code; contentType := "text/plain";
     contentDisposition := None; body := TextBody message |}.

Definition dquote : string := String (ascii_of_nat 34) EmptyString.

(** [PageSizes.A4] of pdf-lib, the size [addPage()] gives a page. *)
Definition blankPage : Page := Fresh (59528 # 100) (84189 # 100) [].

(** [merged.save()] with the default options of pdf-lib: a document
    without pages gets one blank page before it is written.  The bytes are
    modelled by the pages they hold. *)
Definition save (merged : Doc) : Doc :=
  match merged with
  | [] => [blankPage]
  | _ :: _ => merged
  end.

(** The answer that carries the saved document. *)
Definition sendPdf (mergedBytes : Doc) : Response :=
  {| status := 200; contentType := "application/pdf";
     contentDisposition :=
       Some ("attachment; filename=" ++ dquote ++ "merged.pdf" ++ dquote)%string;
     body := PdfBody mergedBytes |}.

Definition encryptedMessage : string :=
  "One or more PDFs are encrypted. Remove password protection and try again.".

(** The outer [catch (err)] of the handler. *)
Definition topLevelCatch (errMessage : string) : Response :=
  let msg := Js.orElse errMessage "Merge failed." in
  if Js.includes (Js.toLowerCase msg) "encrypted"
     || Js.includes (Js.toLowerCase msg) "password"
  then sendText 500 encryptedMessage
  else sendText 500 msg.

Section Merge.

Variable E : Env.

(** [req.body.quality] *)
Variable reqQuality : string.

Definition quality : string := Js.orElse reqQuality "medium".

(** The [if]/[else if] chain inside the inner [try]. *)
Definition convert (f : File) : M unit :=
  let filename := originalname f in
  match getFileType filename with
  | Some Category.pdf =>
      pages <- lift (PDFDocument_load E (buffer f)) ;;
      (fun merged => (Ok tt, merged ++ map Copied pages))
  | Some Category.image =>
      processed <- lift (imageToPdfPage E (buffer f) quality) ;;
      _ <- lift (embedJpg E (fst processed)) ;;
      (fun merged =>
         (Ok tt,
          merged ++ [imagePage (fst processed) (fst (snd processed))
                       (snd (snd processed))]))
  | Some Category.word =>
      textToPdfPages E (wordToText E (buffer f)) (Some filename)
  | Some Category.excel =>
      textToPdfPages E (excelToText E (buffer f) filename) (Some filename)
  | Some Category.text =>
      textToPdfPages E (toStringUtf8 E (buffer f)) (Some filename)
  | Some Category.markdown =>
      t <- lift (markdownToText E (buffer f)) ;;
      textToPdfPages E t (Some filename)
  | Some Category.html =>
      textToPdfPages E (htmlToText E (buffer f)) (Some filename)
  | Some Category.powerpoint =>
      textToPdfPages E (pptxToText E (buffer f)) (Some filename)
  | None => ret tt
  end.

(** [`Error processing file: ${filename}\n\n${err.message}`] *)
Definition errorText (filename errMessage : string) : string :=
  ("Error processing file: " ++ filename
   ++ String "010" (String "010" errMessage))%string.

(** The body of [for (const f of uploaded)]: the inner [try] and its
    [catch], which appends the error page. *)
Definition processFile (f : File) : M unit :=
  tryCatch (convert f)
    (fun errMessage =>
       textToPdfPages E (errorText (originalname f) errMessage) (Some "Error")).

Fixpoint forEach (uploaded : list File) : M unit :=
  match uploaded with
  | [] => ret tt
  | f :: rest => _ <- processFile f ;; forEach rest
  end.

(** The handler of [POST /merge] on [req.files].  [PDFDocument.create] and
    [merged.save] receive no file data and are taken to return. *)
Definition merge (uploaded : list File) : Response :=
  if (List.length uploaded =? 0)%nat then sendText 400 "No files uploaded."
  else
    match forEach uploaded [] with
    | (Ok _, merged) => sendPdf (save merged)
    | (Throw errMessage, _) => topLevelCatch errMessage
    end.

End Merge.


(** ** The other handlers of the repository

    The repository holds two earlier variants of the server next to
    [app.js].  Their handlers are embedded here over the same libraries, to
    set the [/merge] of [app.js] beside them. *)

(** The variant for PDF, image and text files ([src/unnamed/part_000]). *)
Module Minimal.

Definition SUPPORTED_pdf : list string := [".pdf"].
Definition SUPPORTED_image : list string :=
  [".jpg"; ".jpeg"; ".png"; ".gif"; ".webp"; ".bmp"; ".tiff"; ".tif"].
Definition SUPPORTED_text : list string := [".txt"].

Definition getFileType (filename : string) : option FileType :=
  let ext := extOf filename in
  if arrayIncludes SUPPORTED_pdf ext then Some Category.pdf
  else if arrayIncludes SUPPORTED_image ext then Some Category.image
  else if arrayIncludes SUPPORTED_text ext then Some Category.text
  else None.

Definition fontSize : Q := 11.
Definition lineHeight : Q := fontSize * (14 # 10).

(** [Math.floor((pageHeight - margin * 2) / lineHeight)] *)
Definition maxLines : Z := Qfloor ((pageHeight - margin * 2) / lineHeight).

Section Paginator.

Variable E : Env.

Fixpoint wrapWords (words : list string) (currentLine : string)
  : Res (list string * string) :=
  match words with
  | [] => Ok ([], currentLine)
  | word :: rest =>
      let testLine :=
        if Js.truthy currentLine then (currentLine ++ " " ++ word)%string
        else word in
      width <-? widthOfTextAtSize E testLine fontSize ;;
      if Qgtb width maxWidth && Js.truthy currentLine
      then r <-? wrapWords rest word ;; Ok (currentLine :: fst r, snd r)
      else wrapWords rest testLine
  end.

Definition wrapLine (line : string) : Res (list string) :=
  if (String.length line =? 0)%nat then Ok [EmptyString]
  else
    r <-? wrapWords (Js.split " " line) EmptyString ;;
    Ok (fst r ++ (if Js.truthy (snd r) then [snd r] else [])).

Fixpoint wrapLines (lines : list string) : Res (list string) :=
  match lines with
  | [] => Ok []
  | line :: rest =>
      ls <-? wrapLine line ;;
      more <-? wrapLines rest ;;
      Ok (ls ++ more)
  end.

Fixpoint drawLines (pageLines : list string) (y : Q) (ops : list DrawOp)
  : Res unit * list DrawOp :=
  match pageLines with
  | [] => (Ok tt, ops)
  | line :: rest =>
      match canDraw E false line with
      | Ok _ =>
          drawLines rest (y - lineHeight)
            (ops ++ [DrawText line margin (y - fontSize) fontSize false])
      | Throw msg => (Throw msg, ops)
      end
  end.

Fixpoint pageLoop (fuel : nat) (wrappedLines : list string) (n i : nat)
  : M unit :=
  fun doc =>
    if (i <? List.length wrappedLines)%nat then
      match fuel with
      | O => (Throw outOfFuel, doc)
      | S fuel' =>
          let r := drawLines (slice wrappedLines i n) (pageHeight - margin) [] in
          let page := Fresh pageWidth pageHeight (snd r) in
          match fst r with
          | Ok _ => pageLoop fuel' wrappedLines n (i + n) (doc ++ [page])
          | Throw msg => (Throw msg, doc ++ [page])
          end
      end
    else (Ok tt, doc).

(** [textToPdfPages(text, pdfDoc)] *)
Definition textToPdfPages (text : string) : M unit :=
  wrappedLines <- lift (wrapLines (Js.split "010" text)) ;;
  pageLoop (List.length wrappedLines) wrappedLines (Z.to_nat maxLines) 0.

End Paginator.

Section Merge.

Variable E : Env.
Variable reqQuality : string.

(** [try { body } catch (err) { throw new Error(`Failed to process
    ${filename}: ${err.message}`) }] *)
Definition rethrow (filename : string) (body : M unit) : M unit :=
  tryCatch body
    (fun errMessage merged =>
       (Throw ("Failed to process " ++ filename ++ ": " ++ errMessage)%string,
        merged)).

Definition processFile (f : File) : M unit :=
  let filename := originalname f in
  match getFileType filename with
  | Some Category.pdf =>
      rethrow filename
        (pages <- lift (PDFDocument_load E (buffer f)) ;;
         (fun merged => (Ok tt, merged ++ map Copied pages)))
  | Some Category.image =>
      rethrow filename
        (processed <- lift (imageToPdfPage E (buffer f) (quality reqQuality)) ;;
         _ <- lift (embedJpg E (fst processed)) ;;
         (fun merged =>
            (Ok tt,
             merged ++ [imagePage (fst processed) (fst (snd processed))
                          (snd (snd processed))])))
  | Some Category.text =>
      rethrow filename (textToPdfPages E (toStringUtf8 E (buffer f)))
  | _ => ret tt
  end.

Fixpoint forEach (uploaded : list File) : M unit :=
  match uploaded with
  | [] => ret tt
  | f :: rest => _ <- processFile f ;; forEach rest
  end.

Definition merge (uploaded : list File) : Response :=
  if (List.length uploaded =? 0)%nat then sendText 400 "No files uploaded."
  else
    match forEach uploaded [] with
    | (Ok _, merged) => sendPdf (save merged)
    | (Throw errMessage, _) => topLevelCatch errMessage
    end.

End Merge.

End Minimal.

(** The variant that merges PDF files only ([src/unnamed/part_002]). *)
Module PdfOnly.

Definition encryptedMessage : string :=
  "One or more PDFs are encrypted/password-protected. Remove protection and try again.".

Definition topLevelCatch (errMessage : string) : Response :=
  let msg := Js.orElse errMessage "Merge failed." in
  if Js.includes (Js.toLowerCase msg) "encrypted"
     || Js.includes (Js.toLowerCase msg) "password"
  then sendText 500 encryptedMessage
  else sendText 500 msg.

Definition isPdfUpload (f : File) : bool :=
  String.eqb (mimetype f) "application/pdf"
  || Js.endsWith (Js.toLowerCase (originalname f)) ".pdf".

Section Merge.

Variable E : Env.

Fixpoint forEach (pdfs : list File) : M unit :=
  match pdfs with
  | [] => ret tt
  | f :: rest =>
      pages <- lift (PDFDocument_load E (buffer f)) ;;
      _ <- (fun merged => (Ok tt, merged ++ map Copied pages)) ;;
      forEach rest
  end.

Definition merge (uploaded : list File) : Response :=
  let pdfs := filter isPdfUpload uploaded in
  if (List.length pdfs =? 0)%nat then sendText 400 "No PDF files uploaded."
  else
    match forEach pdfs [] with
    | (Ok _, merged) => sendPdf (save merged)
    | (Throw errMessage, _) => topLevelCatch errMessage
    end.

End Merge.

End PdfOnly.

(** ** A concrete environment

    The data of the examples is ASCII.  Courier is monospaced, 600/1000 em
    a glyph, and its encoding, WinAnsi, holds the characters from the space
    to the tilde: measuring a string with any other character throws, as
    pdf-lib does on a carriage return or a tab.  [drawText] first replaces
    tabs, drops [\b] and [\v] and splits at line breaks, so it refuses
    the other characters only.  A buffer is a PDF or an image when the
    tables say so; the other extractors return the buffer as text. *)

Module Fixture.

Fixpoint lookup {A : Type} (k : string) (table : list (string * A))
  : option A :=
  match table with
  | [] => None
  | (k', v) :: rest => if String.eqb k k' then Some v else lookup k rest
  end.

Definition winAnsi (c : ascii) : bool :=
  (32 <=? nat_of_ascii c)%nat && (nat_of_ascii c <=? 126)%nat.

(** What [cleanText] and [lineSplit] take out before the text is encoded:
    the characters from [\b] to [\r]. *)
Definition cleaned (c : ascii) : bool :=
  (8 <=? nat_of_ascii c)%nat && (nat_of_ascii c <=? 13)%nat.

Fixpoint firstOutside (ok : ascii -> bool) (s : string) : option ascii :=
  match s with
  | EmptyString => None
  | String c r => if ok c then firstOutside ok r else Some c
  end.

Definition hexDigit (n : nat) : ascii :=
  ascii_of_nat (if (n <? 10)%nat then 48 + n else 87 + n).

(** [codePoint.toString(16)] padded to four digits, for a code below 256. *)
Definition hex4 (n : nat) : string :=
  String "0" (String "0"
    (String (hexDigit (n / 16)) (String (hexDigit (n mod 16)) EmptyString))).

(** The message of the exception of the encoding. *)
Definition cannotEncode (c : ascii) : string :=
  ("WinAnsi cannot encode " ++ dquote ++ String c EmptyString ++ dquote
   ++ " (0x" ++ hex4 (nat_of_ascii c) ++ ")")%string.

Definition courierWidth (s : string) (size : Q) : Res Q :=
  match firstOutside winAnsi s with
  | Some c => Throw (cannotEncode c)
  | None => Ok (inject_Z (Z.of_nat (String.length s)) * (600 # 1000) * size)
  end.

Definition courierDraw (s : string) : Res unit :=
  match firstOutside (fun c => winAnsi c || cleaned c) s with
  | Some c => Throw (cannotEncode c)
  | None => Ok tt
  end.

Definition env (pdfs : list (Buffer * Res (list SrcPage)))
  (images : list (Buffer * (Z * Z))) : Env :=
  {| PDFDocument_load := fun b =>
       match lookup b pdfs with
       | Some r => r
       | None => Throw "Failed to parse PDF document"
       end;
     sharp_metadata := fun b =>
       match lookup b images with
       | Some d => Ok d
       | None => Throw "Input buffer contains unsupported image format"
       end;
     sharp_jpeg := fun b _ _ => Ok b;
     embedJpg := fun _ => Ok tt;
     widthOfTextAtSize := courierWidth;
     canDraw := fun _ s => courierDraw s;
     toStringUtf8 := fun b => b;
     mammoth_extractRawText := fun b => Ok b;
     xlsx_table := fun b => Ok b;
     marked := fun s => Ok s;
     stripHtml := fun s => s;
     xlsx_sheetText := fun b => Ok b;
     pptx_scrape := fun s => s |}.

Definition encryptedError : string :=
  "Input document to `PDFDocument.load` is encrypted.".

Definition file (name : string) (content : Buffer) : File :=
  {| originalname := name; mimetype := EmptyString; buffer := content |}.

(** [n] copies of [s], each followed by [sep]. *)
Fixpoint repeatStr (n : nat) (s sep : string) : string :=
  match n with
  | O => EmptyString
  | S k => (s ++ sep ++ repeatStr k s sep)%string
  end.

Definition nl : string := String "010" EmptyString.

(** The libraries of the examples: one encrypted PDF, one PDF of two pages
    and two JPEG images; any other buffer is neither. *)
Definition library : Env :=
  env [("%PDF locked", Throw encryptedError);
       ("%PDF two pages", Ok ["cover"; "back"])]
      [("JPEG 300x400", (300, 400)%Z); ("JPEG 50x50", (50, 50)%Z)].

(** A file name of 2252 characters: 44 words of 50 letters, then
    [scan.png]. *)
Definition longName : string :=
  (repeatStr 44 "aaaaaaaaaaaaaaaaaaaaaaaaaaaaaaaaaaaaaaaaaaaaaaaaaa" " "
   ++ "scan.png")%string.

End Fixture.


(** ** Notions the properties are stated with *)

(** A three-way comparison with values in [-1, 0, 1] that is antisymmetric
    and transitive: what [Array.prototype.sort] needs of its comparator. *)
Definition Cmp3 {A : Type} (c : A -> A -> Z) : Prop :=
  (forall a b, c a b = (- c b a)%Z) /\
  (forall a b, (-1 <= c a b <= 1)%Z) /\
  (forall a b d, (c a b <= 0)%Z -> (c b d <= 0)%Z -> (c a d <= 0)%Z).

(** The order of the [while] loop over two token arrays, on signs. *)
Fixpoint lex {A : Type} (c : A -> A -> Z) (ax bx : list A) : Z :=
  match ax, bx with
  | a :: ax', b :: bx' => if (c a b =? 0)%Z then lex c ax' bx' else c a b
  | [], [] => 0
  | [], _ :: _ => -1
  | _ :: _, [] => 1
  end%Z.

(** Every character of [u] is a digit ([d = true]) or none is. *)
Fixpoint uniform (d : bool) (u : string) : bool :=
  match u with
  | EmptyString => true
  | String c r => Bool.eqb (Js.isDigit c) d && uniform d r
  end.

(** Whether the first character is a digit, when there is one. *)
Definition headClass (s : string) : option bool :=
  match s with
  | EmptyString => None
  | String c _ => Some (Js.isDigit c)
  end.

(** The pieces of [s] between the characters that [ws] holds for. *)
Fixpoint pieces (ws : ascii -> bool) (s : string) : list string :=
  match s with
  | EmptyString => [EmptyString]
  | String c r =>
      if ws c then EmptyString :: pieces ws r
      else match pieces ws r with
           | h :: t => String c h :: t
           | [] => [String c EmptyString]
           end
  end.

(** The words of [s]: its maximal runs of characters that are not white
    space, for the white space [ws]. *)
Definition words (ws : ascii -> bool) (s : string) : list string :=
  filter Js.truthy (pieces ws s).

(** Whether [s] holds the character [c]. *)
Fixpoint hasChar (c : ascii) (s : string) : bool :=
  match s with
  | EmptyString => false
  | String c' r => Ascii.eqb c' c || hasChar c r
  end.

(** A line that is wider than the column holds no space: it is one word
    that could not be broken. *)
Definition overflowsAlone (E : Env) (line : string) : Prop :=
  forall w, widthOfTextAtSize E line fontSize = Ok w ->
            Qgtb w maxWidth = true -> hasChar " " line = false.

(** Every character of [s] occurs in [txt]. *)
Definition madeOf (txt s : string) : Prop :=
  forall c, hasChar c s = true -> hasChar c txt = true.

(** The body lines a page shows, top to bottom, and the titles on it. *)
Definition opLine (op : DrawOp) : list string :=
  match op with
  | DrawText t _ _ _ false => [t]
  | _ => []
  end.

Definition opTitle (op : DrawOp) : list string :=
  match op with
  | DrawText t _ _ _ true => [t]
  | _ => []
  end.

Definition pageLines (p : Page) : list string :=
  match p with
  | Fresh _ _ ops => flat_map opLine ops
  | Copied _ => []
  end.

Definition pageTitles (p : Page) : list string :=
  match p with
  | Fresh _ _ ops => flat_map opTitle ops
  | Copied _ => []
  end.

(** The title [renderPage] draws in the turn at index [i]. *)
Definition titleAt (i : nat) (title : option string) : list string :=
  match title with
  | Some t => if (i =? 0)%nat && Js.truthy t then [t] else []
  | None => []
  end.

Definition isLetter (p : Page) : Prop :=
  exists ops, p = Fresh pageWidth pageHeight ops.

(** A statement that only appends to the document, and appends the same
    pages whatever the document already holds. *)
Definition appendOnly {A : Type} (m : M A) : Prop :=
  forall doc, m doc = (fst (m []), doc ++ snd (m [])).

(** What the loop body does for one file: its outcome and the pages it
    appends, its page group. *)
Definition outcome (E : Env) (reqQuality : string) (f : File) : Res unit :=
  fst (processFile E reqQuality f []).

Definition contribution (E : Env) (reqQuality : string) (f : File)
  : list Page :=
  snd (processFile E reqQuality f []).

(** ** Further notions *)

(** The class of the last character, when there is one. *)
Fixpoint lastClass (s : string) : option bool :=
  match s with
  | EmptyString => None
  | String c EmptyString => Some (Js.isDigit c)
  | String _ r => lastClass r
  end.

(** The characters [/[^\x20-\x7E\n\r\t]/] does not match. *)
Definition isPrintable (c : ascii) : bool :=
  let n := nat_of_ascii c in
  ((32 <=? n)%nat && (n <=? 126)%nat)
  || (n =? 10)%nat || (n =? 13)%nat || (n =? 9)%nat.

Fixpoint allChars (p : ascii -> bool) (s : string) : bool :=
  match s with
  | EmptyString => true
  | String c r => p c && allChars p r
  end.

(** [s.repeat(n)] *)
Fixpoint repeatString (s : string) (n : nat) : string :=
  match n with
  | O => EmptyString
  | S k => (s ++ repeatString s k)%string
  end.

(** A drawing that stays between the top and the bottom margin, at the left
    margin: the base line is not below the bottom margin and the text, one
    font size high, does not rise above the top margin. *)
Definition insideMargins (op : DrawOp) : Prop :=
  match op with
  | DrawText _ x y size _ =>
      x == margin /\ margin <= y /\ y + size <= pageHeight - margin
  | DrawImage _ _ _ _ _ => True
  end.

Definition pageInsideMargins (p : Page) : Prop :=
  match p with
  | Fresh w h ops =>
      w = pageWidth /\ h = pageHeight /\ Forall insideMargins ops
  | Copied _ => True
  end.

(** ** The table of a spreadsheet

    The text [excelToText] builds inside its [try], from what the xlsx
    library returns: for each name of [workbook.SheetNames] the rows of
    [sheet_to_json(sheet, { header: 1, defval: '' })], every cell already
    as [String(cell)].  [xlsx_table E buffer] stands for [excelTable] of
    the workbook read from [buffer]. *)

Module Excel.

Definition Sheet : Type := (string * list (list string))%type.
Definition Workbook : Type := list Sheet.

(** The box-drawing characters of the source, in UTF-8: U+2550, U+2502,
    U+2500 and U+253C. *)
Definition utf8_3 (a b c : nat) : string :=
  String (ascii_of_nat a) (String (ascii_of_nat b)
    (String (ascii_of_nat c) EmptyString)).
Definition doubleRule : string := utf8_3 226 149 144.
Definition bar : string := utf8_3 226 148 130.
Definition rule : string := utf8_3 226 148 128.
Definition cross : string := utf8_3 226 148 188.

Definition nl : string := String "010" EmptyString.

(** [s.padEnd(target)] *)
Definition padEnd (s : string) (target : nat) : string :=
  (s ++ repeatString " " (target - String.length s))%string.

(** [w || 10] *)
Definition orTen (w : nat) : nat := if (w =? 0)%nat then 10%nat else w.

(** [colWidths[i] = v].  The loop writes the indices in ascending order
    from 0, so no hole arises; an index beyond the end is reached over
    zeros, which is how [colWidths[i] || 0] reads a hole. *)
Fixpoint writeAt (i v : nat) (colWidths : list nat) : list nat :=
  match i, colWidths with
  | O, [] => [v]
  | O, _ :: t => v :: t
  | S i', [] => 0%nat :: writeAt i' v []
  | S i', h :: t => h :: writeAt i' v t
  end.

(** [row.forEach((cell, i) => { colWidths[i] = Math.min(Math.max(
    colWidths[i] || 0, String(cell).length), 30) })], from index [i]. *)
Fixpoint widenRow (colWidths : list nat) (row : list string) (i : nat)
  : list nat :=
  match row with
  | [] => colWidths
  | cell :: rest =>
      let len := String.length cell in
      widenRow
        (writeAt i (Nat.min (Nat.max (nth i colWidths 0%nat) len) 30)
           colWidths)
        rest (S i)
  end.

(** [colWidths] after the first [data.forEach]. *)
Definition columnWidths (data : list (list string)) : list nat :=
  fold_left (fun colWidths row => widenRow colWidths row 0) data [].

(** [row.map((cell, i) => String(cell).substring(0, 30).padEnd(
    colWidths[i] || 10))], from index [i]. *)
Fixpoint renderCells (colWidths : list nat) (row : list string) (i : nat)
  : list string :=
  match row with
  | [] => []
  | cell :: rest =>
      padEnd (String.substring 0 30 cell) (orTen (nth i colWidths 0%nat))
      :: renderCells colWidths rest (S i)
  end.

Definition renderLine (colWidths : list nat) (row : list string) : string :=
  String.concat (" " ++ bar ++ " ") (renderCells colWidths row 0).

(** [colWidths.map(w => rule.repeat(w)).join(rule + cross + rule)] *)
Definition headerRule (colWidths : list nat) : string :=
  String.concat (rule ++ cross ++ rule)
    (map (fun w => repeatString rule w) colWidths).

(** The second [data.forEach], from the row of index [rowIdx]. *)
Fixpoint renderRows (colWidths : list nat) (data : list (list string))
  (rowIdx : nat) : string :=
  match data with
  | [] => EmptyString
  | row :: rest =>
      (renderLine colWidths row ++ nl
       ++ (if (rowIdx =? 0)%nat then headerRule colWidths ++ nl
           else EmptyString)
       ++ renderRows colWidths rest (S rowIdx))%string
  end.

(** The body of [workbook.SheetNames.forEach]; [several] is
    [workbook.SheetNames.length > 1]. *)
Definition renderSheet (several : bool) (sheet : Sheet) : string :=
  ((if several
    then nl ++ repeatString doubleRule 60 ++ nl
         ++ "  SHEET: " ++ fst sheet ++ nl
         ++ repeatString doubleRule 60 ++ nl ++ nl
    else EmptyString)
   ++ (if (List.length (snd sheet) =? 0)%nat then "(Empty sheet)" ++ nl
       else renderRows (columnWidths (snd sheet)) (snd sheet) 0 ++ nl))%string.

(** [output] before [output.trim()]. *)
Definition excelTable (workbook : Workbook) : string :=
  String.concat EmptyString
    (map (renderSheet (1 <? List.length workbook)%nat) workbook).

End Excel.

(** Whether the first, or the last, character is white space. *)
Definition startsWithSpace (s : string) : bool :=
  match s with
  | EmptyString => false
  | String c _ => Js.isSpace c
  end.

Fixpoint endsWithSpace (s : string) : bool :=
  match s with
  | EmptyString => false
  | String c EmptyString => Js.isSpace c
  | String _ r => endsWithSpace r
  end.

(** [getFileType(f.originalname) !== null] *)
Definition recognized (f : File) : bool :=
  match getFileType (originalname f) with
  | Some _ => true
  | None => false
  end.


(** ** The image sizes a quality tier leaves

    The tiers resize an image to fit a square of 1200, 2000 or 4000
    pixels, so a normalized image has sides from 1 to 4000.  [placed] says,
    as a boolean, what the placement of such an image satisfies, and
    [allFrom] runs a check over a range of sizes. *)

Module Placement.

Import Floats Uint63.

Definition maxSide : Z := 4000.

(** The number of sizes along one side. *)
Definition sides : nat := Z.to_nat maxSide.

(** The doubles next above 612 and 792, one rounding step away. *)
Definition above612 : float := Eval vm_compute in next_up 612.
Definition above792 : float := Eval vm_compute in next_up 792.

(** 2^-50, four rounding steps of a double taken relatively. *)
Definition tolerance : float := Eval vm_compute in (1 / Dbl.ofZ (2 ^ 50))%float.

(** The aspect ratio of the drawn image against that of the pixels, both
    computed in doubles. *)
Definition aspectKept (width height : float) (drawn : float * float) : bool :=
  let ratio := (width / height)%float in
  (abs (fst drawn / snd drawn - ratio) <=? tolerance * ratio)%float.

(** What the handler computes for an image of [w] by [h] pixels, checked:
    [s] is [imageScale], [drawn] is [scaledSize] and [page] is
    [imagePageSize], each computed once. *)
Definition placed (w h : int) : bool :=
  let width := of_uint63 w in
  let height := of_uint63 h in
  let s := imageScale width height in
  let drawn := (width * s, height * s)%float in
  let page := (Dbl.max (fst drawn) 100, Dbl.max (snd drawn) 100) in
  (0 <? s)%float && (s <=? 1)%float &&
  if (w <=? 612)%uint63 && (h <=? 792)%uint63
  then
    Leibniz.eqb s 1 &&
    Leibniz.eqb (fst drawn) width &&
    Leibniz.eqb (snd drawn) height &&
    Leibniz.eqb (fst page) (if (100 <=? w)%uint63 then width else 100%float) &&
    Leibniz.eqb (snd page) (if (100 <=? h)%uint63 then height else 100%float)
  else
    (s <? 1)%float &&
    Leibniz.eqb s (Dbl.min (612 / width) (792 / height)) &&
    (fst drawn <=? above612)%float &&
    (snd drawn <=? above792)%float &&
    (fst page <=? above612)%float &&
    (snd page <=? above792)%float &&
    aspectKept width height drawn.

Fixpoint allFrom (check : int -> bool) (i : int) (n : nat) : bool :=
  match n with
  | O => true
  | S k => if check i then allFrom check (i + 1)%uint63 k else false
  end.

End Placement.

(** ** The type classifier *)

Lemma lowerChar_idem (c : ascii) : Js.lowerChar (Js.lowerChar c) = Js.lowerChar c.
Proof. destruct c as [[] [] [] [] [] [] [] []]; reflexivity. Qed.

Lemma toLowerCase_idem (s : string) :
  Js.toLowerCase (Js.toLowerCase s) = Js.toLowerCase s.
Proof.
  induction s as [|c r IH]; simpl; [reflexivity|].
  now rewrite lowerChar_idem, IH.
Qed.

Lemma toLowerCase_app (s t : string) :
  Js.toLowerCase (s ++ t) = (Js.toLowerCase s ++ Js.toLowerCase t)%string.
Proof. induction s as [|c r IH]; simpl; [reflexivity|now rewrite IH]. Qed.

Lemma lowerChar_dot (c : ascii) :
  Ascii.eqb (Js.lowerChar c) "." = Ascii.eqb c ".".
Proof. destruct c as [[] [] [] [] [] [] [] []]; reflexivity. Qed.

Lemma noDot_toLowerCase (s : string) : noDot (Js.toLowerCase s) = noDot s.
Proof.
  induction s as [|c r IH]; simpl; [reflexivity|].
  now rewrite lowerChar_dot, IH.
Qed.

Lemma truthy_toLowerCase (s : string) :
  Js.truthy (Js.toLowerCase s) = Js.truthy s.
Proof. now destruct s. Qed.

Lemma noDot_app_dot (p e : string) : noDot (p ++ String "." e) = false.
Proof.
  induction p as [|c r IH]; simpl; [reflexivity|].
  rewrite IH. apply andb_false_r.
Qed.

(** The pattern finds the last dot, when characters follow it. *)
Lemma matchExt_suffix (p e : string) :
  Js.truthy e = true -> noDot e = true ->
  matchExt (p ++ String "." e) = Some (String "." e).
Proof.
  intros He Hd. induction p as [|c r IH]; simpl.
  - now rewrite He, Hd.
  - now rewrite noDot_app_dot, andb_false_r.
Qed.

(** A name that ends in a dot, or has none, has no extension. *)
Lemma matchExt_noDot (s : string) : noDot s = true -> matchExt s = None.
Proof.
  induction s as [|c r IH]; simpl; [reflexivity|].
  intros H. apply andb_true_iff in H as [Hc Hr].
  apply negb_true_iff in Hc. rewrite Hc. simpl. auto.
Qed.

Lemma matchExt_trailing_dot (p : string) : matchExt (p ++ ".") = None.
Proof.
  induction p as [|c r IH]; simpl; [reflexivity|].
  rewrite IH. destruct (Ascii.eqb c "."); simpl; [|reflexivity].
  destruct (Js.truthy (r ++ ".")); simpl; [|reflexivity].
  now rewrite (noDot_app_dot r "").
Qed.

Lemma extOf_toLowerCase (name : string) :
  extOf (Js.toLowerCase name) = extOf name.
Proof. unfold extOf. now rewrite toLowerCase_idem. Qed.

Lemma firstType_sound (ext : string) (entries : list (FileType * list string))
  (t : FileType) :
  firstType ext entries = Some t ->
  exists exts, In (t, exts) entries /\ In ext exts.
Proof.
  induction entries as [|[t' exts'] rest IH]; simpl; [discriminate|].
  destruct (arrayIncludes exts' ext) eqn:Hin.
  - intros [= <-]. exists exts'. split; [now left|].
    unfold arrayIncludes in Hin. apply existsb_exists in Hin as (x & Hx & Heq).
    apply String.eqb_eq in Heq. now subst.
  - intros H. destruct (IH H) as (exts & Hi & Hj). exists exts. auto.
Qed.

Lemma arrayIncludes_In (exts : list string) (ext : string) :
  arrayIncludes exts ext = true <-> In ext exts.
Proof.
  unfold arrayIncludes. rewrite existsb_exists. split.
  - intros (x & Hx & Heq). apply String.eqb_eq in Heq. now subst.
  - intros H. exists ext. split; [assumption|apply String.eqb_refl].
Qed.

(** No extension is listed under two categories. *)
Lemma SUPPORTED_disjoint (ext : string) (t1 t2 : FileType)
  (e1 e2 : list string) :
  In (t1, e1) SUPPORTED -> In (t2, e2) SUPPORTED ->
  In ext e1 -> In ext e2 -> t1 = t2.
Proof.
  unfold SUPPORTED. simpl. intros H1 H2 I1 I2.
  repeat (destruct H1 as [H1|H1]; [injection H1 as <- <-|]); try contradiction;
  simpl in I1; repeat (destruct I1 as [<-|I1]); try contradiction;
  repeat (destruct H2 as [H2|H2]; [injection H2 as <- <-|]); try contradiction;
  simpl in I2; repeat (destruct I2 as [I2|I2]); try contradiction;
  try reflexivity; discriminate.
Qed.

Lemma firstType_complete (ext : string) (t : FileType) (exts : list string) :
  In (t, exts) SUPPORTED -> In ext exts -> firstType ext SUPPORTED = Some t.
Proof.
  intros Hs Hi.
  destruct (firstType ext SUPPORTED) as [t'|] eqn:Hf.
  - apply firstType_sound in Hf as (exts' & Hs' & Hi').
    f_equal. eapply SUPPORTED_disjoint; eauto.
  - exfalso. revert Hf. generalize SUPPORTED Hs.
    intros l. induction l as [|[t' e'] rest IH]; simpl; [contradiction|].
    intros [Heq|Hin].
    + injection Heq as -> ->.
      apply arrayIncludes_In in Hi. now rewrite Hi.
    + destruct (arrayIncludes e' ext); [discriminate|]. now apply IH.
Qed.

(** C5. [getFileType] is a function from every string to one result: the
    category whose list holds the lower-cased final dot-suffix of the name,
    and [None] (unrecognized) when no list holds it or the name has no such
    suffix.  Upper and lower case classify alike and what precedes the last
    dot does not matter. *)
Theorem getFileType_total_case_insensitive :
  (forall name t,
      getFileType name = Some t <->
      exists exts, In (t, exts) SUPPORTED /\ In (extOf name) exts) /\
  (forall name,
      getFileType name = None <->
      forall t exts, In (t, exts) SUPPORTED -> ~ In (extOf name) exts) /\
  (forall name, getFileType (Js.toLowerCase name) = getFileType name) /\
  (forall p e, Js.truthy e = true -> noDot e = true ->
      extOf (p ++ String "." e) = String "." (Js.toLowerCase e) /\
      getFileType (p ++ String "." e) = getFileType (String "." e)) /\
  (forall name, noDot name = true -> getFileType name = None) /\
  (forall p, getFileType (p ++ ".") = None) /\
  getFileType "" = None /\
  getFileType "noext" = None /\
  getFileType "a.b.c.PDF" = Some Category.pdf /\
  getFileType "X.PDF" = getFileType "x.pdf".
Proof.
  assert (Hsome : forall name t,
      getFileType name = Some t <->
      exists exts, In (t, exts) SUPPORTED /\ In (extOf name) exts).
  { intros name t. unfold getFileType. split.
    - apply firstType_sound.
    - intros (exts & Hs & Hi). eapply firstType_complete; eauto. }
  assert (Hext : forall p e, Js.truthy e = true -> noDot e = true ->
      extOf (p ++ String "." e) = String "." (Js.toLowerCase e)).
  { intros p e He Hd. unfold extOf. rewrite toLowerCase_app. simpl.
    change (Js.lowerChar ".") with "."%char.
    rewrite matchExt_suffix; [reflexivity| |].
    - now rewrite truthy_toLowerCase.
    - now rewrite noDot_toLowerCase. }
  split; [exact Hsome|].
  split.
  { intros name. split.
    - intros Hn t exts Hs Hi.
      assert (getFileType name = Some t) as Hc by (apply Hsome; eauto).
      congruence.
    - intros Hn. destruct (getFileType name) as [t|] eqn:Hf; [|reflexivity].
      apply Hsome in Hf as (exts & Hs & Hi). exfalso. eapply Hn; eauto. }
  split.
  { intros name. unfold getFileType. now rewrite extOf_toLowerCase. }
  split.
  { intros p e He Hd. split; [now apply Hext|].
    unfold getFileType. rewrite (Hext p e) by assumption.
    pose proof (Hext "" e He Hd) as H0. simpl in H0. now rewrite H0. }
  split.
  { intros name Hd. unfold getFileType, extOf.
    rewrite matchExt_noDot; [reflexivity|]. now rewrite noDot_toLowerCase. }
  split.
  { intros p. unfold getFileType, extOf. rewrite toLowerCase_app. simpl.
    change (String (Js.lowerChar ".") "") with ".".
    now rewrite matchExt_trailing_dot. }
  repeat split; reflexivity.
Qed.

Lemma getFileType_witness :
  getFileType "report.final.DOCX" = getFileType ".DOCX".
Proof.
  apply (proj2 (proj1 (proj2 (proj2 (proj2
           getFileType_total_case_insensitive))) "report.final" "DOCX"
         eq_refl eq_refl)).
Defined.

(** ** The comparator *)

Section ThreeWay.

Context {A : Type} (c : A -> A -> Z) (Hc : Cmp3 c).

Lemma cmp3_refl (a : A) : c a a = 0%Z.
Proof. destruct Hc as (Ha & _ & _). specialize (Ha a a). lia. Qed.

Lemma cmp3_eq_compat (a b d : A) : c a b = 0%Z -> c a d = c b d.
Proof.
  destruct Hc as (Ha & Hr & Ht). intros E.
  pose proof (Ha a b). pose proof (Ha a d). pose proof (Ha b d).
  pose proof (Hr a d). pose proof (Hr b d).
  pose proof (Ht b a d). pose proof (Ht a b d).
  pose proof (Ht d a b). pose proof (Ht d b a). lia.
Qed.

Lemma cmp3_lt_le (a b d : A) :
  (c a b < 0)%Z -> (c b d <= 0)%Z -> (c a d < 0)%Z.
Proof.
  destruct Hc as (Ha & Hr & Ht). intros H1 H2.
  pose proof (Ha a b). pose proof (Ha a d). pose proof (Ha b d).
  pose proof (Ht a b d). pose proof (Ht b d a). lia.
Qed.

Lemma cmp3_le_lt (a b d : A) :
  (c a b <= 0)%Z -> (c b d < 0)%Z -> (c a d < 0)%Z.
Proof.
  destruct Hc as (Ha & Hr & Ht). intros H1 H2.
  pose proof (Ha a b). pose proof (Ha a d). pose proof (Ha b d).
  pose proof (Ht a b d). pose proof (Ht d a b). lia.
Qed.

Lemma lex_antisym (ax bx : list A) : lex c ax bx = (- lex c bx ax)%Z.
Proof.
  destruct Hc as (Ha & _ & _).
  revert bx. induction ax as [|a ax IH]; intros [|b bx]; simpl; try reflexivity.
  rewrite (Ha b a).
  destruct (Z.eqb_spec (c a b) 0), (Z.eqb_spec (- c a b) 0); try lia.
  apply IH.
Qed.

Lemma lex_range (ax bx : list A) : (-1 <= lex c ax bx <= 1)%Z.
Proof.
  destruct Hc as (_ & Hr & _).
  revert bx. induction ax as [|a ax IH]; intros [|b bx]; simpl; try lia.
  destruct (Z.eqb_spec (c a b) 0); [apply IH|apply Hr].
Qed.

Lemma lex_trans (ax bx dx : list A) :
  (lex c ax bx <= 0)%Z -> (lex c bx dx <= 0)%Z -> (lex c ax dx <= 0)%Z.
Proof.
  revert bx dx.
  induction ax as [|a ax IH]; intros [|b bx] [|d dx]; simpl; try lia.
  destruct (Z.eqb_spec (c a b) 0) as [Eab|Nab].
  - rewrite (cmp3_eq_compat a b d Eab).
    destruct (Z.eqb_spec (c b d) 0); [apply IH|lia].
  - intros H1.
    destruct (Z.eqb_spec (c b d) 0) as [Ebd|Nbd]; intros H2.
    + assert (c a d = c a b) as ->.
      { destruct Hc as (Ha & _ & _).
        rewrite (Ha a d), (Ha a b). f_equal.
        apply cmp3_eq_compat. rewrite (Ha d b). lia. }
      destruct (Z.eqb_spec (c a b) 0); lia.
    + assert (c a d < 0)%Z by (apply (cmp3_lt_le a b d); lia).
      destruct (Z.eqb_spec (c a d) 0); lia.
Qed.

Lemma lex_Cmp3 : Cmp3 (lex c).
Proof.
  split; [exact lex_antisym|]. split; [exact lex_range|exact lex_trans].
Qed.

End ThreeWay.

Lemma numTruthy_sign (n : JsNum) : numTruthy n = negb (sign n =? 0)%Z.
Proof.
  destruct n as [| |z|]; try reflexivity.
  destruct z; reflexivity.
Qed.

Section NaturalSortOrder.

Variable localeCompare : string -> string -> Z.
Variable toNumber : string -> option Z.

Hypothesis localeCompare_antisym :
  forall a b, Z.sgn (localeCompare a b) = (- Z.sgn (localeCompare b a))%Z.

Hypothesis localeCompare_trans :
  forall a b c, (localeCompare a b <= 0)%Z -> (localeCompare b c <= 0)%Z ->
                (localeCompare a c <= 0)%Z.

(** The sign of one token comparison. *)
Lemma tokenCompare_sign (an bn : Token) :
  sign (tokenCompare localeCompare toNumber an bn) =
  match keyNumber toNumber (fst an), keyNumber toNumber (fst bn) with
  | Some x, Some y =>
      if (x - y =? 0)%Z
      then Z.sgn (localeCompare (snd an) (snd bn))
      else Z.sgn (x - y)
  | Some _, None => -1
  | None, Some _ => 1
  | None, None => Z.sgn (localeCompare (snd an) (snd bn))
  end%Z.
Proof.
  unfold tokenCompare, keySub.
  destruct (keyNumber toNumber (fst an)) as [x|],
           (keyNumber toNumber (fst bn)) as [y|]; simpl; try reflexivity.
  destruct (Z.eqb_spec (x - y) 0); reflexivity.
Qed.

Lemma tokenCompare_Cmp3 :
  Cmp3 (fun an bn => sign (tokenCompare localeCompare toNumber an bn)).
Proof.
  split; [|split].
  - intros an bn. rewrite !tokenCompare_sign.
    pose proof (localeCompare_antisym (snd an) (snd bn)).
    destruct (keyNumber toNumber (fst an)) as [x|],
             (keyNumber toNumber (fst bn)) as [y|]; try lia.
    destruct (Z.eqb_spec (x - y) 0), (Z.eqb_spec (y - x) 0); lia.
  - intros an bn. rewrite tokenCompare_sign.
    destruct (keyNumber toNumber (fst an)) as [x|],
             (keyNumber toNumber (fst bn)) as [y|]; try lia.
    destruct (Z.eqb_spec (x - y) 0); lia.
  - intros an bn dn. rewrite !tokenCompare_sign.
    pose proof (localeCompare_trans (snd an) (snd bn) (snd dn)).
    destruct (keyNumber toNumber (fst an)) as [x|],
             (keyNumber toNumber (fst bn)) as [y|],
             (keyNumber toNumber (fst dn)) as [z|]; try lia;
      try (destruct (Z.eqb_spec (x - y) 0); try lia);
      destruct (Z.eqb_spec (y - z) 0), (Z.eqb_spec (x - z) 0); lia.
Qed.

Lemma compareTokens_lex (ax bx : list Token) :
  sign (compareTokens localeCompare toNumber ax bx) =
  lex (fun an bn => sign (tokenCompare localeCompare toNumber an bn)) ax bx.
Proof.
  revert bx. induction ax as [|an ax IH]; intros [|bn bx]; simpl;
    try reflexivity.
  rewrite numTruthy_sign.
  destruct (Z.eqb_spec (sign (tokenCompare localeCompare toNumber an bn)) 0);
    simpl; [apply IH|reflexivity].
Qed.

Lemma compareTokens_Cmp3 :
  Cmp3 (fun ax bx => sign (compareTokens localeCompare toNumber ax bx)).
Proof.
  pose proof (lex_Cmp3 _ tokenCompare_Cmp3) as (Ha & Hr & Ht).
  split; [|split].
  - intros. rewrite !compareTokens_lex. apply Ha.
  - intros. rewrite compareTokens_lex. apply Hr.
  - intros a b d. rewrite !compareTokens_lex. apply Ht.
Qed.

(** The runs of a string that starts with a uniform block. *)
Lemma runs_head (c : ascii) (r : string) :
  exists run t, runs (String c r) = (Js.isDigit c, run) :: t.
Proof.
  simpl. destruct (runs r) as [|[d run] t]; [eauto|].
  destruct (Bool.eqb d (Js.isDigit c)) eqn:E; [|eauto].
  apply eqb_prop in E. subst. eauto.
Qed.

Lemma runs_block (d : bool) (u v : string) :
  u <> EmptyString -> uniform d u = true -> headClass v <> Some d ->
  runs (u ++ v) = (d, u) :: runs v.
Proof.
  induction u as [|c r IH]; [congruence|]. intros _ Hu Hv.
  simpl in Hu. apply andb_true_iff in Hu as [Hc Hr].
  apply eqb_prop in Hc.
  destruct r as [|c' r'].
  - simpl. destruct v as [|cv rv]; [simpl; now rewrite Hc|].
    destruct (runs_head cv rv) as (run & t & E). rewrite E.
    simpl in Hv. rewrite Hc.
    destruct (Bool.eqb (Js.isDigit cv) d) eqn:E'; [|reflexivity].
    apply eqb_prop in E'. congruence.
  - change ((String c (String c' r') ++ v)%string)
      with (String c (String c' r' ++ v)%string).
    cbn [runs]. rewrite IH by (congruence || assumption).
    now rewrite Hc, eqb_reflx.
Qed.

Lemma compareTokens_refl (ax : list Token) :
  sign (compareTokens localeCompare toNumber ax ax) = 0%Z.
Proof. apply (cmp3_refl _ compareTokens_Cmp3). Qed.

Lemma lex_common_prefix {A : Type} (c : A -> A -> Z) (l a b : list A) :
  (forall t, c t t = 0%Z) -> lex c (l ++ a) (l ++ b) = lex c a b.
Proof.
  intros H. induction l as [|t l IH]; simpl; [reflexivity|].
  rewrite H. simpl. exact IH.
Qed.

Lemma runs_nonempty (c : ascii) (r : string) : runs (String c r) <> [].
Proof. destruct (runs_head c r) as (run & t & ->). discriminate. Qed.

(** Where the class of the characters changes, the runs of a
    concatenation are the runs of its parts. *)
Lemma runs_app (a s : string) :
  a <> EmptyString -> s <> EmptyString -> lastClass a <> headClass s ->
  runs (a ++ s) = runs a ++ runs s.
Proof.
  intros Ha Hs. induction a as [|c r IH]; [congruence|]. intros Hb.
  destruct r as [|c' r'].
  - destruct s as [|cs rs]; [congruence|].
    change (("" ++ String cs rs)%string) with (String cs rs) in *.
    cbn [append]. change (String c "" ++ String cs rs)%string
      with (String c (String cs rs)).
    cbn [runs lastClass headClass] in *.
    destruct (runs_head cs rs) as (run & t & E).
    cbn [runs] in E. rewrite E.
    destruct (Bool.eqb (Js.isDigit cs) (Js.isDigit c)) eqn:Eb; [|reflexivity].
    apply eqb_prop in Eb. congruence.
  - assert (Hl : lastClass (String c (String c' r')) =
                 lastClass (String c' r')) by reflexivity.
    rewrite Hl in Hb.
    assert (Hr : runs (String c' r') <> []) by apply runs_nonempty.
    assert (Hn : String c' r' <> EmptyString) by discriminate.
    revert IH Hb Hr Hn. generalize (String c' r'). intros r IH Hb Hr Hn.
    change ((String c r ++ s)%string) with (String c (r ++ s)%string).
    cbn [runs]. rewrite (IH Hn Hb).
    destruct (runs r) as [|[d run] t]; [congruence|].
    cbn [app]. destruct (Bool.eqb d (Js.isDigit c)); reflexivity.
Qed.

(** The tokens of a name around a run of digits that stands between a
    prefix not ending in a digit and a rest not starting with one. *)
Lemma tokens_at_run (p x s : string) :
  lastClass p <> Some true ->
  uniform true x = true -> x <> EmptyString ->
  headClass s <> Some true ->
  tokens (p ++ x ++ s) = tokens p ++ (Digits x, EmptyString) :: tokens s.
Proof.
  intros Hp Hx Nx Hs. unfold tokens.
  assert (Hh : headClass (x ++ s) = Some true).
  { destruct x as [|cx rx]; [congruence|]. simpl in *.
    apply andb_true_iff in Hx as [Hx _]. apply eqb_prop in Hx.
    now rewrite Hx. }
  destruct p as [|c r].
  - simpl. now rewrite (runs_block true x s Nx Hx Hs).
  - rewrite runs_app.
    + now rewrite map_app, (runs_block true x s Nx Hx Hs).
    + discriminate.
    + destruct x; [congruence|discriminate].
    + rewrite Hh. destruct (lastClass (String c r)) as [[|]|];
        congruence.
Qed.

(** Two names that agree up to a run of digits: the two runs decide,
    unless they convert to the same number. *)
Lemma naturalSort_at_runs (p x y s t : string) :
  lastClass p <> Some true ->
  uniform true x = true -> x <> EmptyString ->
  uniform true y = true -> y <> EmptyString ->
  headClass s <> Some true -> headClass t <> Some true ->
  sign (naturalSort localeCompare toNumber (p ++ x ++ s) (p ++ y ++ t)) =
  match toNumber x, toNumber y with
  | Some a, Some b =>
      if (a - b =? 0)%Z
      then sign (compareTokens localeCompare toNumber (tokens s) (tokens t))
      else Z.sgn (a - b)
  | Some _, None => -1
  | None, Some _ => 1
  | None, None =>
      sign (compareTokens localeCompare toNumber (tokens s) (tokens t))
  end%Z.
Proof.
  intros Hp Hx Nx Hy Ny Hs Ht.
  assert (Hrefl : forall u, localeCompare u u = 0%Z).
  { intros u. pose proof (localeCompare_antisym u u).
    apply Z.sgn_null_iff. lia. }
  unfold naturalSort.
  rewrite (tokens_at_run p x s Hp Hx Nx Hs), (tokens_at_run p y t Hp Hy Ny Ht).
  rewrite compareTokens_lex, lex_common_prefix
    by apply (cmp3_refl _ tokenCompare_Cmp3).
  cbn [lex]. rewrite tokenCompare_sign. cbn [fst snd keyNumber].
  rewrite Hrefl, <- compareTokens_lex. cbn [Z.sgn].
  destruct (toNumber x) as [a|], (toNumber y) as [b|]; try reflexivity.
  destruct (Z.eqb_spec (a - b) 0) as [E|N]; [reflexivity|].
  destruct (Z.eqb_spec (Z.sgn (a - b)) 0); [lia|reflexivity].
Qed.

End NaturalSortOrder.

Lemma ordinalCompare_antisym (a b : string) :
  Z.sgn (ordinalCompare a b) = (- Z.sgn (ordinalCompare b a))%Z.
Proof.
  unfold ordinalCompare. rewrite (String.compare_antisym a b).
  destruct (String.compare b a); reflexivity.
Qed.

Lemma ordinalCompare_trans (a b c : string) :
  (ordinalCompare a b <= 0)%Z -> (ordinalCompare b c <= 0)%Z ->
  (ordinalCompare a c <= 0)%Z.
Proof.
  assert (Hrefl : forall s, String.compare s s = Eq).
  { intros s. pose proof (String.compare_antisym s s) as H.
    destruct (String.compare s s); simpl in H; congruence. }
  unfold ordinalCompare.
  destruct (String.compare a b) eqn:Eab; [| |lia];
    (destruct (String.compare b c) eqn:Ebc; [| |lia]); intros _ _.
  - apply String.compare_eq_iff in Eab. apply String.compare_eq_iff in Ebc.
    subst. rewrite Hrefl. lia.
  - apply String.compare_eq_iff in Eab. subst. rewrite Ebc. lia.
  - apply String.compare_eq_iff in Ebc. subst. rewrite Eab. lia.
  - assert (String.compare a c = Lt) as ->; [|lia].
    exact (@transitivity _ _ (@StrictOrder_Transitive _ _
             OrdersEx.String_as_OT.lt_strorder) a b c Eab Ebc).
Qed.

Lemma roundToDouble_exact (n : Z) :
  (n < 2 ^ 53)%Z -> Js.roundToDouble n = Some n.
Proof.
  intros H. unfold Js.roundToDouble.
  destruct (Z.ltb_spec n (2 ^ 53)); [reflexivity|lia].
Qed.

Section NaturalSortNumbers.

Variable localeCompare : string -> string -> Z.

Hypothesis localeCompare_antisym :
  forall a b, Z.sgn (localeCompare a b) = (- Z.sgn (localeCompare b a))%Z.

Hypothesis localeCompare_trans :
  forall a b c, (localeCompare a b <= 0)%Z -> (localeCompare b c <= 0)%Z ->
                (localeCompare a c <= 0)%Z.

(** C6 (amended). With a [localeCompare] that is antisymmetric and
    transitive, [naturalSort] is a total order up to order-equivalence:
    comparing a string with itself gives zero, swapping the arguments flips
    the sign, two strings that compare as zero compare alike with every
    third one, and the order is transitive.  Runs of digits compare by the
    double [Number] converts them to.  For two names that agree up to a run
    of digits, the integer values of the two runs decide when they differ
    and are below 2^53, whatever follows the runs, so ["file2.txt"] sorts
    before ["file10.txt"]; two runs that convert to the same double do not
    decide, and the names compare as equal when the rest is the same. *)
Theorem naturalSort_total_order :
  (forall a, sign (naturalSort localeCompare stringToNumber a a) = 0%Z) /\
  (forall a b, sign (naturalSort localeCompare stringToNumber a b) =
               (- sign (naturalSort localeCompare stringToNumber b a))%Z) /\
  (forall a b, sign (naturalSort localeCompare stringToNumber a b) = 0%Z ->
     forall c, sign (naturalSort localeCompare stringToNumber a c) =
               sign (naturalSort localeCompare stringToNumber b c)) /\
  (forall a b c,
     (sign (naturalSort localeCompare stringToNumber a b) <= 0)%Z ->
     (sign (naturalSort localeCompare stringToNumber b c) <= 0)%Z ->
     (sign (naturalSort localeCompare stringToNumber a c) <= 0)%Z) /\
  (forall p x y s t,
     lastClass p <> Some true ->
     uniform true x = true -> x <> EmptyString ->
     uniform true y = true -> y <> EmptyString ->
     headClass s <> Some true -> headClass t <> Some true ->
     (decimalValue x < 2 ^ 53)%Z -> (decimalValue y < 2 ^ 53)%Z ->
     decimalValue x <> decimalValue y ->
     sign (naturalSort localeCompare stringToNumber (p ++ x ++ s) (p ++ y ++ t))
     = Z.sgn (decimalValue x - decimalValue y)) /\
  (forall p x y s,
     lastClass p <> Some true ->
     uniform true x = true -> x <> EmptyString ->
     uniform true y = true -> y <> EmptyString ->
     headClass s <> Some true ->
     stringToNumber x = stringToNumber y ->
     sign (naturalSort localeCompare stringToNumber (p ++ x ++ s) (p ++ y ++ s))
     = 0%Z) /\
  (sign (naturalSort localeCompare stringToNumber "file2.txt" "file10.txt")
   < 0)%Z.
Proof.
  pose proof (compareTokens_Cmp3 localeCompare stringToNumber
                localeCompare_antisym localeCompare_trans) as H3.
  assert (Hnum : forall p x y s t,
     lastClass p <> Some true ->
     uniform true x = true -> x <> EmptyString ->
     uniform true y = true -> y <> EmptyString ->
     headClass s <> Some true -> headClass t <> Some true ->
     (decimalValue x < 2 ^ 53)%Z -> (decimalValue y < 2 ^ 53)%Z ->
     decimalValue x <> decimalValue y ->
     sign (naturalSort localeCompare stringToNumber (p ++ x ++ s) (p ++ y ++ t))
     = Z.sgn (decimalValue x - decimalValue y)).
  { intros p x y s t Hp Hx Nx Hy Ny Hs Ht Bx By Hd.
    rewrite (naturalSort_at_runs localeCompare stringToNumber
               localeCompare_antisym localeCompare_trans) by assumption.
    unfold stringToNumber.
    rewrite (roundToDouble_exact _ Bx), (roundToDouble_exact _ By).
    destruct (Z.eqb_spec (decimalValue x - decimalValue y) 0); [lia|].
    reflexivity. }
  split; [|split; [|split; [|split; [|split; [|split]]]]].
  - intros a. apply (cmp3_refl _ H3).
  - intros a b. apply (proj1 H3).
  - intros a b E c. apply (cmp3_eq_compat _ H3 _ _ _ E).
  - intros a b c. apply (proj2 (proj2 H3)).
  - exact Hnum.
  - intros p x y s Hp Hx Nx Hy Ny Hs E.
    rewrite (naturalSort_at_runs localeCompare stringToNumber
               localeCompare_antisym localeCompare_trans) by assumption.
    rewrite E.
    pose proof (cmp3_refl _ H3 (tokens s)) as Hs0.
    destruct (stringToNumber y) as [b|]; [|exact Hs0].
    now rewrite Z.sub_diag.
  - change "file2.txt" with ("file" ++ "2" ++ ".txt")%string.
    change "file10.txt" with ("file" ++ "10" ++ ".txt")%string.
    rewrite Hnum; try reflexivity; try discriminate.
Qed.

End NaturalSortNumbers.

(** C6, as the specification states it, fails on long runs: the integers
    9007199254740993 and 9007199254740992 differ, and both convert to the
    double 2^53, so the two names compare as equal. *)
Lemma large_runs_compare_equal :
  decimalValue "9007199254740993" <> decimalValue "9007199254740992" /\
  stringToNumber "9007199254740993" = stringToNumber "9007199254740992" /\
  naturalSort ordinalCompare stringToNumber
    "9007199254740993" "9007199254740992" = Fin 0 /\
  ~ (sign (naturalSort ordinalCompare stringToNumber
             "scan9007199254740992.png" "scan9007199254740993.png") < 0)%Z.
Proof.
  split; [vm_compute; discriminate|].
  split; [vm_compute; reflexivity|].
  split; [vm_compute; reflexivity|].
  vm_compute. discriminate.
Qed.

Lemma naturalSort_total_order_witness :
  sign (naturalSort ordinalCompare stringToNumber "a" "a") = 0%Z /\
  (sign (naturalSort ordinalCompare stringToNumber "file2.txt" "file10.txt")
   < 0)%Z.
Proof.
  pose proof (naturalSort_total_order ordinalCompare
                ordinalCompare_antisym ordinalCompare_trans)
    as (Hrefl & _ & _ & _ & _ & _ & Hex).
  split; [apply Hrefl|exact Hex].
Defined.

(** ** Word wrapping *)

Lemma pieces_nonempty (ws : ascii -> bool) (s : string) : pieces ws s <> [].
Proof.
  destruct s as [|c r]; simpl; [discriminate|].
  destruct (ws c); [discriminate|].
  destruct (pieces ws r); discriminate.
Qed.

Lemma pieces_split (ws : ascii -> bool) (sep : ascii) (s : string) :
  ws sep = true ->
  pieces ws s = List.concat (map (pieces ws) (Js.split sep s)).
Proof.
  intros Hsep. induction s as [|c r IH]; [reflexivity|].
  simpl. destruct (Ascii.eqb_spec c sep) as [->|Hne].
  - rewrite Hsep. simpl. now rewrite IH.
  - destruct (Js.split sep r) as [|h t] eqn:Es.
    + simpl in IH. exfalso. now apply (pieces_nonempty ws r).
    + simpl in *. destruct (ws c).
      * now rewrite IH.
      * rewrite IH. destruct (pieces ws h) eqn:Eh; [|reflexivity].
        exfalso. now apply (pieces_nonempty ws h).
Qed.

Lemma filter_concat {A : Type} (f : A -> bool) (ls : list (list A)) :
  filter f (List.concat ls) = List.concat (map (filter f) ls).
Proof.
  induction ls as [|l ls IH]; [reflexivity|].
  simpl. now rewrite filter_app, IH.
Qed.

Lemma words_split (ws : ascii -> bool) (sep : ascii) (s : string) :
  ws sep = true ->
  words ws s = List.concat (map (words ws) (Js.split sep s)).
Proof.
  intros Hsep. unfold words. rewrite (pieces_split ws sep s Hsep).
  now rewrite filter_concat, map_map.
Qed.

Lemma pieces_app (ws : ascii -> bool) (a b : string) (c : ascii) :
  ws c = true ->
  pieces ws (a ++ String c b) = pieces ws a ++ pieces ws b.
Proof.
  intros Hc. induction a as [|x r IH]; simpl.
  - now rewrite Hc.
  - rewrite IH. destruct (ws x); [reflexivity|].
    destruct (pieces ws r) eqn:Er; [|reflexivity].
    exfalso. now apply (pieces_nonempty ws r).
Qed.

Lemma words_app (ws : ascii -> bool) (a b : string) (c : ascii) :
  ws c = true ->
  words ws (a ++ String c b) = words ws a ++ words ws b.
Proof.
  intros Hc. unfold words. now rewrite (pieces_app ws a b c Hc), filter_app.
Qed.

Lemma words_empty (ws : ascii -> bool) : words ws EmptyString = [].
Proof. reflexivity. Qed.

Lemma truthy_false (s : string) : Js.truthy s = false -> s = EmptyString.
Proof. now destruct s. Qed.

Lemma split_no_sep (sep : ascii) (s : string) :
  hasChar sep s = false -> Js.split sep s = [s].
Proof.
  induction s as [|c r IH]; [reflexivity|]. simpl.
  intros H. apply orb_false_iff in H as [Hc Hr].
  rewrite Hc, (IH Hr). reflexivity.
Qed.

Lemma split_pieces_no_sep (sep : ascii) (s : string) :
  Forall (fun p => hasChar sep p = false) (Js.split sep s).
Proof.
  induction s as [|c r IH]; simpl.
  - repeat constructor.
  - destruct (Ascii.eqb c sep) eqn:Ec.
    + constructor; [reflexivity|exact IH].
    + destruct (Js.split sep r) as [|h t]; [repeat constructor; simpl; now rewrite Ec|].
      inversion IH as [|? ? Hh Ht]; subst.
      constructor; [simpl; now rewrite Ec, Hh|exact Ht].
Qed.

Section Overflow.

Variable E : Env.

Lemma wrapWords_overflow (ww : list string) (current : string)
  (ls : list string) (cur : string) :
  Forall (fun p => hasChar " " p = false) ww ->
  overflowsAlone E current ->
  wrapWords E ww current = Ok (ls, cur) ->
  Forall (overflowsAlone E) ls /\ overflowsAlone E cur.
Proof.
  intros Hww. revert current ls cur.
  induction Hww as [|word rest Hword _ IH]; intros current ls cur Hcur;
    cbn [wrapWords].
  - intros [= <- <-]. split; [constructor|exact Hcur].
  - set (test := if Js.truthy current
                 then (current ++ " " ++ word)%string else word).
    destruct (widthOfTextAtSize E test fontSize) as [w|msg] eqn:Ew;
      cbn [bindRes]; [|discriminate].
    destruct (Qgtb w maxWidth && Js.truthy current) eqn:Eb.
    + destruct (wrapWords E rest word) as [[ls' cur']|msg] eqn:Er;
        cbn [bindRes]; [|discriminate].
      intros [= <- <-]. cbn [fst snd].
      destruct (IH word ls' cur') as [H1 H2]; [|exact Er|].
      * intros ? _ _. exact Hword.
      * split; [constructor; assumption|exact H2].
    + apply IH. intros w' Ew' Hgt.
      rewrite Ew in Ew'. injection Ew' as <-. rewrite Hgt in Eb.
      simpl in Eb. unfold test. rewrite Eb. exact Hword.
Qed.

Lemma wrapLine_overflow (line : string) (ls : list string) :
  wrapLine E line = Ok ls -> Forall (overflowsAlone E) ls.
Proof.
  unfold wrapLine. destruct (Js.truthy line); simpl.
  - destruct (wrapWords E (Js.split " " line) "") as [[l cur]|msg] eqn:Er;
      simpl; [|discriminate].
    intros [= <-].
    assert (Hnil : overflowsAlone E "") by (intros ? _ _; reflexivity).
    destruct (wrapWords_overflow _ _ _ _ (split_pieces_no_sep " " line)
                Hnil Er) as [H1 H2].
    apply Forall_app. split; [exact H1|].
    destruct (Js.truthy cur); [|constructor].
    constructor; [exact H2|constructor].
  - intros [= <-]. constructor; [intros ? _ _; reflexivity|constructor].
Qed.

Lemma wrapText_overflow (txt : string) (ls : list string) :
  wrapText E txt = Ok ls -> Forall (overflowsAlone E) ls.
Proof.
  unfold wrapText. generalize (Js.split "010" txt). intros lines. revert ls.
  induction lines as [|line rest IH]; intros ls; simpl.
  - intros [= <-]. constructor.
  - destruct (wrapLine E line) as [l|msg] eqn:El; simpl; [|discriminate].
    destruct (wrapLines E rest) as [more|msg] eqn:Er; simpl; [|discriminate].
    intros [= <-]. apply Forall_app. split.
    + now apply wrapLine_overflow with (line := line).
    + now apply IH.
Qed.

End Overflow.

Section Wrapping.

Variable E : Env.
Variable ws : ascii -> bool.
Hypothesis ws_space : ws " " = true.
Hypothesis ws_newline : ws "010" = true.

(** What the loop over the words of a line keeps: the lines pushed and
    [current] hold the words seen so far, in order. *)
Lemma wrapWords_words (ww : list string) (current : string)
  (ls : list string) (cur : string) :
  wrapWords E ww current = Ok (ls, cur) ->
  List.concat (map (words ws) ls) ++ words ws cur =
  words ws current ++ List.concat (map (words ws) ww).
Proof.
  revert current ls cur.
  induction ww as [|word rest IH]; intros current ls cur; cbn [wrapWords].
  - intros [= <- <-]. simpl. now rewrite app_nil_r.
  - set (test := if Js.truthy current
                 then (current ++ " " ++ word)%string else word).
    assert (Htest : words ws test = words ws current ++ words ws word).
    { unfold test. destruct (Js.truthy current) eqn:Ec.
      - apply (words_app ws current word " " ws_space).
      - now rewrite (truthy_false _ Ec). }
    destruct (widthOfTextAtSize E test fontSize) as [w|msg]; cbn [bindRes];
      [|discriminate].
    destruct (Qgtb w maxWidth && Js.truthy current).
    + destruct (wrapWords E rest word) as [[ls' cur']|msg] eqn:Er;
        cbn [bindRes]; [|discriminate].
      intros [= <- <-]. cbn [map List.concat fst snd].
      rewrite <- app_assoc, (IH _ _ _ Er). reflexivity.
    + intros H. cbn [map List.concat].
      rewrite (IH _ _ _ H), Htest, app_assoc. reflexivity.
Qed.

Lemma wrapLine_words (line : string) (ls : list string) :
  wrapLine E line = Ok ls -> List.concat (map (words ws) ls) = words ws line.
Proof.
  unfold wrapLine. destruct (Js.truthy line) eqn:El; simpl.
  - destruct (wrapWords E (Js.split " " line) "") as [[l cur]|msg] eqn:Er;
      simpl; [|discriminate].
    intros [= <-]. apply wrapWords_words in Er. simpl in Er.
    rewrite map_app, concat_app, (words_split ws " " line ws_space), <- Er.
    f_equal. destruct (Js.truthy cur) eqn:Ec; simpl.
    + now rewrite app_nil_r.
    + now rewrite (truthy_false _ Ec).
  - intros [= <-]. now rewrite (truthy_false _ El).
Qed.

Lemma wrapLines_words (lines ls : list string) :
  wrapLines E lines = Ok ls ->
  List.concat (map (words ws) ls) = List.concat (map (words ws) lines).
Proof.
  revert ls. induction lines as [|line rest IH]; intros ls; simpl.
  - now intros [= <-].
  - destruct (wrapLine E line) as [l|msg] eqn:El; simpl; [|discriminate].
    destruct (wrapLines E rest) as [more|msg] eqn:Er; simpl; [|discriminate].
    intros [= <-].
    rewrite map_app, concat_app, (wrapLine_words _ _ El), (IH _ eq_refl).
    reflexivity.
Qed.

Lemma wrapText_words (txt : string) (ls : list string) :
  wrapText E txt = Ok ls -> List.concat (map (words ws) ls) = words ws txt.
Proof.
  unfold wrapText. intros H.
  rewrite (wrapLines_words _ _ H).
  symmetry. apply (words_split ws "010" txt ws_newline).
Qed.

End Wrapping.

(** ** What wrapping measures *)

Lemma hasChar_app (c : ascii) (a b : string) :
  hasChar c (a ++ b) = hasChar c a || hasChar c b.
Proof.
  induction a as [|x r IH]; [reflexivity|].
  simpl. now rewrite IH, orb_assoc.
Qed.

Lemma madeOf_refl (txt : string) : madeOf txt txt.
Proof. intros c H. exact H. Qed.

Lemma madeOf_empty (txt : string) : madeOf txt EmptyString.
Proof. intros c H. discriminate. Qed.

Lemma madeOf_trans (txt line s : string) :
  madeOf txt line -> madeOf line s -> madeOf txt s.
Proof. intros H1 H2 c H. apply H1, H2, H. Qed.

Lemma madeOf_app (txt a b : string) :
  madeOf txt a -> madeOf txt b -> madeOf txt (a ++ b).
Proof.
  intros Ha Hb c H. rewrite hasChar_app in H.
  apply orb_true_iff in H as [H|H]; [now apply Ha|now apply Hb].
Qed.

Lemma madeOf_char (txt : string) (c : ascii) :
  hasChar c txt = true -> madeOf txt (String c EmptyString).
Proof.
  intros H d Hd. simpl in Hd. rewrite orb_false_r in Hd.
  apply Ascii.eqb_eq in Hd. now subst.
Qed.

Lemma madeOf_tail (txt : string) (c : ascii) (s : string) :
  madeOf txt s -> madeOf (String c txt) s.
Proof. intros H d Hd. simpl. rewrite (H d Hd). apply orb_true_r. Qed.

Lemma madeOf_cons (txt : string) (c : ascii) (s : string) :
  madeOf txt s -> madeOf (String c txt) (String c s).
Proof.
  intros H d Hd. simpl in *. apply orb_true_iff in Hd as [Hd|Hd].
  - now rewrite Hd.
  - rewrite (H d Hd). apply orb_true_r.
Qed.

(** The pieces of a split are made of the characters of the string, and
    there are two or more of them only when the separator occurs. *)
Lemma split_madeOf (sep : ascii) (s : string) :
  Forall (madeOf s) (Js.split sep s) /\
  ((2 <= List.length (Js.split sep s))%nat -> hasChar sep s = true).
Proof.
  induction s as [|c r [IH1 IH2]]; simpl.
  - split; [constructor; [apply madeOf_empty|constructor]|lia].
  - destruct (Ascii.eqb_spec c sep) as [->|Hne].
    + split; [|intros _; reflexivity].
      constructor; [apply madeOf_empty|].
      eapply Forall_impl; [|exact IH1]. intros a. apply madeOf_tail.
    + destruct (Js.split sep r) as [|h t] eqn:Es.
      * split; [|simpl; lia].
        constructor; [|constructor]. apply madeOf_cons, madeOf_empty.
      * inversion IH1 as [|? ? Hh Ht]; subst. split.
        -- constructor; [now apply madeOf_cons|].
           eapply Forall_impl; [|exact Ht]. intros a. apply madeOf_tail.
        -- intros Hlen. rewrite (IH2 Hlen). apply orb_true_r.
Qed.

Section Measuring.

Variable E : Env.

(** An exception of the loop over the words is an exception of the font,
    on a string made of the characters of the line. *)
Lemma wrapWords_throw (line : string) (ww : list string) (current msg : string) :
  Forall (madeOf line) ww -> madeOf line current ->
  (ww <> [] -> Js.truthy current = true -> hasChar " " line = true) ->
  ((2 <= List.length ww)%nat -> hasChar " " line = true) ->
  wrapWords E ww current = Throw msg ->
  exists s, madeOf line s /\ widthOfTextAtSize E s fontSize = Throw msg.
Proof.
  intros Hww. revert current.
  induction Hww as [|word rest Hword Hrest IH]; intros current Hcur H1 H2;
    cbn [wrapWords]; [discriminate|].
  set (test := if Js.truthy current
               then (current ++ " " ++ word)%string else word).
  assert (Htest : madeOf line test).
  { unfold test. destruct (Js.truthy current) eqn:Ec; [|exact Hword].
    apply madeOf_app; [exact Hcur|].
    apply (madeOf_app line " " word); [|exact Hword].
    apply madeOf_char, H1; [discriminate|reflexivity]. }
  assert (Hnext : forall cur', madeOf line cur' ->
            wrapWords E rest cur' = Throw msg ->
            exists s, madeOf line s /\
                      widthOfTextAtSize E s fontSize = Throw msg).
  { intros cur' Hc'. apply IH; [exact Hc'| |].
    - intros Hne _. apply H2. destruct rest; [congruence|simpl; lia].
    - intros Hlen. apply H2. simpl. lia. }
  destruct (widthOfTextAtSize E test fontSize) as [w|m] eqn:Ew;
    cbn [bindRes].
  - destruct (Qgtb w maxWidth && Js.truthy current).
    + destruct (wrapWords E rest word) as [r|m] eqn:Er; cbn [bindRes];
        [discriminate|].
      intros [= <-]. now apply (Hnext word).
    + now apply Hnext.
  - intros [= <-]. exists test. split; [exact Htest|exact Ew].
Qed.

Lemma wrapLine_throw (line msg : string) :
  wrapLine E line = Throw msg ->
  exists s, madeOf line s /\ widthOfTextAtSize E s fontSize = Throw msg.
Proof.
  unfold wrapLine. destruct (Js.truthy line); simpl; [|discriminate].
  destruct (wrapWords E (Js.split " " line) "") as [r|m] eqn:Er; simpl;
    [discriminate|].
  intros [= <-]. destruct (split_madeOf " " line) as [Hall Hsp].
  apply (wrapWords_throw line _ _ _ Hall (madeOf_empty line)); auto.
  intros _ Ht. discriminate.
Qed.

Lemma wrapLines_throw (txt : string) (lines : list string) (msg : string) :
  Forall (madeOf txt) lines ->
  wrapLines E lines = Throw msg ->
  exists s, madeOf txt s /\ widthOfTextAtSize E s fontSize = Throw msg.
Proof.
  induction 1 as [|line rest Hline _ IH]; simpl; [discriminate|].
  destruct (wrapLine E line) as [ls|m] eqn:El; simpl.
  - destruct (wrapLines E rest) as [more|m]; simpl; [discriminate|].
    intros [= <-]. now apply IH.
  - intros [= <-]. destruct (wrapLine_throw _ _ El) as (s & Hs & Hw).
    exists s. split; [|exact Hw]. now apply (madeOf_trans txt line).
Qed.

Lemma wrapText_throw (txt msg : string) :
  wrapText E txt = Throw msg ->
  exists s, madeOf txt s /\ widthOfTextAtSize E s fontSize = Throw msg.
Proof. apply wrapLines_throw, split_madeOf. Qed.

(** Wrapping returns when the font measures what it is given. *)
Lemma wrapText_returns (txt : string) :
  (forall s, madeOf txt s -> exists w, widthOfTextAtSize E s fontSize = Ok w) ->
  exists ls, wrapText E txt = Ok ls.
Proof.
  intros Hfont. destruct (wrapText E txt) as [ls|msg] eqn:Ew; [eauto|].
  destruct (wrapText_throw _ _ Ew) as (s & Hs & Hthrow).
  destruct (Hfont s Hs) as [w Hw]. congruence.
Qed.

(** A text that is one word comes out as one line, whatever its width. *)
Lemma wrapText_single_word (word : string) (w : Q) :
  word <> EmptyString ->
  hasChar " " word = false -> hasChar "010" word = false ->
  widthOfTextAtSize E word fontSize = Ok w ->
  wrapText E word = Ok [word].
Proof.
  intros Hne Hsp Hnl Hw. unfold wrapText. rewrite (split_no_sep _ _ Hnl).
  simpl. unfold wrapLine.
  destruct word as [|c r] eqn:Ew; [congruence|]. rewrite <- Ew in *.
  replace (Js.truthy word) with true by now subst.
  simpl. rewrite (split_no_sep _ _ Hsp). simpl.
  rewrite Hw. simpl.
  rewrite andb_false_r. simpl.
  replace (Js.truthy word) with true by now subst.
  reflexivity.
Qed.

End Measuring.

Section WrappingClaim.

Variable E : Env.
Variable ws : ascii -> bool.
Hypothesis ws_space : ws " " = true.
Hypothesis ws_newline : ws "010" = true.

(** C7 (amended). Word wrapping drops no content, and the only exception
    it throws is one of the font, on a string made of characters of the
    text: it returns for every text whose strings the font measures.  When
    it returns, the words of the wrapped lines, in order, are the words of
    the text, and a line wider than the column holds no space, so it is one
    word left whole; a text that is one word the font measures, however
    wide, is one line. *)
Theorem wrapText_keeps_words :
  (forall txt ls, wrapText E txt = Ok ls ->
      List.concat (map (words ws) ls) = words ws txt /\
      Forall (overflowsAlone E) ls) /\
  (forall txt msg, wrapText E txt = Throw msg ->
      exists s, madeOf txt s /\
                widthOfTextAtSize E s fontSize = Throw msg) /\
  (forall txt,
      (forall s, madeOf txt s ->
                 exists w, widthOfTextAtSize E s fontSize = Ok w) ->
      exists ls, wrapText E txt = Ok ls) /\
  (forall word w, word <> EmptyString ->
      hasChar " " word = false -> hasChar "010" word = false ->
      widthOfTextAtSize E word fontSize = Ok w ->
      wrapText E word = Ok [word]).
Proof.
  split; [|split; [|split]].
  - intros txt ls H. split.
    + now apply (wrapText_words E ws ws_space ws_newline).
    + now apply wrapText_overflow with (txt := txt).
  - apply wrapText_throw.
  - apply wrapText_returns.
  - apply wrapText_single_word.
Qed.

End WrappingClaim.

(** ** Pagination *)

Lemma maxLines_value (title : option string) :
  maxLines title = if titleTruthy title then 43%Z else 46%Z.
Proof. unfold maxLines. destruct (titleTruthy title); reflexivity. Qed.

Lemma slice_chain {A : Type} (l : list A) (i n : nat) :
  slice l i n ++ skipn (i + n) l = skipn i l.
Proof.
  unfold slice. rewrite (Nat.add_comm i n), <- skipn_skipn.
  apply firstn_skipn.
Qed.

Section PageLoop.

Variable E : Env.

Lemma drawLines_ok (pageLines0 : list string) (y : Q) (ops ops' : list DrawOp)
  (u : unit) :
  drawLines E pageLines0 y ops = (Ok u, ops') ->
  flat_map opLine ops' = flat_map opLine ops ++ pageLines0 /\
  flat_map opTitle ops' = flat_map opTitle ops.
Proof.
  revert y ops. induction pageLines0 as [|line rest IH]; intros y ops; simpl.
  - intros [= _ <-]. now rewrite app_nil_r.
  - destruct (canDraw E false line); [|discriminate].
    intros H. apply IH in H as [H1 H2].
    rewrite H1, H2, !flat_map_app. simpl.
    rewrite <- app_assoc, app_nil_r. split; reflexivity.
Qed.

Lemma renderPage_ok (i : nat) (title : option string) (pl : list string)
  (u : unit) (p : Page) :
  renderPage E i title pl = (Ok u, p) ->
  pageLines p = pl /\ pageTitles p = titleAt i title /\ isLetter p.
Proof.
  unfold renderPage, titleAt, titleTruthy.
  destruct title as [t|]; [destruct ((i =? 0)%nat && Js.truthy t) eqn:Ec|].
  - destruct (canDraw E true t); [|discriminate].
    destruct (drawLines E pl _ _) as [r ops'] eqn:Ed. simpl.
    intros [= -> <-]. apply drawLines_ok in Ed as [H1 H2].
    simpl. rewrite H1, H2. repeat split. now exists ops'.
  - destruct (drawLines E pl _ _) as [r ops'] eqn:Ed. simpl.
    intros [= -> <-]. apply drawLines_ok in Ed as [H1 H2].
    simpl. rewrite H1, H2. repeat split. now exists ops'.
  - rewrite andb_false_r.
    destruct (drawLines E pl _ _) as [r ops'] eqn:Ed. simpl.
    intros [= -> <-]. apply drawLines_ok in Ed as [H1 H2].
    simpl. rewrite H1, H2. repeat split. now exists ops'.
Qed.

(** Past the last wrapped line the loop appends nothing. *)
Lemma pageLoop_past_end (wl : list string) (n : nat) (title : option string)
  (i : nat) (doc : Doc) :
  (List.length wl <= i)%nat ->
  exists pages,
    doc = doc ++ pages /\
    List.concat (map pageLines pages) = skipn i wl /\
    forall j p, nth_error pages j = Some p ->
      pageLines p = slice wl (i + j * n) n /\
      (i + j * n < List.length wl)%nat /\
      pageTitles p = titleAt (i + j * n) title /\
      isLetter p.
Proof.
  intros Hge. exists []. rewrite app_nil_r.
  split; [reflexivity|]. split.
  - simpl. symmetry. now apply skipn_all2.
  - intros [|j] p; discriminate.
Qed.

(** What a finished run of the page loop appended. *)
Lemma pageLoop_ok (wl : list string) (n : nat) (title : option string)
  (fuel i : nat) (doc doc' : Doc) (u : unit) :
  pageLoop E fuel wl n title i doc = (Ok u, doc') ->
  exists pages,
    doc' = doc ++ pages /\
    List.concat (map pageLines pages) = skipn i wl /\
    forall j p, nth_error pages j = Some p ->
      pageLines p = slice wl (i + j * n) n /\
      (i + j * n < List.length wl)%nat /\
      pageTitles p = titleAt (i + j * n) title /\
      isLetter p.
Proof.
  revert i doc. induction fuel as [|fuel IH]; intros i doc; simpl.
  - destruct (Nat.ltb_spec i (List.length wl)); [discriminate|].
    intros [= _ <-]. now apply pageLoop_past_end.
  - destruct (Nat.ltb_spec i (List.length wl)) as [Hlt|Hge].
    + destruct (renderPage E i title (slice wl i n)) as [r p0] eqn:Er.
      simpl. destruct r as [u0|msg]; [|discriminate].
      intros H. apply IH in H as (pages & -> & Hc & Hj).
      apply renderPage_ok in Er as (Hl & Ht & Hs).
      exists (p0 :: pages). rewrite <- app_assoc.
      split; [reflexivity|]. split.
      * simpl. rewrite Hl, Hc. apply slice_chain.
      * intros [|j] p; simpl.
        -- intros [= <-]. now rewrite Nat.add_0_r.
        -- intros Hn. destruct (Hj j p Hn) as (A1 & A2 & A3 & A4).
           replace (i + (n + j * n))%nat with (i + n + j * n)%nat by lia.
           auto.
    + intros [= _ <-]. now apply pageLoop_past_end.
Qed.

Lemma Forall_slice {A : Type} (P : A -> Prop) (l : list A) (i n : nat) :
  Forall P l -> Forall P (slice l i n).
Proof.
  intros H. unfold slice.
  rewrite <- (firstn_skipn i l) in H. apply Forall_app in H as [_ H].
  rewrite <- (firstn_skipn n (skipn i l)) in H.
  now apply Forall_app in H as [H _].
Qed.

(** When the lines can be drawn, the loop finishes within its fuel. *)
Lemma drawLines_returns (pl : list string) (y : Q) (ops : list DrawOp) :
  Forall (fun line => canDraw E false line = Ok tt) pl ->
  exists ops', drawLines E pl y ops = (Ok tt, ops').
Proof.
  intros H. revert y ops. induction H as [|line rest Hl _ IH]; intros y ops;
    simpl.
  - eauto.
  - rewrite Hl. apply IH.
Qed.

Lemma renderPage_returns (i : nat) (title : option string) (pl : list string) :
  (forall t, title = Some t -> Js.truthy t = true -> canDraw E true t = Ok tt) ->
  Forall (fun line => canDraw E false line = Ok tt) pl ->
  exists p, renderPage E i title pl = (Ok tt, p).
Proof.
  intros Ht Hl. unfold renderPage, titleTruthy.
  destruct title as [t|].
  - destruct ((i =? 0)%nat && Js.truthy t) eqn:Ec.
    + apply andb_true_iff in Ec as [_ Ec]. rewrite (Ht t eq_refl Ec).
      destruct (drawLines_returns pl (pageHeight - margin - 40)
                  [DrawText t margin (pageHeight - margin - 14) 14 true] Hl)
        as [ops' ->]. simpl. eauto.
    + destruct (drawLines_returns pl (pageHeight - margin) [] Hl)
        as [ops' ->]. simpl. eauto.
  - rewrite andb_false_r.
    destruct (drawLines_returns pl (pageHeight - margin) [] Hl) as [ops' ->].
    simpl. eauto.
Qed.

Lemma pageLoop_returns (wl : list string) (n : nat) (title : option string)
  (fuel i : nat) (doc : Doc) :
  (forall t, title = Some t -> Js.truthy t = true -> canDraw E true t = Ok tt) ->
  Forall (fun line => canDraw E false line = Ok tt) wl ->
  (0 < n)%nat -> (List.length wl - i <= fuel)%nat ->
  exists doc', pageLoop E fuel wl n title i doc = (Ok tt, doc').
Proof.
  intros Ht Hl Hn. revert i doc. induction fuel as [|fuel IH]; intros i doc Hf;
    simpl.
  - destruct (Nat.ltb_spec i (List.length wl)); [lia|eauto].
  - destruct (Nat.ltb_spec i (List.length wl)); [|eauto].
    destruct (renderPage_returns i title (slice wl i n) Ht
                (Forall_slice _ wl i n Hl)) as [p ->]. simpl.
    apply IH. lia.
Qed.

End PageLoop.

Section TextPages.

Variable E : Env.

Lemma textToPdfPages_ok (txt : string) (title : option string)
  (doc doc' : Doc) (u : unit) :
  textToPdfPages E txt title doc = (Ok u, doc') ->
  exists wrapped pages,
    wrapText E txt = Ok wrapped /\
    doc' = doc ++ pages /\
    List.concat (map pageLines pages) = wrapped /\
    forall j p, nth_error pages j = Some p ->
      let n := Z.to_nat (maxLines title) in
      pageLines p = slice wrapped (j * n) n /\
      (j * n < List.length wrapped)%nat /\
      pageTitles p = titleAt (j * n) title /\
      isLetter p.
Proof.
  unfold textToPdfPages, bind, lift.
  destruct (wrapText E txt) as [wrapped|msg]; [|discriminate].
  intros H. apply pageLoop_ok in H as (pages & -> & Hc & Hj).
  exists wrapped, pages. repeat split; try assumption; apply (Hj j p H).
Qed.

Lemma titleAt_first (k n : nat) (title : option string) :
  (0 < n)%nat ->
  titleAt (k * n) title = if (k =? 0)%nat then titleAt 0 title else [].
Proof.
  intros Hn. unfold titleAt. destruct title as [t|].
  - destruct k as [|k]; [reflexivity|].
    replace ((S k * n =? 0)%nat) with false; [reflexivity|].
    symmetry. apply Nat.eqb_neq. simpl. lia.
  - now destruct (k =? 0)%nat.
Qed.

Lemma slice_length {A : Type} (l : list A) (i n : nat) :
  List.length (slice l i n) = Nat.min n (List.length l - i).
Proof. unfold slice. now rewrite length_firstn, length_skipn. Qed.

(** The call returns when the font measures the text and draws the title
    and the wrapped lines. *)
Lemma textToPdfPages_returns (txt : string) (title : option string)
  (doc : Doc) (wrapped : list string) :
  wrapText E txt = Ok wrapped ->
  (forall t, title = Some t -> Js.truthy t = true -> canDraw E true t = Ok tt) ->
  Forall (fun line => canDraw E false line = Ok tt) wrapped ->
  exists pages, textToPdfPages E txt title doc = (Ok tt, doc ++ pages).
Proof.
  intros Hw Ht Hl.
  assert (Hrun : exists doc', textToPdfPages E txt title doc = (Ok tt, doc')).
  { unfold textToPdfPages, bind, lift. rewrite Hw.
    apply pageLoop_returns; [assumption|assumption| |lia].
    rewrite maxLines_value. destruct (titleTruthy title); simpl; lia. }
  destruct Hrun as [doc' Hrun].
  destruct (textToPdfPages_ok _ _ _ _ _ Hrun) as (w' & pages & _ & -> & _).
  now exists pages.
Qed.

(** C9 (amended). [maxLines] is computed once for the call, 43 when a
    title is supplied and 46 when none is, and every page is cut with it.
    Whenever the call returns, its pages hold the wrapped lines of the text
    in order, [maxLines] on every page but the last, on the first page and
    on every later page alike, and the title is drawn on the first page and
    on no other.  The call returns when the font measures the text and
    draws the title and every wrapped line. *)
Theorem textToPdfPages_title_capacity (txt : string) (title : option string)
  (doc : Doc) :
  maxLines title = (if titleTruthy title then 43 else 46)%Z /\
  (forall doc' u,
     textToPdfPages E txt title doc = (Ok u, doc') ->
     exists wrapped pages,
       wrapText E txt = Ok wrapped /\
       doc' = doc ++ pages /\
       List.concat (map pageLines pages) = wrapped /\
       forall k p, nth_error pages k = Some p ->
         let n := Z.to_nat (maxLines title) in
         pageLines p = slice wrapped (k * n) n /\
         (1 <= List.length (pageLines p) <= n)%nat /\
         ((S k < List.length pages)%nat -> List.length (pageLines p) = n) /\
         pageTitles p = (if (k =? 0)%nat then titleAt 0 title else [])) /\
  (forall wrapped,
     wrapText E txt = Ok wrapped ->
     (forall t, title = Some t -> Js.truthy t = true ->
                canDraw E true t = Ok tt) ->
     Forall (fun line => canDraw E false line = Ok tt) wrapped ->
     exists pages, textToPdfPages E txt title doc = (Ok tt, doc ++ pages)).
Proof.
  split; [apply maxLines_value|]. split.
  - intros doc' u Hrun.
    destruct (textToPdfPages_ok _ _ _ _ _ Hrun)
      as (wrapped & pages & Hw & -> & Hc & Hj).
    exists wrapped, pages.
    assert (Hn : (0 < Z.to_nat (maxLines title))%nat).
    { rewrite maxLines_value. destruct (titleTruthy title); simpl; lia. }
    split; [exact Hw|]. split; [reflexivity|]. split; [exact Hc|].
    intros k p Hk. cbv zeta.
    destruct (Hj k p Hk) as (A1 & A2 & A3 & A4).
    split; [exact A1|]. split; [|split].
    + rewrite A1, slice_length. lia.
    + intros Hlast.
      destruct (nth_error pages (S k)) as [p'|] eqn:Ek.
      * destruct (Hj _ _ Ek) as (_ & B2 & _). simpl in B2.
        rewrite A1, slice_length. lia.
      * apply nth_error_None in Ek. lia.
    + rewrite A3. now apply titleAt_first.
  - intros wrapped. apply textToPdfPages_returns.
Qed.

End TextPages.

(** C9, as the specification states it, fails: a text of 101 lines under a
    title fills its second page with 43 lines, although 15 more follow and
    a page without the reserved title space would take 46. *)
Lemma second_page_keeps_title_capacity :
  let r := textToPdfPages (Fixture.env [] [])
             (Fixture.repeatStr 100 "x" Fixture.nl) (Some "notes.txt") [] in
  fst r = Ok tt /\
  map (fun p => List.length (pageLines p)) (snd r) = [43; 43; 15]%nat /\
  map pageTitles (snd r) = [["notes.txt"]; []; []] /\
  Qfloor ((pageHeight - 2 * margin) / lineHeight) = 46%Z /\
  (exists second,
     nth_error (snd r) 1 = Some second /\
     Z.of_nat (List.length (pageLines second)) <>
     Qfloor ((pageHeight - 2 * margin) / lineHeight)).
Proof.
  vm_compute. repeat split. eexists. split; [reflexivity|discriminate].
Qed.

Lemma textToPdfPages_title_capacity_witness :
  exists pages,
    textToPdfPages (Fixture.env [] []) "one two" (Some "a.txt") [] =
    (Ok tt, [] ++ pages).
Proof.
  apply (proj2 (proj2 (textToPdfPages_title_capacity (Fixture.env [] [])
                         "one two" (Some "a.txt") [])) ["one two"]).
  - reflexivity.
  - intros t [= <-] _. reflexivity.
  - repeat constructor.
Defined.

(** ** The handler appends page groups in file order *)

Lemma appendOnly_ret {A : Type} (a : A) : appendOnly (ret a).
Proof. intros doc. unfold ret. simpl. now rewrite app_nil_r. Qed.

Lemma appendOnly_lift {A : Type} (r : Res A) : appendOnly (lift r).
Proof. intros doc. unfold lift. simpl. now rewrite app_nil_r. Qed.

Lemma appendOnly_append (pages : list Page) :
  appendOnly (fun merged => (Ok tt, merged ++ pages)).
Proof. intros doc. reflexivity. Qed.

Lemma appendOnly_bind {A B : Type} (m : M A) (k : A -> M B) :
  appendOnly m -> (forall a, appendOnly (k a)) -> appendOnly (bind m k).
Proof.
  intros Hm Hk doc. unfold bind. rewrite (Hm doc).
  destruct (m []) as [[a|msg] d]; simpl.
  - rewrite (Hk a (doc ++ d)), (Hk a d). simpl. now rewrite app_assoc.
  - reflexivity.
Qed.

Lemma appendOnly_tryCatch {A : Type} (m : M A) (h : string -> M A) :
  appendOnly m -> (forall msg, appendOnly (h msg)) -> appendOnly (tryCatch m h).
Proof.
  intros Hm Hh doc. unfold tryCatch. rewrite (Hm doc).
  destruct (m []) as [[a|msg] d]; simpl.
  - reflexivity.
  - rewrite (Hh msg (doc ++ d)), (Hh msg d). simpl. now rewrite app_assoc.
Qed.

Section Handler.

Variable E : Env.
Variable reqQuality : string.

Lemma appendOnly_pageLoop (fuel : nat) (wl : list string) (n : nat)
  (title : option string) (i : nat) :
  appendOnly (pageLoop E fuel wl n title i).
Proof.
  revert i. induction fuel as [|fuel IH]; intros i doc; simpl.
  - destruct (i <? List.length wl)%nat; simpl; now rewrite app_nil_r.
  - destruct (i <? List.length wl)%nat; simpl; [|now rewrite app_nil_r].
    destruct (fst (renderPage E i title (slice wl i n))).
    + rewrite (IH (i + n)%nat (doc ++ [_])), (IH (i + n)%nat [_]). simpl.
      now rewrite <- app_assoc.
    + reflexivity.
Qed.

Lemma appendOnly_textToPdfPages (txt : string) (title : option string) :
  appendOnly (textToPdfPages E txt title).
Proof.
  unfold textToPdfPages. apply appendOnly_bind.
  - apply appendOnly_lift.
  - intros wrapped. apply appendOnly_pageLoop.
Qed.

Lemma appendOnly_convert (f : File) : appendOnly (convert E reqQuality f).
Proof.
  unfold convert.
  destruct (getFileType (originalname f)) as [[]|];
    try apply appendOnly_textToPdfPages.
  - apply appendOnly_bind; [apply appendOnly_lift|].
    intros pages. apply appendOnly_append.
  - apply appendOnly_bind; [apply appendOnly_lift|]. intros processed.
    apply appendOnly_bind; [apply appendOnly_lift|]. intros _.
    apply appendOnly_append.
  - apply appendOnly_bind; [apply appendOnly_lift|]. intros t.
    apply appendOnly_textToPdfPages.
  - apply appendOnly_ret.
Qed.

Lemma appendOnly_processFile (f : File) :
  appendOnly (processFile E reqQuality f).
Proof.
  unfold processFile. apply appendOnly_tryCatch.
  - apply appendOnly_convert.
  - intros msg. apply appendOnly_textToPdfPages.
Qed.

(** The loop body appends the file's page group to whatever precedes it. *)
Lemma processFile_appends (f : File) (doc : Doc) :
  processFile E reqQuality f doc =
  (outcome E reqQuality f, doc ++ contribution E reqQuality f).
Proof. apply appendOnly_processFile. Qed.

Lemma forEach_all_ok (uploaded : list File) (doc : Doc) :
  Forall (fun f => outcome E reqQuality f = Ok tt) uploaded ->
  forEach E reqQuality uploaded doc =
  (Ok tt, doc ++ List.concat (map (contribution E reqQuality) uploaded)).
Proof.
  intros H. revert doc. induction H as [|f rest Hf _ IH]; intros doc; simpl.
  - unfold ret. now rewrite app_nil_r.
  - unfold bind. rewrite processFile_appends, Hf, IH.
    now rewrite app_assoc.
Qed.

Lemma forEach_ok_inv (uploaded : list File) (doc doc' : Doc) (u : unit) :
  forEach E reqQuality uploaded doc = (Ok u, doc') ->
  Forall (fun f => outcome E reqQuality f = Ok tt) uploaded.
Proof.
  revert doc. induction uploaded as [|f rest IH]; intros doc; simpl.
  - constructor.
  - unfold bind. rewrite processFile_appends.
    destruct (outcome E reqQuality f) as [[]|msg] eqn:Ho; [|discriminate].
    intros H. constructor; [exact Ho|eapply IH; eauto].
Qed.

Lemma topLevelCatch_status (msg : string) : status (topLevelCatch msg) = 500%Z.
Proof.
  unfold topLevelCatch.
  destruct (Js.includes _ "encrypted" || Js.includes _ "password");
    reflexivity.
Qed.

(** Saving changes a document only when it has no page. *)
Lemma save_nonempty (merged : Doc) : merged <> [] -> save merged = merged.
Proof. destruct merged; [congruence|reflexivity]. Qed.

Lemma save_app_nonempty (a b c : Doc) :
  b <> [] -> save (a ++ b ++ c) = a ++ b ++ c.
Proof.
  intros Hb. apply save_nonempty. intros H.
  apply app_eq_nil in H as [_ H]. apply app_eq_nil in H as [H _]. congruence.
Qed.

(** The handler answers with a PDF exactly when the batch is not empty and
    every turn of the loop returned; the PDF is the saved document, which
    holds the page groups in file order. *)
Lemma merge_pdf_iff (uploaded : list File) (pages : Doc) :
  merge E reqQuality uploaded = sendPdf pages <->
  uploaded <> [] /\
  Forall (fun f => outcome E reqQuality f = Ok tt) uploaded /\
  pages = save (List.concat (map (contribution E reqQuality) uploaded)).
Proof.
  unfold merge. destruct uploaded as [|f rest].
  - simpl. split; [discriminate|]. intros (H & _). congruence.
  - change ((List.length (f :: rest) =? 0)%nat) with false. cbv iota.
    destruct (forEach E reqQuality (f :: rest) []) as [[u|msg] d] eqn:Efe.
    + pose proof (forEach_ok_inv _ _ _ _ Efe) as Hall.
      rewrite (forEach_all_ok _ [] Hall) in Efe.
      injection Efe as _ Hd. change ([] ++ ?x) with x in Hd. split.
      all: rewrite <- Hd.
      * intros [= <-]. split; [discriminate|]. split; [exact Hall|reflexivity].
      * intros (_ & _ & ->). reflexivity.
    + split.
      * intros H. pose proof (topLevelCatch_status msg) as Hs.
        rewrite H in Hs. discriminate.
      * intros (_ & Hall & _). rewrite (forEach_all_ok _ [] Hall) in Efe.
        discriminate.
Qed.

End Handler.

Section Claims.

Variable E : Env.
Variable reqQuality : string.

Lemma outcome_unrecognized (f : File) :
  getFileType (originalname f) = None ->
  outcome E reqQuality f = Ok tt /\ contribution E reqQuality f = [].
Proof.
  intros H. unfold outcome, contribution, processFile, tryCatch, convert.
  rewrite H. split; reflexivity.
Qed.

Lemma forEach_unrecognized (uploaded : list File) (doc : Doc) :
  Forall (fun f => getFileType (originalname f) = None) uploaded ->
  forEach E reqQuality uploaded doc = (Ok tt, doc).
Proof.
  intros H. revert doc. induction H as [|f rest Hf _ IH]; intros doc;
    [reflexivity|].
  simpl. unfold bind, processFile, tryCatch, convert. rewrite Hf. apply IH.
Qed.

(** C10 (amended). A batch that is not empty and whose files all have an
    extension outside [SUPPORTED], or none, is answered with status 200 and
    a PDF of one blank page, the page that saving adds to a document
    without pages: each file is skipped, with no page of its own, no notice
    and no error, and the loop leaves the document empty. *)
Theorem merge_unrecognized_only (uploaded : list File) :
  uploaded <> [] ->
  Forall (fun f => getFileType (originalname f) = None) uploaded ->
  merge E reqQuality uploaded = sendPdf [blankPage] /\
  status (merge E reqQuality uploaded) = 200%Z /\
  body (merge E reqQuality uploaded) = PdfBody [blankPage] /\
  forEach E reqQuality uploaded [] = (Ok tt, []) /\
  Forall (fun f => outcome E reqQuality f = Ok tt /\
                   contribution E reqQuality f = []) uploaded.
Proof.
  intros Hne Hall.
  assert (H : merge E reqQuality uploaded = sendPdf [blankPage]).
  { unfold merge. destruct uploaded as [|f rest]; [congruence|].
    change ((List.length (f :: rest) =? 0)%nat) with false. cbv iota.
    now rewrite (forEach_unrecognized _ [] Hall). }
  rewrite H. split; [reflexivity|]. split; [reflexivity|].
  split; [reflexivity|]. split; [now apply forEach_unrecognized|].
  eapply Forall_impl; [|exact Hall].
  intros f Hf. now apply outcome_unrecognized.
Qed.

Lemma contribution_pdf (f : File) (srcPages : list SrcPage) :
  getFileType (originalname f) = Some Category.pdf ->
  PDFDocument_load E (buffer f) = Ok srcPages ->
  outcome E reqQuality f = Ok tt /\
  contribution E reqQuality f = map Copied srcPages.
Proof.
  intros Ht Hl. unfold outcome, contribution, processFile, tryCatch, convert.
  rewrite Ht. unfold bind, lift. rewrite Hl. split; reflexivity.
Qed.

(** A PDF that [PDFDocument.load] rejects is handled like any failed
    conversion: the inner [catch] writes the error notice and the loop goes
    on. *)
Lemma processFile_pdf_throw (f : File) (msg : string) (doc : Doc) :
  getFileType (originalname f) = Some Category.pdf ->
  PDFDocument_load E (buffer f) = Throw msg ->
  processFile E reqQuality f doc =
  textToPdfPages E (errorText (originalname f) msg) (Some "Error") doc.
Proof.
  intros Ht Hl. unfold processFile, tryCatch, convert.
  rewrite Ht. unfold bind, lift. now rewrite Hl.
Qed.

Lemma contribution_converted (f : File) (u : unit) (pages : list Page) :
  convert E reqQuality f [] = (Ok u, pages) ->
  outcome E reqQuality f = Ok tt /\ contribution E reqQuality f = pages.
Proof.
  intros H. unfold outcome, contribution, processFile, tryCatch.
  rewrite H. destruct u. split; reflexivity.
Qed.


Lemma convert_image_throw (f : File) (msg : string) (partial : list Page) :
  getFileType (originalname f) = Some Category.image ->
  convert E reqQuality f [] = (Throw msg, partial) -> partial = [].
Proof.
  unfold convert. intros ->. unfold bind, lift.
  destruct (imageToPdfPage E (buffer f) (quality reqQuality)) as [p|m];
    [|now intros [= _ <-]].
  destruct (embedJpg E (fst p)); [discriminate|now intros [= _ <-]].
Qed.

Lemma errorText_words (filename msg : string) :
  words Js.isSpace (errorText filename msg) <> [].
Proof.
  change (errorText filename msg)
    with ("Error" ++ String " " ("processing file: " ++ filename
            ++ String "010" (String "010" msg)))%string.
  rewrite (words_app Js.isSpace _ _ " " eq_refl). discriminate.
Qed.

(** C2 (amended). When the conversion of one file that is not a PDF
    throws and the error notice for it can be written, while every other
    turn of the loop returns, the handler answers with a PDF in which the
    pages of the failing file that were already added (none for an image)
    and then the error notice stand at the place of that file, between the
    page groups of the files before and after it.  The notice has at least
    one page, exactly one when its text wraps to 43 lines or fewer; its
    first page is titled [Error] and its words are those of the file name
    and the message. *)
Theorem merge_isolates_failure (before after : list File) (f : File)
  (msg : string) (partial notice : list Page) :
  getFileType (originalname f) <> Some Category.pdf ->
  convert E reqQuality f [] = (Throw msg, partial) ->
  textToPdfPages E (errorText (originalname f) msg) (Some "Error") [] =
    (Ok tt, notice) ->
  Forall (fun g => outcome E reqQuality g = Ok tt) (before ++ after) ->
  merge E reqQuality (before ++ f :: after) =
    sendPdf (List.concat (map (contribution E reqQuality) before)
             ++ (partial ++ notice)
             ++ List.concat (map (contribution E reqQuality) after)) /\
  (getFileType (originalname f) = Some Category.image -> partial = []) /\
  (exists first rest, notice = first :: rest /\ pageTitles first = ["Error"]) /\
  (exists wrapped,
     wrapText E (errorText (originalname f) msg) = Ok wrapped /\
     List.concat (map pageLines notice) = wrapped /\
     (forall ws : ascii -> bool,
        ws " "%char = true -> ws "010"%char = true ->
        List.concat (map (words ws) wrapped) =
        words ws (errorText (originalname f) msg)) /\
     ((List.length wrapped <= 43)%nat -> List.length notice = 1%nat)).
Proof.
  intros _ Hconv Hnotice Hothers.
  assert (Hf : outcome E reqQuality f = Ok tt /\
               contribution E reqQuality f = partial ++ notice).
  { unfold outcome, contribution, processFile, tryCatch. rewrite Hconv.
    rewrite (appendOnly_textToPdfPages E _ _ partial), Hnotice.
    split; reflexivity. }
  destruct Hf as [Hfo Hfc].
  destruct (textToPdfPages_ok _ _ _ _ _ _ Hnotice)
    as (wrapped & group & Hw & Hd & Hc & Hj).
  simpl in Hd. subst group.
  assert (Hwne : wrapped <> []).
  { intros ->.
    pose proof (wrapText_words E Js.isSpace eq_refl eq_refl _ _ Hw) as Hx.
    simpl in Hx. symmetry in Hx. revert Hx. apply errorText_words. }
  assert (Hnne : notice <> []).
  { intros ->. simpl in Hc. congruence. }
  split; [|split; [|split]].
  - apply merge_pdf_iff. split; [|split].
    + now destruct before.
    + apply Forall_app in Hothers as [Hb Ha].
      apply Forall_app. split; [exact Hb|]. constructor; assumption.
    + rewrite map_app, concat_app. simpl. rewrite Hfc.
      symmetry. apply save_app_nonempty.
      intros H. apply app_eq_nil in H as [_ H]. congruence.
  - intros Hi. eapply convert_image_throw; eauto.
  - destruct notice as [|first rest]; [congruence|].
    exists first, rest. split; [reflexivity|].
    destruct (Hj 0%nat first eq_refl) as (_ & _ & Ht & _). exact Ht.
  - exists wrapped. split; [exact Hw|]. split; [exact Hc|]. split.
    + intros ws Hsp Hnl. now apply (wrapText_words E ws Hsp Hnl).
    + intros Hlen. destruct notice as [|first [|second rest]];
        [congruence|reflexivity|].
      destruct (Hj 1%nat second eq_refl) as (_ & Hlt & _).
      rewrite maxLines_value in Hlt. simpl in Hlt. lia.
Qed.

(** Without any assumption on the libraries: an empty batch is answered
    with status 400, and no other batch is. *)
Lemma merge_empty_400 (uploaded : list File) :
  (uploaded = [] -> merge E reqQuality uploaded = sendText 400 "No files uploaded.") /\
  (status (merge E reqQuality uploaded) = 400%Z -> uploaded = []).
Proof.
  split; [now intros ->|].
  destruct uploaded as [|f rest]; [reflexivity|].
  unfold merge. change ((List.length (f :: rest) =? 0)%nat) with false.
  cbv iota. destruct (forEach E reqQuality (f :: rest) []) as [[u|msg] d].
  - discriminate.
  - rewrite topLevelCatch_status. discriminate.
Qed.

(** A turn of the loop throws only when writing the error notice throws. *)
Lemma outcome_throw_inv (f : File) (m : string) :
  outcome E reqQuality f = Throw m ->
  exists msg partial,
    convert E reqQuality f [] = (Throw msg, partial) /\
    fst (textToPdfPages E (errorText (originalname f) msg) (Some "Error")
           partial) = Throw m.
Proof.
  unfold outcome, processFile, tryCatch.
  destruct (convert E reqQuality f []) as [[u|msg] partial]; [discriminate|].
  intros H. exists msg, partial. split; [reflexivity|exact H].
Qed.

Lemma forEach_throw_inv (uploaded : list File) (doc doc' : Doc) (m : string) :
  forEach E reqQuality uploaded doc = (Throw m, doc') ->
  Exists (fun f => outcome E reqQuality f = Throw m) uploaded.
Proof.
  revert doc. induction uploaded as [|f rest IH]; intros doc; simpl.
  - discriminate.
  - unfold bind. rewrite processFile_appends.
    destruct (outcome E reqQuality f) as [u|msg] eqn:Ho.
    + intros H. right. eapply IH; eauto.
    + intros [= -> _]. left. exact Ho.
Qed.

(** The three answers of the handler. *)
Lemma merge_status (uploaded : list File) :
  (uploaded = [] /\ status (merge E reqQuality uploaded) = 400%Z) \/
  (uploaded <> [] /\
   Forall (fun f => outcome E reqQuality f = Ok tt) uploaded /\
   status (merge E reqQuality uploaded) = 200%Z) \/
  (uploaded <> [] /\
   Exists (fun f => exists m, outcome E reqQuality f = Throw m) uploaded /\
   status (merge E reqQuality uploaded) = 500%Z).
Proof.
  destruct uploaded as [|f rest]; [left; split; reflexivity|]. right.
  unfold merge. change ((List.length (f :: rest) =? 0)%nat) with false.
  cbv iota.
  destruct (forEach E reqQuality (f :: rest) []) as [[u|msg] d] eqn:Efe.
  - left. split; [discriminate|]. split; [|reflexivity].
    eapply forEach_ok_inv; eauto.
  - right. split; [discriminate|]. split; [|apply topLevelCatch_status].
    apply forEach_throw_inv in Efe.
    eapply Exists_impl; [|exact Efe]. intros g Hg. now exists msg.
Qed.

End Claims.

(** ** Image placement *)

Section PlacementRange.

Import Floats Uint63.

Lemma allFrom_spec (check : int -> bool) (n : nat) (i : int) :
  (to_Z i + Z.of_nat n <= wB)%Z ->
  Placement.allFrom check i n = true ->
  forall j, (to_Z i <= to_Z j < to_Z i + Z.of_nat n)%Z -> check j = true.
Proof.
  revert i. induction n as [|k IH]; intros i Hb H j Hj; [lia|].
  cbn [Placement.allFrom] in H.
  destruct (check i) eqn:Ei; [|discriminate].
  destruct (Z.eq_dec (to_Z j) (to_Z i)) as [E|N].
  - apply to_Z_inj in E. now subst.
  - assert (Hs : to_Z (i + 1) = (to_Z i + 1)%Z).
    { rewrite add_spec, to_Z_1, Z.mod_small; [reflexivity|].
      pose proof (to_Z_bounded i). lia. }
    apply (IH (i + 1)%uint63); rewrite ?Hs; try lia. exact H.
Qed.

(** Every size from 1 by 1 to 4000 by 4000, evaluated. *)
Lemma sizes_checked :
  Placement.allFrom
    (fun w => Placement.allFrom (fun h => Placement.placed w h)
                1 Placement.sides)
    1 Placement.sides = true.
Proof. vm_compute. reflexivity. Qed.

Lemma to_Z_of_Z_side (z : Z) :
  (1 <= z <= Placement.maxSide)%Z -> to_Z (of_Z z) = z.
Proof.
  intros H. rewrite of_Z_spec. apply Z.mod_small.
  unfold Placement.maxSide in H. change wB with (2 ^ 63)%Z. lia.
Qed.

Lemma sides_bound : (to_Z 1 + Z.of_nat Placement.sides <= wB)%Z.
Proof. vm_compute. discriminate. Qed.

Lemma side_in_range (z : Z) :
  (1 <= z <= Placement.maxSide)%Z ->
  (to_Z 1 <= to_Z (of_Z z) < to_Z 1 + Z.of_nat Placement.sides)%Z.
Proof.
  intros H. rewrite (to_Z_of_Z_side z H).
  change (to_Z 1) with 1%Z.
  change (Z.of_nat Placement.sides) with Placement.maxSide. lia.
Qed.

Lemma placed_in_range (width height : Z) :
  (1 <= width <= Placement.maxSide)%Z ->
  (1 <= height <= Placement.maxSide)%Z ->
  Placement.placed (of_Z width) (of_Z height) = true.
Proof.
  intros Hw Hh.
  pose proof (allFrom_spec
                (fun w => Placement.allFrom (fun h => Placement.placed w h)
                            1 Placement.sides)
                Placement.sides 1 sides_bound sizes_checked
                (of_Z width) (side_in_range width Hw)) as Hrow.
  cbv beta in Hrow.
  exact (allFrom_spec (fun h => Placement.placed (of_Z width) h)
           Placement.sides 1 sides_bound Hrow
           (of_Z height) (side_in_range height Hh)).
Qed.

Lemma leb_side (k : Z) (z : Z) :
  (0 <= k < 2 ^ 62)%Z -> (1 <= z <= Placement.maxSide)%Z ->
  (of_Z z <=? of_Z k)%uint63 = (z <=? k)%Z.
Proof.
  intros Hk Hz. apply eq_true_iff_eq. rewrite leb_spec, Z.leb_le.
  rewrite (to_Z_of_Z_side _ Hz), of_Z_spec, Z.mod_small; [reflexivity|].
  change wB with (2 ^ 63)%Z. lia.
Qed.

Lemma leb_side_r (k : Z) (z : Z) :
  (0 <= k < 2 ^ 62)%Z -> (1 <= z <= Placement.maxSide)%Z ->
  (of_Z k <=? of_Z z)%uint63 = (k <=? z)%Z.
Proof.
  intros Hk Hz. apply eq_true_iff_eq. rewrite leb_spec, Z.leb_le.
  rewrite (to_Z_of_Z_side _ Hz), of_Z_spec, Z.mod_small; [reflexivity|].
  change wB with (2 ^ 63)%Z. lia.
Qed.

(** C8 (amended). For a normalized image, whose sides are from 1 to 4000
    pixels, the handler computes in doubles.  The scale is
    [min(612/width, 792/height, 1)], above 0 and never above 1; the image is
    drawn at its sides times the scale, and the page has the drawn size with
    each side raised to 100 when it is shorter.  An image that fits the
    page is drawn at exactly its pixel size, and a side of the page is the
    pixel count when that is 100 or more and 100 otherwise.  For an
    oversized image the scale is [min(612/width, 792/height)], below 1; the
    drawn image and the page are at most one rounding step of a double
    above 612 by 792, and the aspect ratio of the drawn image is that of the
    pixels up to a relative error of 2^-50. *)
Theorem image_page_size (width height : Z) :
  (1 <= width <= Placement.maxSide)%Z ->
  (1 <= height <= Placement.maxSide)%Z ->
  let w := Dbl.ofZ width in
  let h := Dbl.ofZ height in
  let s := imageScale w h in
  let drawn := scaledSize w h in
  let page := imagePageSize w h in
  (Dbl.lt 0 s /\ Dbl.le s 1) /\
  drawn = (w * s, h * s)%float /\
  page = (Dbl.max (fst drawn) 100, Dbl.max (snd drawn) 100) /\
  ((width <= 612)%Z -> (height <= 792)%Z ->
     s = 1%float /\ drawn = (w, h) /\
     ((100 <= width)%Z -> fst page = w) /\
     ((width < 100)%Z -> fst page = 100%float) /\
     ((100 <= height)%Z -> snd page = h) /\
     ((height < 100)%Z -> snd page = 100%float)) /\
  ((612 < width)%Z \/ (792 < height)%Z ->
     Dbl.lt s 1 /\
     s = Dbl.min (612 / w) (792 / h) /\
     Dbl.le (fst drawn) Placement.above612 /\
     Dbl.le (snd drawn) Placement.above792 /\
     Dbl.le (fst page) Placement.above612 /\
     Dbl.le (snd page) Placement.above792 /\
     Placement.aspectKept w h drawn = true).
Proof.
  intros Hw Hh. cbv zeta.
  pose proof (placed_in_range width height Hw Hh) as Hp.
  unfold Placement.placed in Hp. cbv zeta in Hp.
  change (of_uint63 (of_Z width)) with (Dbl.ofZ width) in Hp.
  change (of_uint63 (of_Z height)) with (Dbl.ofZ height) in Hp.
  change 612%uint63 with (of_Z 612) in Hp.
  change 792%uint63 with (of_Z 792) in Hp.
  change 100%uint63 with (of_Z 100) in Hp.
  rewrite (leb_side 612 width), (leb_side 792 height),
    (leb_side_r 100 width), (leb_side_r 100 height) in Hp by (assumption || lia).
  unfold scaledSize, imagePageSize. cbn [fst snd] in *.
  set (w := Dbl.ofZ width) in *. set (h := Dbl.ofZ height) in *.
  set (s := imageScale w h) in *.
  apply andb_prop in Hp as [Hp Hcase]. apply andb_prop in Hp as [H0 H1].
  split; [split; assumption|]. split; [reflexivity|]. split; [reflexivity|].
  split.
  - intros Lw Lh.
    apply Z.leb_le in Lw, Lh. rewrite Lw, Lh in Hcase. cbn [andb] in Hcase.
    repeat (apply andb_prop in Hcase as [Hcase ?]).
    repeat match goal with
           | H : Leibniz.eqb _ _ = true |- _ =>
               apply FloatAxioms.Leibniz.eqb_spec in H
           end.
    split; [assumption|]. split; [congruence|].
    repeat split; intros Hc.
    + apply Z.leb_le in Hc. match goal with
        | H : Dbl.max (w * s)%float _ = _ |- _ => now rewrite Hc in H end.
    + apply Z.leb_gt in Hc. match goal with
        | H : Dbl.max (w * s)%float _ = _ |- _ => now rewrite Hc in H end.
    + apply Z.leb_le in Hc. match goal with
        | H : Dbl.max (h * s)%float _ = _ |- _ => now rewrite Hc in H end.
    + apply Z.leb_gt in Hc. match goal with
        | H : Dbl.max (h * s)%float _ = _ |- _ => now rewrite Hc in H end.
  - intros Hover.
    assert (Hc : (width <=? 612)%Z && (height <=? 792)%Z = false).
    { apply andb_false_iff. destruct Hover; [left|right]; apply Z.leb_gt; lia. }
    rewrite Hc in Hcase.
    repeat (apply andb_prop in Hcase as [Hcase ?]).
    repeat match goal with
           | H : Leibniz.eqb _ _ = true |- _ =>
               apply FloatAxioms.Leibniz.eqb_spec in H
           end.
    unfold Dbl.lt, Dbl.le. repeat split; assumption.
Qed.

End PlacementRange.

(** C8, as the specification states it, fails twice.  An image of 50 by 50
    pixels fits the page and is put on a page of 100 by 100, not of its
    own size; and an image of 1063 by 100 pixels is drawn
    612.0000000000001 wide, above 612. *)
Lemma small_image_page_is_raised :
  (50 <= 612)%Z /\ (50 <= 792)%Z /\
  imagePage "JPEG 50x50" 50 50 =
    Fresh 100 100 [DrawImage "JPEG 50x50" 0 0 50 50] /\
  imagePage "JPEG 50x50" 50 50 <>
    Fresh 50 50 [DrawImage "JPEG 50x50" 0 0 50 50] /\
  (1063 <= Placement.maxSide)%Z /\
  Dbl.lt (Dbl.ofZ 612) (fst (scaledSize (Dbl.ofZ 1063) (Dbl.ofZ 100))) /\
  fst (scaledSize (Dbl.ofZ 1063) (Dbl.ofZ 100)) = Placement.above612.
Proof.
  split; [lia|]. split; [lia|]. split; [vm_compute; reflexivity|].
  split; [vm_compute; discriminate|]. split; [vm_compute; discriminate|].
  split; vm_compute; reflexivity.
Qed.

Lemma image_page_size_witness :
  imagePageSize (Dbl.ofZ 300) (Dbl.ofZ 400) = (Dbl.ofZ 300, Dbl.ofZ 400).
Proof.
  pose proof (image_page_size 300 400 ltac:(vm_compute; split; discriminate)
                ltac:(vm_compute; split; discriminate)) as H.
  cbv zeta in H.
  destruct H as (_ & _ & _ & Hfit & _).
  destruct (Hfit ltac:(lia) ltac:(lia)) as (_ & _ & Hw & _ & Hh & _).
  rewrite (surjective_pairing (imagePageSize _ _)).
  now rewrite (Hw ltac:(lia)), (Hh ltac:(lia)).
Defined.

(** ** The properties on the example libraries *)

(** C1. A batch of one encrypted PDF and two text files: the exception of
    [PDFDocument.load] is caught inside the loop, the handler answers with
    status 200 and a PDF of three pages, the first of them the error notice
    for the PDF.  The outer handler, had the exception reached it, would have
    answered with status 500 and the sentence about encryption, as the two
    other variants of the handler do. *)
Theorem encrypted_pdf_becomes_error_page :
  let batch := [Fixture.file "locked.pdf" "%PDF locked";
                Fixture.file "a.txt" "alpha";
                Fixture.file "b.txt" "beta"] in
  let response := merge Fixture.library "" batch in
  PDFDocument_load Fixture.library "%PDF locked" =
    Throw Fixture.encryptedError /\
  status response = 200%Z /\
  (exists pages,
     body response = PdfBody pages /\
     map pageTitles pages = [["Error"]; ["a.txt"]; ["b.txt"]] /\
     map pageLines pages =
       [["Error processing file: locked.pdf"; "";
         "Input document to `PDFDocument.load` is encrypted."];
        ["alpha"]; ["beta"]]) /\
  topLevelCatch Fixture.encryptedError = sendText 500 encryptedMessage /\
  Minimal.merge Fixture.library "" batch = sendText 500 encryptedMessage /\
  PdfOnly.merge Fixture.library batch = sendText 500 PdfOnly.encryptedMessage.
Proof.
  cbv zeta. split; [reflexivity|]. split; [reflexivity|]. split.
  - eexists. split; [vm_compute; reflexivity|]. split; reflexivity.
  - repeat split; reflexivity.
Qed.

(** C2, as the specification states it, fails on the length of the notice:
    for a corrupt image whose name is long, the notice that stands at its
    place has two pages. *)
Lemma error_notice_spans_two_pages :
  let f := Fixture.file Fixture.longName "not an image" in
  let batch := [Fixture.file "a.txt" "alpha"; f;
                Fixture.file "b.txt" "beta"; Fixture.file "c.txt" "gamma"] in
  getFileType (originalname f) = Some Category.image /\
  convert Fixture.library "" f [] =
    (Throw "Input buffer contains unsupported image format", []) /\
  status (merge Fixture.library "" batch) = 200%Z /\
  map (fun g => List.length (contribution Fixture.library "" g)) batch =
    [1; 2; 1; 1]%nat /\
  map pageTitles (contribution Fixture.library "" f) = [["Error"]; []] /\
  List.length (contribution Fixture.library "" f) <> 1%nat.
Proof. vm_compute. repeat split. discriminate. Qed.

Lemma merge_isolates_failure_witness :
  exists notice,
    merge Fixture.library ""
      ([Fixture.file "a.txt" "alpha"; Fixture.file "b.txt" "beta"]
       ++ Fixture.file "broken.png" "not an image"
       :: [Fixture.file "c.txt" "gamma"]) =
    sendPdf
      (List.concat (map (contribution Fixture.library "")
                      [Fixture.file "a.txt" "alpha";
                       Fixture.file "b.txt" "beta"])
       ++ ([] ++ notice)
       ++ List.concat (map (contribution Fixture.library "")
                         [Fixture.file "c.txt" "gamma"])) /\
    List.length notice = 1%nat.
Proof.
  eexists. split.
  - refine (proj1 (merge_isolates_failure Fixture.library ""
             [Fixture.file "a.txt" "alpha"; Fixture.file "b.txt" "beta"]
             [Fixture.file "c.txt" "gamma"]
             (Fixture.file "broken.png" "not an image")
             "Input buffer contains unsupported image format" [] _ _ _ _ _)).
    + discriminate.
    + vm_compute. reflexivity.
    + vm_compute. reflexivity.
    + repeat constructor.
  - reflexivity.
Defined.


(** C4. A batch of one text file with Windows line endings.  The font
    cannot measure the carriage return, so the conversion of the file throws
    and the inner [catch] writes the notice; the notice quotes the message
    of the exception, carriage return included, so measuring it throws
    again, this time outside the inner [try].  The handler answers with
    status 500 although the batch is not empty; status 400 remains the
    answer to the empty batch and to no other. *)
Theorem crlf_text_fails_batch :
  let cr := "013"%char in
  let content := ("one" ++ String cr (String "010" "two"))%string in
  let batch := [Fixture.file "w.txt" content] in
  let response := merge Fixture.library "" batch in
  batch <> [] /\
  getFileType "w.txt" = Some Category.text /\
  convert Fixture.library "" (Fixture.file "w.txt" content) [] =
    (Throw (Fixture.cannotEncode cr), []) /\
  textToPdfPages Fixture.library
    (errorText "w.txt" (Fixture.cannotEncode cr)) (Some "Error") [] =
    (Throw (Fixture.cannotEncode cr), []) /\
  response = sendText 500 (Fixture.cannotEncode cr) /\
  status response = 500%Z /\
  Fixture.cannotEncode cr =
    ("WinAnsi cannot encode " ++ dquote ++ String cr EmptyString ++ dquote
     ++ " (0x000d)")%string /\
  (forall E reqQuality uploaded,
     status (merge E reqQuality uploaded) = 400%Z <-> uploaded = []).
Proof.
  cbv zeta. split; [discriminate|].
  split; [reflexivity|]. split; [vm_compute; reflexivity|].
  split; [vm_compute; reflexivity|]. split; [vm_compute; reflexivity|].
  split; [vm_compute; reflexivity|]. split; [vm_compute; reflexivity|].
  intros E reqQuality uploaded. split.
  - apply merge_empty_400.
  - intros ->. reflexivity.
Qed.

Lemma merge_unrecognized_only_witness :
  merge Fixture.library ""
    [Fixture.file "data.xyz" "zz"; Fixture.file "README" "text"] =
  sendPdf [blankPage].
Proof.
  refine (proj1 (merge_unrecognized_only Fixture.library ""
            [Fixture.file "data.xyz" "zz"; Fixture.file "README" "text"] _ _)).
  - discriminate.
  - repeat constructor.
Defined.

(** C10, as the specification states it, fails: the PDF that answers a
    batch of unrecognized files holds one page, not none. *)
Lemma unrecognized_batch_gets_blank_page :
  let batch := [Fixture.file "data.xyz" "zz"; Fixture.file "README" "text"] in
  Forall (fun f => getFileType (originalname f) = None) batch /\
  forEach Fixture.library "" batch [] = (Ok tt, []) /\
  body (merge Fixture.library "" batch) = PdfBody [blankPage] /\
  body (merge Fixture.library "" batch) <> PdfBody [].
Proof.
  cbv zeta. split; [repeat constructor|]. split; [reflexivity|].
  split; [reflexivity|]. vm_compute. discriminate.
Qed.

Lemma wrapText_keeps_words_witness :
  List.concat (map (words Js.isSpace) ["to be  or not"]) =
    words Js.isSpace "to be  or not" /\
  Forall (overflowsAlone Fixture.library) ["to be  or not"].
Proof.
  exact (proj1 (wrapText_keeps_words Fixture.library Js.isSpace
                  eq_refl eq_refl) "to be  or not" ["to be  or not"] eq_refl).
Defined.

(** C7, as the specification states it, fails: wrapping throws on a line
    that ends in a carriage return, and on a line that starts with a tab. *)
Lemma carriage_return_stops_wrapping :
  wrapText Fixture.library ("one" ++ String "013" (String "010" "two")) =
    Throw (Fixture.cannotEncode "013") /\
  wrapText Fixture.library (String "009" "indented") =
    Throw (Fixture.cannotEncode "009").
Proof. split; vm_compute; reflexivity. Qed.

(** ** Every listed extension *)

(** X1. A name that ends in an extension of [SUPPORTED], written in any
    mix of upper and lower case and after any stem, gets that extension's
    category. *)
Theorem getFileType_listed_extension (t : FileType) (exts : list string)
  (e stem suffix : string) :
  In (t, exts) SUPPORTED -> In e exts -> Js.toLowerCase suffix = e ->
  getFileType (stem ++ suffix) = Some t.
Proof.
  intros Hs He Hlow.
  assert (Hform : exists rest, e = String "." rest /\
                               Js.truthy rest = true /\ noDot rest = true).
  { unfold SUPPORTED in Hs. simpl in Hs.
    repeat (destruct Hs as [Hs|Hs]; [injection Hs as <- <-|]);
      try contradiction; simpl in He;
      repeat (destruct He as [<-|He]; [eexists; repeat split|]);
      contradiction. }
  destruct Hform as (rest & -> & Hr & Hd).
  unfold getFileType. apply (firstType_complete _ t exts Hs).
  unfold extOf. rewrite toLowerCase_app, Hlow.
  rewrite (matchExt_suffix _ rest Hr Hd). exact He.
Qed.

Lemma getFileType_listed_extension_witness :
  getFileType ("archive.2024/Report.Final" ++ ".DocX") = Some Category.word.
Proof.
  apply (getFileType_listed_extension Category.word [".docx"; ".doc"]
           ".docx" "archive.2024/Report.Final" ".DocX").
  - simpl. auto.
  - simpl. auto.
  - reflexivity.
Defined.

(** ** More on the comparator *)

Section ComparatorEdges.

Variable localeCompare : string -> string -> Z.
Variable toNumber : string -> option Z.

Hypothesis localeCompare_antisym :
  forall a b, Z.sgn (localeCompare a b) = (- Z.sgn (localeCompare b a))%Z.

Hypothesis localeCompare_trans :
  forall a b c, (localeCompare a b <= 0)%Z -> (localeCompare b c <= 0)%Z ->
                (localeCompare a c <= 0)%Z.

Lemma compareTokens_prefix (ax extra : list Token) :
  extra <> [] ->
  sign (compareTokens localeCompare toNumber ax (ax ++ extra)) = (-1)%Z.
Proof.
  intros Hne. rewrite compareTokens_lex.
  induction ax as [|an ax IH]; simpl.
  - destruct extra; [congruence|reflexivity].
  - rewrite (cmp3_refl _ (tokenCompare_Cmp3 localeCompare toNumber
                            localeCompare_antisym localeCompare_trans) an).
    exact IH.
Qed.

(** X2. The empty string sorts before every other string, and a string
    sorts before its extension by a text that starts with a character of the
    other kind: digits after text, or text after digits. *)
Theorem naturalSort_prefix_first :
  (forall b, b <> EmptyString ->
     sign (naturalSort localeCompare toNumber EmptyString b) = (-1)%Z) /\
  (forall a s, a <> EmptyString -> s <> EmptyString ->
     lastClass a <> headClass s ->
     sign (naturalSort localeCompare toNumber a (a ++ s)) = (-1)%Z /\
     sign (naturalSort localeCompare toNumber (a ++ s) a) = 1%Z).
Proof.
  assert (Hne : forall s, s <> EmptyString -> tokens s <> []).
  { intros [|c r] H; [congruence|]. unfold tokens.
    destruct (runs_head c r) as (run & t & ->). discriminate. }
  split.
  - intros b Hb. unfold naturalSort.
    apply (compareTokens_prefix [] (tokens b)). now apply Hne.
  - intros a s Ha Hs Hb.
    assert (H1 : sign (naturalSort localeCompare toNumber a (a ++ s)) = (-1)%Z).
    { unfold naturalSort, tokens. rewrite (runs_app a s Ha Hs Hb), map_app.
      apply compareTokens_prefix. now apply Hne. }
    split; [exact H1|].
    pose proof (proj1 (compareTokens_Cmp3 localeCompare toNumber
                         localeCompare_antisym localeCompare_trans)
                  (tokens (a ++ s)) (tokens a)) as Hanti.
    unfold naturalSort in *. cbv beta in Hanti. lia.
Qed.

End ComparatorEdges.

(** X3. At the first position where one name has digits and the other has
    text, the name with the digits sorts first, whatever [localeCompare]
    says: a name that starts with a number precedes a name that starts with
    a letter. *)
Theorem naturalSort_digits_before_text
  (localeCompare : string -> string -> Z) (toNumber : string -> option Z)
  (x s t : string) :
  uniform true x = true -> x <> EmptyString ->
  headClass s <> Some true -> headClass t = Some false ->
  toNumber x <> None ->
  sign (naturalSort localeCompare toNumber (x ++ s) t) = (-1)%Z /\
  sign (naturalSort localeCompare toNumber t (x ++ s)) = 1%Z.
Proof.
  intros Hx Nx Hs Ht Hn.
  destruct t as [|ct rt]; [discriminate|]. simpl in Ht.
  injection Ht as Ht.
  unfold naturalSort, tokens. rewrite (runs_block true x s Nx Hx Hs).
  destruct (runs_head ct rt) as (run & rest & ->). rewrite Ht.
  cbn [map tokenOf fst snd compareTokens].
  unfold tokenCompare, keySub. cbn [fst snd keyNumber].
  destruct (toNumber x) as [n|]; [|congruence].
  split; reflexivity.
Qed.

Lemma naturalSort_prefix_first_witness :
  sign (naturalSort ordinalCompare exactNumber "chapter" ("chapter" ++ "12"))
  = (-1)%Z.
Proof.
  apply (proj2 (naturalSort_prefix_first ordinalCompare exactNumber
                  ordinalCompare_antisym ordinalCompare_trans));
    discriminate.
Defined.

Lemma naturalSort_digits_before_text_witness :
  sign (naturalSort ordinalCompare exactNumber ("2024" ++ "-notes.txt")
          "appendix.txt") = (-1)%Z.
Proof.
  apply (naturalSort_digits_before_text ordinalCompare exactNumber
           "2024" "-notes.txt" "appendix.txt");
    try reflexivity; discriminate.
Defined.

(** ** The text extractors *)

Lemma printable_length (s : string) :
  String.length (Js.printable s) = String.length s.
Proof. induction s as [|c r IH]; simpl; [reflexivity|now rewrite IH]. Qed.

Lemma printable_allChars (s : string) :
  allChars isPrintable (Js.printable s) = true.
Proof.
  induction s as [|c r IH]; [reflexivity|].
  cbn [Js.printable allChars]. rewrite IH, andb_true_r.
  fold (isPrintable c). destruct (isPrintable c) eqn:E; [exact E|reflexivity].
Qed.

Lemma printable_fixed (s : string) :
  allChars isPrintable s = true -> Js.printable s = s.
Proof.
  induction s as [|c r IH]; [reflexivity|].
  cbn [Js.printable allChars]. intros H.
  apply andb_true_iff in H as [Hc Hr]. fold (isPrintable c).
  now rewrite Hc, (IH Hr).
Qed.

Lemma printable_get (s : string) (i : nat) :
  String.get i (Js.printable s) =
  option_map (fun c => if isPrintable c then c else " "%char) (String.get i s).
Proof.
  revert i. induction s as [|c r IH]; intros i; [reflexivity|].
  cbn [Js.printable]. fold (isPrintable c).
  destruct i as [|i]; [reflexivity|]. simpl. apply IH.
Qed.

(** X4. [wordToText] returns the text mammoth extracts, and when mammoth
    throws it returns the decoded buffer with every character outside
    printable ASCII, newline, carriage return and tab replaced by a space:
    the same length, the kept characters in place. *)
Theorem wordToText_fallback (E : Env) (buffer : Buffer) :
  (forall value, mammoth_extractRawText E buffer = Ok value ->
     wordToText E buffer = value) /\
  (forall msg, mammoth_extractRawText E buffer = Throw msg ->
     let raw := toStringUtf8 E buffer in
     String.length (wordToText E buffer) = String.length raw /\
     allChars isPrintable (wordToText E buffer) = true /\
     (forall i, String.get i (wordToText E buffer) =
        option_map (fun c => if isPrintable c then c else " "%char)
          (String.get i raw)) /\
     (allChars isPrintable raw = true -> wordToText E buffer = raw)).
Proof.
  unfold wordToText. split.
  - intros value ->. now destruct value.
  - intros msg ->. cbv zeta. split; [apply printable_length|].
    split; [apply printable_allChars|].
    split; [apply printable_get|apply printable_fixed].
Qed.

Lemma wordToText_fallback_witness :
  wordToText
    (Fixture.env [] []) "plain text" = "plain text".
Proof.
  apply (proj1 (wordToText_fallback (Fixture.env [] []) "plain text")).
  reflexivity.
Defined.

Lemma trim_empty_truthy (s : string) :
  Js.truthy (Js.trim s) = true -> Js.truthy s = true.
Proof. now destruct s. Qed.

(** X5. [pptxToText] never returns the empty string: the text of the
    sheets when it is not blank, else the scraped text, else a placeholder
    in parentheses, and the message in parentheses when the reader throws. *)
Theorem pptxToText_never_empty (E : Env) (buffer : Buffer) :
  pptxToText E buffer <> EmptyString /\
  (forall sheetText, xlsx_sheetText E buffer = Ok sheetText ->
     Js.truthy (Js.trim sheetText) = true ->
     pptxToText E buffer = sheetText) /\
  (forall sheetText, xlsx_sheetText E buffer = Ok sheetText ->
     Js.trim sheetText = EmptyString ->
     pptx_scrape E (toStringUtf8 E buffer) = EmptyString ->
     pptxToText E buffer = "(Could not extract text from presentation)") /\
  (forall msg, xlsx_sheetText E buffer = Throw msg ->
     pptxToText E buffer =
     ("(PowerPoint extraction error: " ++ msg ++ ")")%string).
Proof.
  unfold pptxToText. split; [|split; [|split]].
  - destruct (xlsx_sheetText E buffer) as [t|msg]; [|discriminate].
    unfold Js.orElse.
    destruct (Js.truthy (if negb (Js.truthy (Js.trim t)) then _ else t))
      eqn:Et; [|discriminate].
    intros H. rewrite H in Et. discriminate.
  - intros t -> Ht. rewrite Ht. simpl. unfold Js.orElse.
    now rewrite (trim_empty_truthy _ Ht).
  - intros t -> Ht Hs. rewrite Ht, Hs. reflexivity.
  - now intros msg ->.
Qed.

Lemma pptxToText_never_empty_witness :
  pptxToText (Fixture.env [] []) "Slide one" = "Slide one".
Proof.
  apply (proj1 (proj2 (pptxToText_never_empty (Fixture.env [] [])
                         "Slide one")) "Slide one"); reflexivity.
Defined.

(** ** The layout of a text page *)

Lemma inject_length_cons {A : Type} (a : A) (l : list A) :
  inject_Z (Z.of_nat (List.length (a :: l))) ==
  inject_Z (Z.of_nat (List.length l)) + 1.
Proof.
  cbn [List.length]. rewrite Nat2Z.inj_succ, <- Z.add_1_r, inject_Z_plus.
  reflexivity.
Qed.

Section Layout.

Variable E : Env.

Lemma drawLines_inside (pl : list string) (y : Q) (ops : list DrawOp) :
  Forall insideMargins ops ->
  y <= pageHeight - margin ->
  45 + 15 * inject_Z (Z.of_nat (List.length pl)) <= y ->
  Forall insideMargins (snd (drawLines E pl y ops)).
Proof.
  revert y ops. induction pl as [|line rest IH]; intros y ops Hops Hy Hlen.
  - exact Hops.
  - cbn [drawLines]. rewrite inject_length_cons in Hlen.
    pose proof (Nat2Z.is_nonneg (List.length rest)) as Hn.
    rewrite Zle_Qle in Hn. change (inject_Z 0) with 0 in Hn.
    unfold pageHeight, margin in *.
    destruct (canDraw E false line); [|exact Hops].
    apply IH.
    + apply Forall_app. split; [exact Hops|].
      constructor; [|constructor]. cbn [insideMargins].
      unfold margin, pageHeight, fontSize. split; [reflexivity|]. split; lra.
    + unfold lineHeight, fontSize. lra.
    + unfold lineHeight, fontSize. lra.
Qed.

Lemma renderPage_inside (i : nat) (title : option string)
  (pl : list string) :
  (List.length pl <= Z.to_nat (maxLines title))%nat ->
  pageInsideMargins (snd (renderPage E i title pl)).
Proof.
  intros Hlen. rewrite maxLines_value in Hlen.
  assert (Hq : forall k : nat, (List.length pl <= k)%nat ->
                 inject_Z (Z.of_nat (List.length pl)) <= inject_Z (Z.of_nat k)).
  { intros k Hk. rewrite <- Zle_Qle. lia. }
  unfold renderPage.
  destruct ((i =? 0)%nat && titleTruthy title) eqn:Et.
  - apply andb_true_iff in Et as [_ Et]. rewrite Et in Hlen.
    destruct title as [t|]; [|discriminate].
    destruct (canDraw E true t).
    + cbn [snd pageInsideMargins]. split; [reflexivity|].
      split; [reflexivity|]. apply drawLines_inside.
      * constructor; [|constructor]. cbn [insideMargins].
        unfold margin, pageHeight. split; [reflexivity|]. split; lra.
      * unfold margin, pageHeight. lra.
      * assert (H43 : inject_Z (Z.of_nat (List.length pl)) <= 43)
          by exact (Hq 43%nat Hlen).
        unfold margin, pageHeight. lra.
    + cbn [snd pageInsideMargins]. repeat split. constructor.
  - cbn [snd pageInsideMargins]. split; [reflexivity|].
    split; [reflexivity|]. apply drawLines_inside.
    + constructor.
    + lra.
    + assert (H46 : (List.length pl <= 46)%nat)
        by (destruct (titleTruthy title); simpl in Hlen; lia).
      assert (Hb : inject_Z (Z.of_nat (List.length pl)) <= 46)
        by exact (Hq 46%nat H46).
      unfold margin, pageHeight. lra.
Qed.

Lemma slice_length_le {A : Type} (l : list A) (i n : nat) :
  (List.length (slice l i n) <= n)%nat.
Proof. unfold slice. rewrite length_firstn. lia. Qed.

Lemma pageLoop_inside (fuel : nat) (wl : list string) (title : option string)
  (i : nat) (doc : Doc) :
  Forall pageInsideMargins doc ->
  Forall pageInsideMargins
    (snd (pageLoop E fuel wl (Z.to_nat (maxLines title)) title i doc)).
Proof.
  revert i doc. induction fuel as [|fuel IH]; intros i doc Hdoc; simpl.
  - destruct (i <? List.length wl)%nat; exact Hdoc.
  - destruct (i <? List.length wl)%nat; [|exact Hdoc].
    assert (Hnew : Forall pageInsideMargins
              (doc ++ [snd (renderPage E i title
                              (slice wl i (Z.to_nat (maxLines title))))])).
    { apply Forall_app. split; [exact Hdoc|].
      constructor; [|constructor].
      apply renderPage_inside, slice_length_le. }
    destruct (fst (renderPage E i title _)); [now apply IH|exact Hnew].
Qed.

(** X6. Every page [textToPdfPages] adds is 612 by 792, and everything it
    draws on it, title and lines, starts at the left margin and stays
    between the top and the bottom margin, whatever the text and whether or
    not the call returns. *)
Theorem textToPdfPages_inside_margins (txt : string) (title : option string)
  (doc : Doc) :
  exists pages,
    snd (textToPdfPages E txt title doc) = doc ++ pages /\
    Forall pageInsideMargins pages.
Proof.
  exists (snd (textToPdfPages E txt title [])). split.
  - now rewrite (appendOnly_textToPdfPages E txt title doc).
  - unfold textToPdfPages, bind, lift.
    destruct (wrapText E txt) as [wrapped|msg]; [|constructor].
    apply pageLoop_inside. constructor.
Qed.

(** X7. When [textToPdfPages] returns, the number of pages it added is
    the number of wrapped lines divided by [maxLines], rounded up; it adds no
    page exactly when there is no wrapped line. *)
Theorem textToPdfPages_page_count (txt : string) (title : option string)
  (doc doc' : Doc) (u : unit) :
  textToPdfPages E txt title doc = (Ok u, doc') ->
  exists wrapped pages,
    wrapText E txt = Ok wrapped /\ doc' = doc ++ pages /\
    let n := Z.to_nat (maxLines title) in
    List.length pages = ((List.length wrapped + n - 1) / n)%nat /\
    (pages = [] <-> wrapped = []).
Proof.
  intros Hrun.
  destruct (textToPdfPages_ok _ _ _ _ _ _ Hrun)
    as (wrapped & pages & Hw & Hd & Hc & Hj).
  exists wrapped, pages. split; [exact Hw|]. split; [exact Hd|]. cbv zeta.
  assert (Hn : (0 < Z.to_nat (maxLines title))%nat).
  { rewrite maxLines_value. destruct (titleTruthy title); simpl; lia. }
  set (n := Z.to_nat (maxLines title)) in *.
  assert (Hup : (List.length wrapped <= List.length pages * n)%nat).
  { rewrite <- Hc. clear Hc Hw Hd Hrun.
    assert (Hall : forall p, In p pages -> (List.length (pageLines p) <= n)%nat).
    { intros p Hin. apply In_nth_error in Hin as [j Hjp].
      destruct (Hj j p Hjp) as (-> & _). apply slice_length_le. }
    clear Hj. induction pages as [|p rest IH]; [simpl; lia|].
    simpl. rewrite length_app.
    pose proof (Hall p (or_introl eq_refl)).
    assert ((List.length (List.concat (map pageLines rest))
             <= List.length rest * n)%nat)
      by (apply IH; intros q Hq; apply Hall; now right).
    lia. }
  assert (Hlow : pages <> [] ->
                 ((List.length pages - 1) * n < List.length wrapped)%nat).
  { intros Hne.
    destruct (nth_error pages (List.length pages - 1)) as [p|] eqn:Ep.
    - destruct (Hj _ _ Ep) as (_ & Hlt & _). exact Hlt.
    - apply nth_error_None in Ep. destruct pages; [congruence|simpl in Ep; lia]. }
  split.
  - destruct pages as [|p rest].
    + simpl in *. assert (List.length wrapped = 0)%nat as -> by lia.
      simpl. symmetry. apply Nat.div_small. lia.
    + specialize (Hlow ltac:(discriminate)).
      set (k := List.length (p :: rest)) in *.
      assert (Hk : (0 < k)%nat) by (unfold k; simpl; lia).
      assert (Hlow' : (k * n < List.length wrapped + n)%nat).
      { destruct k as [|k']; [lia|].
        replace (S k' - 1)%nat with k' in Hlow by lia. simpl. lia. }
      apply Nat.div_unique with
        (r := (List.length wrapped + n - 1 - n * k)%nat); nia.
  - split.
    + intros ->. simpl in Hup. destruct wrapped; [reflexivity|simpl in Hup; lia].
    + intros ->. destruct pages as [|p rest]; [reflexivity|].
      specialize (Hlow ltac:(discriminate)). simpl in Hlow. lia.
Qed.

End Layout.

Lemma textToPdfPages_page_count_witness :
  exists wrapped pages,
    wrapText Fixture.library (Fixture.repeatStr 50 "line" Fixture.nl)
      = Ok wrapped /\
    snd (textToPdfPages Fixture.library
           (Fixture.repeatStr 50 "line" Fixture.nl) None []) = [] ++ pages /\
    List.length pages = 2%nat.
Proof.
  destruct (textToPdfPages_page_count Fixture.library
              (Fixture.repeatStr 50 "line" Fixture.nl) None []
              (snd (textToPdfPages Fixture.library
                      (Fixture.repeatStr 50 "line" Fixture.nl) None [])) tt)
    as (wrapped & pages & Hw & Hd & Hlen & _).
  - vm_compute. reflexivity.
  - exists wrapped, pages. split; [exact Hw|]. split; [exact Hd|].
    rewrite Hlen. vm_compute in Hw. injection Hw as <-. reflexivity.
Defined.

(** ** Lines are wrapped one by one *)

Lemma split_nonempty (sep : ascii) (s : string) : Js.split sep s <> [].
Proof.
  destruct s as [|c r]; simpl; [discriminate|].
  destruct (Ascii.eqb c sep); [discriminate|].
  destruct (Js.split sep r); discriminate.
Qed.

Lemma split_app (sep : ascii) (a b : string) :
  Js.split sep (a ++ String sep b) = Js.split sep a ++ Js.split sep b.
Proof.
  induction a as [|c r IH]; simpl.
  - now rewrite Ascii.eqb_refl.
  - rewrite IH. destruct (Ascii.eqb c sep); [reflexivity|].
    destruct (Js.split sep r) eqn:Er; [|reflexivity].
    exfalso. now apply (split_nonempty sep r).
Qed.

Section LineByLine.

Variable E : Env.

Lemma wrapLines_app (l1 l2 : list string) :
  wrapLines E (l1 ++ l2) =
  (a <-? wrapLines E l1 ;; b <-? wrapLines E l2 ;; Ok (a ++ b)).
Proof.
  induction l1 as [|line rest IH]; simpl.
  - destruct (wrapLines E l2); reflexivity.
  - destruct (wrapLine E line) as [ls|msg]; simpl; [|reflexivity].
    rewrite IH. destruct (wrapLines E rest) as [more|msg]; simpl;
      [|reflexivity].
    destruct (wrapLines E l2) as [b|msg]; simpl; [|reflexivity].
    now rewrite app_assoc.
Qed.

(** X8. Lines are wrapped independently of one another: the wrapped lines
    of two texts joined by a newline are those of the first followed by
    those of the second, and the first exception met is the one thrown.  An
    empty line stays an empty line, and the empty text wraps to one empty
    line. *)
Theorem wrapText_line_by_line :
  (forall a b,
     wrapText E (a ++ String "010" b) =
     (la <-? wrapText E a ;; lb <-? wrapText E b ;; Ok (la ++ lb))) /\
  wrapText E EmptyString = Ok [EmptyString] /\
  (forall a b la lb,
     wrapText E a = Ok la -> wrapText E b = Ok lb ->
     wrapText E (a ++ String "010" (String "010" b)) =
     Ok (la ++ EmptyString :: lb)).
Proof.
  assert (H1 : forall a b,
     wrapText E (a ++ String "010" b) =
     (la <-? wrapText E a ;; lb <-? wrapText E b ;; Ok (la ++ lb))).
  { intros a b. unfold wrapText. rewrite split_app. apply wrapLines_app. }
  split; [exact H1|]. split; [reflexivity|].
  intros a b la lb Ha Hb. rewrite H1, Ha. cbn [bindRes].
  change (String "010" b) with (("" ++ String "010" b)%string).
  rewrite H1, Hb. reflexivity.
Qed.

(** Measuring the empty string returns. *)
Hypothesis width_empty :
  exists w, widthOfTextAtSize E EmptyString fontSize = Ok w.

Lemma wrapLine_leading_space (line : string) :
  line <> EmptyString ->
  wrapLine E (String " " line) = wrapLine E line.
Proof.
  intros Hne. unfold wrapLine.
  replace (Js.truthy line) with true by now destruct line.
  cbn [Js.truthy negb Js.split]. rewrite Ascii.eqb_refl.
  cbn [wrapWords Js.truthy]. destruct width_empty as [w Hw].
  rewrite Hw. cbn [bindRes]. now rewrite andb_false_r.
Qed.

Lemma wrapLine_one_space : wrapLine E " " = Ok [].
Proof.
  unfold wrapLine. cbn [Js.truthy negb Js.split]. rewrite Ascii.eqb_refl.
  destruct width_empty as [w Hw].
  cbn [wrapWords Js.truthy]. rewrite ?Hw. cbn [bindRes].
  rewrite ?andb_false_r. cbn [wrapWords]. rewrite ?Hw. cbn [bindRes].
  rewrite ?andb_false_r. reflexivity.
Qed.

Lemma wrapLine_spaces (k : nat) :
  wrapLine E (repeatString " " (S k)) = Ok [].
Proof.
  induction k as [|k IH]; [apply wrapLine_one_space|].
  change (repeatString " " (S (S k)))
    with (String " " (repeatString " " (S k))).
  rewrite wrapLine_leading_space; [exact IH|discriminate].
Qed.

(** X9. A line loses the spaces it starts with, and a line of spaces and
    nothing else leaves no line at all: a text that is one or more spaces
    adds no page, while the empty text wraps to one empty line. *)
Theorem wrapLine_drops_leading_spaces :
  (forall k line, line <> EmptyString ->
     wrapLine E (repeatString " " k ++ line) = wrapLine E line) /\
  (forall k, wrapLine E (repeatString " " (S k)) = Ok []) /\
  (forall k title doc,
     textToPdfPages E (repeatString " " (S k)) title doc = (Ok tt, doc)).
Proof.
  split; [|split].
  - intros k line Hne. induction k as [|k IH]; [reflexivity|].
    change ((repeatString " " (S k) ++ line)%string)
      with (String " " (repeatString " " k ++ line)).
    rewrite wrapLine_leading_space; [exact IH|].
    destruct k; simpl; [exact Hne|discriminate].
  - exact wrapLine_spaces.
  - intros k title doc. unfold textToPdfPages, bind, lift, wrapText.
    assert (Hs : Js.split "010" (repeatString " " (S k)) =
                 [repeatString " " (S k)]).
    { apply split_no_sep. clear. induction k as [|k IH]; [reflexivity|].
      change (repeatString " " (S (S k)))
        with (String " " (repeatString " " (S k))).
      cbn [hasChar]. rewrite IH. reflexivity. }
    rewrite Hs. cbn [wrapLines]. rewrite wrapLine_spaces. reflexivity.
Qed.

End LineByLine.

Lemma wrapLine_drops_leading_spaces_witness :
  wrapLine Fixture.library (repeatString " " 4 ++ "indented line") =
  wrapLine Fixture.library "indented line".
Proof.
  apply (proj1 (wrapLine_drops_leading_spaces Fixture.library
                  (ex_intro _ _ eq_refl))).
  discriminate.
Defined.

(** ** The quality setting and the shape of the answer *)

Section HandlerEdges.

Variable E : Env.

Lemma imageToPdfPage_settings (buffer : Buffer) (q1 q2 : string) :
  settingsOf q1 = settingsOf q2 ->
  imageToPdfPage E buffer q1 = imageToPdfPage E buffer q2.
Proof. intros H. unfold imageToPdfPage. now rewrite H. Qed.

Lemma convert_settings (q1 q2 : string) (f : File) :
  settingsOf (quality q1) = settingsOf (quality q2) \/
  getFileType (originalname f) <> Some Category.image ->
  convert E q1 f = convert E q2 f.
Proof.
  unfold convert.
  destruct (getFileType (originalname f)) as [[]|]; intros H;
    try reflexivity.
  destruct H as [H|H]; [|exfalso; now apply H].
  now rewrite (imageToPdfPage_settings (buffer f) _ _ H).
Qed.

Lemma merge_settings (q1 q2 : string) (uploaded : list File) :
  Forall (fun f => settingsOf (quality q1) = settingsOf (quality q2) \/
                   getFileType (originalname f) <> Some Category.image)
         uploaded ->
  merge E q1 uploaded = merge E q2 uploaded.
Proof.
  intros H. unfold merge.
  assert (Hfe : forall doc,
            forEach E q1 uploaded doc = forEach E q2 uploaded doc).
  { induction H as [|f rest Hf _ IH]; intros doc; [reflexivity|].
    cbn [forEach]. unfold bind, processFile.
    rewrite (convert_settings q1 q2 f Hf).
    destruct (tryCatch _ _ doc) as [[u|msg] d]; [apply IH|reflexivity]. }
  now rewrite Hfe.
Qed.

Lemma inherited_existsb (q : string) :
  existsb (String.eqb q) inheritedNames = true <-> In q inheritedNames.
Proof.
  rewrite existsb_exists. split.
  - intros (x & Hin & Hx). apply String.eqb_eq in Hx. now subst.
  - intros Hin. exists q. split; [exact Hin|apply String.eqb_refl].
Qed.

Lemma settingsOf_default (q : string) :
  q <> "low" -> q <> "high" -> ~ In q inheritedNames ->
  settingsOf (quality q) = settingsOf (quality "medium").
Proof.
  intros Hl Hh Hi. unfold quality, Js.orElse.
  destruct (Js.truthy q) eqn:Et; [|reflexivity].
  change (if Js.truthy "medium" then "medium" else "medium") with "medium".
  unfold settingsOf.
  destruct (String.eqb_spec q "low"); [contradiction|].
  destruct (String.eqb_spec q "medium"); [now subst|].
  destruct (String.eqb_spec q "high"); [contradiction|].
  destruct (existsb (String.eqb q) inheritedNames) eqn:Ee; [|reflexivity].
  apply inherited_existsb in Ee. contradiction.
Qed.

Lemma settingsOf_inherited (q : string) :
  In q inheritedNames -> settingsOf q = {| jpeg := None; resize := None |}.
Proof.
  intros Hin. unfold settingsOf.
  rewrite (proj2 (inherited_existsb q) Hin).
  simpl in Hin.
  repeat (destruct Hin as [<-|Hin]; [reflexivity|]). contradiction.
Qed.

(** X10. The quality of the request matters to images only.  [low] and
    [high] select their settings; a name that every object inherits, such
    as [constructor] or [toString], selects a value that has neither
    [jpeg] nor [resize], so the image is not resized and sharp encodes it
    at its default quality; an absent value and every other value give the
    answer of [medium].  A batch without an image gets the same answer
    under every value. *)
Theorem merge_quality :
  (forall q uploaded,
     q <> "low" -> q <> "high" -> ~ In q inheritedNames ->
     merge E q uploaded = merge E "medium" uploaded) /\
  (forall q buffer,
     In q inheritedNames ->
     imageToPdfPage E buffer q =
     (metadata <-? sharp_metadata E buffer ;;
      jpegBuffer <-? sharp_jpeg E buffer None None ;;
      processedMeta <-? sharp_metadata E jpegBuffer ;;
      Ok (jpegBuffer, processedMeta))) /\
  (forall q1 q2 uploaded,
     Forall (fun f => getFileType (originalname f) <> Some Category.image)
            uploaded ->
     merge E q1 uploaded = merge E q2 uploaded).
Proof.
  split; [|split].
  - intros q uploaded Hl Hh Hi. apply merge_settings.
    apply Forall_forall. intros f _. left. now apply settingsOf_default.
  - intros q buffer Hin. unfold imageToPdfPage.
    now rewrite (settingsOf_inherited q Hin).
  - intros q1 q2 uploaded H. apply merge_settings.
    eapply Forall_impl; [|exact H]. intros f Hf. now right.
Qed.

Lemma orElse_truthy (a b : string) :
  Js.truthy b = true -> Js.orElse a b <> EmptyString.
Proof.
  unfold Js.orElse. destruct (Js.truthy a) eqn:Ea; intros Hb H; rewrite H in *;
    discriminate.
Qed.

(** X11. Every answer of the handler is of one kind: status 200 with the
    content type [application/pdf], the attachment header and the pages, or
    status 400 or 500 with the content type [text/plain], no attachment
    header and a message that is not empty.  The message of a 500 is the
    sentence about encryption or the message of the exception. *)
Theorem merge_answer_shape (reqQuality : string) (uploaded : list File) :
  let r := merge E reqQuality uploaded in
  (exists pages, r = sendPdf pages /\ status r = 200%Z /\
                 contentType r = "application/pdf") \/
  (exists message,
     (r = sendText 400 message \/ r = sendText 500 message) /\
     contentType r = "text/plain" /\ contentDisposition r = None /\
     message <> EmptyString /\
     (status r = 500%Z ->
        message = encryptedMessage \/
        exists f m, In f uploaded /\
                    outcome E reqQuality f = Throw m /\
                    message = Js.orElse m "Merge failed.")).
Proof.
  cbv zeta. unfold merge. destruct uploaded as [|f rest].
  - right. exists "No files uploaded.". simpl.
    split; [now left|]. repeat split; try discriminate.
  - change ((List.length (f :: rest) =? 0)%nat) with false. cbv iota.
    destruct (forEach E reqQuality (f :: rest) []) as [[u|msg] d] eqn:Efe.
    + left. exists (save d). repeat split.
    + right. apply forEach_throw_inv in Efe.
      apply Exists_exists in Efe as (g & Hin & Hg).
      unfold topLevelCatch.
      destruct (Js.includes _ "encrypted" || Js.includes _ "password").
      * exists encryptedMessage. split; [now right|].
        repeat split; try discriminate. intros _. now left.
      * exists (Js.orElse msg "Merge failed."). split; [now right|].
        split; [reflexivity|]. split; [reflexivity|].
        split; [now apply orElse_truthy|].
        intros _. right. exists g, msg. auto.
Qed.

End HandlerEdges.

Lemma merge_quality_witness :
  merge Fixture.library "best"
    [Fixture.file "photo.jpg" "JPEG 300x400"] =
  merge Fixture.library "medium"
    [Fixture.file "photo.jpg" "JPEG 300x400"].
Proof.
  apply (proj1 (merge_quality Fixture.library)); try discriminate.
  intros H. simpl in H.
  repeat (destruct H as [H|H]; [discriminate|]). exact H.
Defined.

(** ** The earlier handlers *)

Section MinimalHandler.

Variable E : Env.
Variable reqQuality : string.

Lemma appendOnly_minimal_pageLoop (fuel : nat) (wl : list string) (n i : nat) :
  appendOnly (Minimal.pageLoop E fuel wl n i).
Proof.
  revert i. induction fuel as [|fuel IH]; intros i doc; simpl.
  - destruct (i <? List.length wl)%nat; simpl; now rewrite app_nil_r.
  - destruct (i <? List.length wl)%nat; simpl; [|now rewrite app_nil_r].
    destruct (fst (Minimal.drawLines E (slice wl i n) (pageHeight - margin) [])).
    + rewrite (IH (i + n)%nat (doc ++ [_])), (IH (i + n)%nat [_]). simpl.
      now rewrite <- app_assoc.
    + reflexivity.
Qed.

Lemma appendOnly_rethrow (filename : string) (body : M unit) :
  appendOnly body -> appendOnly (Minimal.rethrow filename body).
Proof.
  intros Hb. unfold Minimal.rethrow. apply appendOnly_tryCatch; [exact Hb|].
  intros msg doc. simpl. now rewrite app_nil_r.
Qed.

Lemma appendOnly_minimal_processFile (f : File) :
  appendOnly (Minimal.processFile E reqQuality f).
Proof.
  unfold Minimal.processFile.
  destruct (Minimal.getFileType (originalname f)) as [[]|];
    try apply appendOnly_ret; apply appendOnly_rethrow.
  - apply appendOnly_bind; [apply appendOnly_lift|].
    intros pages. apply appendOnly_append.
  - apply appendOnly_bind; [apply appendOnly_lift|]. intros processed.
    apply appendOnly_bind; [apply appendOnly_lift|]. intros _.
    apply appendOnly_append.
  - unfold Minimal.textToPdfPages. apply appendOnly_bind.
    + apply appendOnly_lift.
    + intros wrapped. apply appendOnly_minimal_pageLoop.
Qed.

Lemma minimal_forEach_all_ok (uploaded : list File) (doc : Doc) :
  Forall (fun f => fst (Minimal.processFile E reqQuality f []) = Ok tt)
         uploaded ->
  Minimal.forEach E reqQuality uploaded doc =
  (Ok tt,
   doc ++ List.concat
            (map (fun f => snd (Minimal.processFile E reqQuality f []))
                 uploaded)).
Proof.
  intros H. revert doc. induction H as [|f rest Hf _ IH]; intros doc; simpl.
  - unfold ret. now rewrite app_nil_r.
  - unfold bind. rewrite (appendOnly_minimal_processFile f doc), Hf, IH.
    now rewrite app_assoc.
Qed.

Lemma minimal_forEach_ok_inv (uploaded : list File) (doc doc' : Doc)
  (u : unit) :
  Minimal.forEach E reqQuality uploaded doc = (Ok u, doc') ->
  Forall (fun f => fst (Minimal.processFile E reqQuality f []) = Ok tt)
         uploaded.
Proof.
  revert doc. induction uploaded as [|f rest IH]; intros doc; simpl.
  - constructor.
  - unfold bind. rewrite (appendOnly_minimal_processFile f doc).
    destruct (fst (Minimal.processFile E reqQuality f [])) as [[]|msg] eqn:Ho;
      [|discriminate].
    intros H. constructor; [exact Ho|eapply IH; eauto].
Qed.

Lemma minimal_throw_names_file (f : File) (doc : Doc) (m : string) :
  fst (Minimal.processFile E reqQuality f doc) = Throw m ->
  exists cause,
    m = ("Failed to process " ++ originalname f ++ ": " ++ cause)%string.
Proof.
  unfold Minimal.processFile, Minimal.rethrow, tryCatch.
  destruct (Minimal.getFileType (originalname f)) as [[]|];
    try discriminate;
    match goal with
    | |- context [match ?b doc with _ => _ end] =>
        destruct (b doc) as [[u|cause] d]; [discriminate|]
    end;
    intros [= <-]; now exists cause.
Qed.

(** X12. In the variant for PDF, image and text files one conversion that
    throws fails the whole batch: the handler answers with a PDF, the saved
    document of the page groups in file order, exactly when the batch is not
    empty and every conversion returns; as soon as one file of the batch
    cannot be converted the answer has status 500, and the exception names
    that file. *)
Theorem minimal_merge_all_or_nothing (uploaded : list File) :
  (forall pages,
     Minimal.merge E reqQuality uploaded = sendPdf pages <->
     uploaded <> [] /\
     Forall (fun f => fst (Minimal.processFile E reqQuality f []) = Ok tt)
            uploaded /\
     pages = save (List.concat
                     (map (fun f => snd (Minimal.processFile E reqQuality f []))
                          uploaded))) /\
  (forall f m, In f uploaded ->
     fst (Minimal.processFile E reqQuality f []) = Throw m ->
     status (Minimal.merge E reqQuality uploaded) = 500%Z) /\
  (forall f doc m,
     fst (Minimal.processFile E reqQuality f doc) = Throw m ->
     exists cause,
       m = ("Failed to process " ++ originalname f ++ ": " ++ cause)%string).
Proof.
  assert (Hiff : forall pages,
     Minimal.merge E reqQuality uploaded = sendPdf pages <->
     uploaded <> [] /\
     Forall (fun f => fst (Minimal.processFile E reqQuality f []) = Ok tt)
            uploaded /\
     pages = save (List.concat
                     (map (fun f => snd (Minimal.processFile E reqQuality f []))
                          uploaded))).
  { intros pages. unfold Minimal.merge. destruct uploaded as [|f rest].
    - simpl. split; [discriminate|]. intros (H & _). congruence.
    - change ((List.length (f :: rest) =? 0)%nat) with false. cbv iota.
      destruct (Minimal.forEach E reqQuality (f :: rest) [])
        as [[u|msg] d] eqn:Efe.
      + pose proof (minimal_forEach_ok_inv _ _ _ _ Efe) as Hall.
        rewrite (minimal_forEach_all_ok _ [] Hall) in Efe.
        injection Efe as _ Hd. change ([] ++ ?x) with x in Hd. split.
        all: rewrite <- Hd.
        * intros [= <-]. split; [discriminate|].
          split; [exact Hall|reflexivity].
        * intros (_ & _ & ->). reflexivity.
      + split.
        * intros H. pose proof (topLevelCatch_status msg) as Hs.
          rewrite H in Hs. discriminate.
        * intros (_ & Hall & _).
          rewrite (minimal_forEach_all_ok _ [] Hall) in Efe. discriminate. }
  split; [exact Hiff|]. split; [|exact minimal_throw_names_file].
  intros f m Hin Hf. unfold Minimal.merge.
  destruct uploaded as [|g rest]; [contradiction|].
  change ((List.length (g :: rest) =? 0)%nat) with false. cbv iota.
  destruct (Minimal.forEach E reqQuality (g :: rest) [])
    as [[u|msg] d] eqn:Efe.
  - apply minimal_forEach_ok_inv in Efe. rewrite Forall_forall in Efe.
    rewrite (Efe f Hin) in Hf. discriminate.
  - apply topLevelCatch_status.
Qed.

End MinimalHandler.

Section PdfOnlyHandler.

Variable E : Env.

Lemma pdfOnly_forEach_ok (pdfs : list File) (loaded : list (list SrcPage))
  (doc : Doc) :
  Forall2 (fun f ps => PDFDocument_load E (buffer f) = Ok ps) pdfs loaded ->
  PdfOnly.forEach E pdfs doc =
  (Ok tt, doc ++ map Copied (List.concat loaded)).
Proof.
  intros H. revert doc. induction H as [|f ps rest more Hf _ IH]; intros doc.
  - simpl. unfold ret. now rewrite app_nil_r.
  - cbn [PdfOnly.forEach]. unfold bind, lift. rewrite Hf, IH.
    simpl. now rewrite map_app, app_assoc.
Qed.

Lemma pdfOnly_forEach_throw (before after : list File) (f : File)
  (msg : string) (doc : Doc) :
  Forall (fun g => exists ps, PDFDocument_load E (buffer g) = Ok ps) before ->
  PDFDocument_load E (buffer f) = Throw msg ->
  fst (PdfOnly.forEach E (before ++ f :: after) doc) = Throw msg.
Proof.
  intros Hb Hf. revert doc. induction Hb as [|g rest [ps Hg] _ IH]; intros doc.
  - cbn [app PdfOnly.forEach]. unfold bind, lift. now rewrite Hf.
  - cbn [app PdfOnly.forEach]. unfold bind, lift. rewrite Hg. apply IH.
Qed.

Lemma pdfOnly_topLevelCatch_status (msg : string) :
  status (PdfOnly.topLevelCatch msg) = 500%Z.
Proof.
  unfold PdfOnly.topLevelCatch.
  destruct (Js.includes _ "encrypted" || Js.includes _ "password");
    reflexivity.
Qed.

(** X13. The variant for PDF files keeps the uploads whose media type is
    [application/pdf] or whose name ends in [.pdf], in any case, and ignores
    the others.  Without such an upload it answers with status 400.  When
    every PDF loads it answers with the saved document: the pages of the
    PDFs in upload order, and nothing else, when they have a page, and one
    blank page when they have none.  The first PDF that does not load fails
    the batch with status 500. *)
Theorem pdfOnly_merge_cases (uploaded : list File) :
  let pdfs := filter PdfOnly.isPdfUpload uploaded in
  (pdfs = [] <->
   PdfOnly.merge E uploaded = sendText 400 "No PDF files uploaded.") /\
  (forall loaded, pdfs <> [] ->
     Forall2 (fun f ps => PDFDocument_load E (buffer f) = Ok ps) pdfs loaded ->
     PdfOnly.merge E uploaded =
       sendPdf (save (map Copied (List.concat loaded))) /\
     (List.concat loaded <> [] ->
      PdfOnly.merge E uploaded = sendPdf (map Copied (List.concat loaded))) /\
     (List.concat loaded = [] ->
      PdfOnly.merge E uploaded = sendPdf [blankPage])) /\
  (forall before f after msg,
     pdfs = before ++ f :: after ->
     Forall (fun g => exists ps, PDFDocument_load E (buffer g) = Ok ps)
            before ->
     PDFDocument_load E (buffer f) = Throw msg ->
     PdfOnly.merge E uploaded = PdfOnly.topLevelCatch msg /\
     status (PdfOnly.merge E uploaded) = 500%Z).
Proof.
  cbv zeta. unfold PdfOnly.merge.
  destruct (filter PdfOnly.isPdfUpload uploaded) as [|p rest] eqn:Ef.
  - split; [split; reflexivity|]. split.
    + intros loaded H. congruence.
    + intros [|b before] f after msg H; discriminate.
  - change ((List.length (p :: rest) =? 0)%nat) with false. cbv iota.
    split; [|split].
    + split; [discriminate|].
      destruct (PdfOnly.forEach E (p :: rest) []) as [[u|msg] d].
      * discriminate.
      * intros H. pose proof (pdfOnly_topLevelCatch_status msg) as Hs.
        rewrite H in Hs. discriminate.
    + intros loaded _ H. rewrite (pdfOnly_forEach_ok _ _ [] H).
      change ([] ++ ?x) with x. split; [reflexivity|]. split.
      * intros Hne. rewrite save_nonempty; [reflexivity|].
        destruct (List.concat loaded); [congruence|discriminate].
      * intros ->. reflexivity.
    + intros before f after msg Hp Hb Hf. rewrite Hp.
      pose proof (pdfOnly_forEach_throw before after f msg [] Hb Hf) as Ht.
      destruct (PdfOnly.forEach E (before ++ f :: after) []) as [r d].
      simpl in Ht. subst r. split; [reflexivity|].
      apply pdfOnly_topLevelCatch_status.
Qed.

End PdfOnlyHandler.

Lemma minimal_merge_all_or_nothing_witness :
  status (Minimal.merge Fixture.library ""
            [Fixture.file "a.txt" "alpha";
             Fixture.file "broken.png" "not an image"]) = 500%Z.
Proof.
  apply (proj1 (proj2 (minimal_merge_all_or_nothing Fixture.library ""
           [Fixture.file "a.txt" "alpha";
            Fixture.file "broken.png" "not an image"]))
           (Fixture.file "broken.png" "not an image")
           "Failed to process broken.png: Input buffer contains unsupported image format").
  - simpl. auto.
  - reflexivity.
Defined.

Lemma pdfOnly_merge_cases_witness :
  PdfOnly.merge Fixture.library
    [Fixture.file "notes.txt" "alpha"; Fixture.file "Two.PDF" "%PDF two pages"]
  = sendPdf (map Copied (List.concat [["cover"; "back"]])).
Proof.
  apply (proj1 (proj2 (proj1 (proj2 (pdfOnly_merge_cases Fixture.library
           [Fixture.file "notes.txt" "alpha";
            Fixture.file "Two.PDF" "%PDF two pages"]))
           [["cover"; "back"]] ltac:(discriminate)
           ltac:(repeat constructor)))).
  discriminate.
Defined.

(** ** The columns of a spreadsheet line up *)

Lemma nth_writeAt (i v : nat) (l : list nat) (j : nat) :
  nth j (Excel.writeAt i v l) 0%nat =
  if (j =? i)%nat then v else nth j l 0%nat.
Proof.
  revert l j. induction i as [|i IH]; intros l j.
  - destruct l, j; simpl; try reflexivity. now destruct j.
  - destruct l as [|h t], j as [|j]; simpl; try reflexivity.
    + rewrite IH. destruct (j =? i)%nat; [reflexivity|now destruct j].
    + apply IH.
Qed.

Lemma widenRow_nth (row : list string) (colWidths : list nat) (i0 j : nat) :
  nth j (Excel.widenRow colWidths row i0) 0%nat =
  if (i0 <=? j)%nat && (j <? i0 + List.length row)%nat
  then Nat.min (Nat.max (nth j colWidths 0%nat)
                  (String.length (nth (j - i0) row EmptyString))) 30
  else nth j colWidths 0%nat.
Proof.
  revert colWidths i0. induction row as [|cell rest IH]; intros W i0.
  - simpl. rewrite Nat.add_0_r.
    destruct (Nat.leb_spec i0 j), (Nat.ltb_spec j i0); try reflexivity; lia.
  - cbn [Excel.widenRow]. rewrite IH, nth_writeAt. cbn [List.length].
    destruct (Nat.eqb_spec j i0) as [->|Hne].
    + replace ((S i0 <=? i0)%nat) with false
        by (symmetry; apply Nat.leb_gt; lia).
      rewrite Nat.leb_refl. cbn [andb].
      replace ((i0 <? i0 + S (List.length rest))%nat) with true
        by (symmetry; apply Nat.ltb_lt; lia).
      now rewrite Nat.sub_diag.
    + destruct (Nat.leb_spec (S i0) j), (Nat.leb_spec i0 j); try lia;
        cbn [andb]; [|reflexivity].
      replace ((j <? i0 + S (List.length rest))%nat)
        with ((j <? S i0 + List.length rest)%nat)
        by (f_equal; lia).
      destruct (j <? S i0 + List.length rest)%nat; [|reflexivity].
      replace (j - i0)%nat with (S (j - S i0)) by lia. reflexivity.
Qed.

(** No width exceeds 30, a row only widens the columns, and a width that
    a row changes is the capped length of its cell. *)
Lemma widenRow_bounded (row : list string) (W : list nat) :
  (forall j, nth j W 0 <= 30)%nat ->
  (forall j, nth j (Excel.widenRow W row 0) 0 <= 30)%nat /\
  (forall j, nth j W 0 <= nth j (Excel.widenRow W row 0) 0)%nat /\
  (forall j, (j < List.length row)%nat ->
     Nat.min (String.length (nth j row EmptyString)) 30
     <= nth j (Excel.widenRow W row 0) 0)%nat /\
  (forall j, nth j (Excel.widenRow W row 0) 0%nat = nth j W 0%nat \/
     ((j < List.length row)%nat /\
      nth j (Excel.widenRow W row 0) 0%nat =
      Nat.min (String.length (nth j row EmptyString)) 30)).
Proof.
  intros Hb. repeat split; intros j; try intros Hj; rewrite widenRow_nth;
    specialize (Hb j); cbn [Nat.leb andb]; rewrite ?Nat.sub_0_r;
    destruct (Nat.ltb_spec j (0 + List.length row)); lia.
Qed.

Lemma columnWidths_from (data : list (list string)) (W : list nat) :
  (forall j, nth j W 0 <= 30)%nat ->
  let final :=
    fold_left (fun colWidths row => Excel.widenRow colWidths row 0) data W in
  (forall j, nth j final 0 <= 30)%nat /\
  (forall j, nth j W 0 <= nth j final 0)%nat /\
  (forall row j, In row data -> (j < List.length row)%nat ->
     Nat.min (String.length (nth j row EmptyString)) 30 <= nth j final 0)%nat /\
  (forall j, nth j final 0%nat = nth j W 0%nat \/
     exists row, In row data /\ (j < List.length row)%nat /\
       nth j final 0%nat =
       Nat.min (String.length (nth j row EmptyString)) 30).
Proof.
  revert W. induction data as [|r rest IH]; intros W Hb; cbv zeta.
  - simpl. repeat split; auto. intros row j [].
  - cbn [fold_left].
    destruct (widenRow_bounded r W Hb) as (B1 & B2 & B3 & B4).
    destruct (IH (Excel.widenRow W r 0) B1) as (C1 & C2 & C3 & C4).
    split; [exact C1|]. split; [|split].
    + intros j. specialize (B2 j). specialize (C2 j). lia.
    + intros row j [<-|Hin] Hj.
      * specialize (B3 j Hj). specialize (C2 j). lia.
      * now apply C3.
    + intros j. destruct (C4 j) as [E|(row & Hin & Hj & E)].
      * destruct (B4 j) as [E'|[Hj E']].
        -- left. congruence.
        -- right. exists r. split; [now left|]. split; [exact Hj|congruence].
      * right. exists row. split; [now right|]. split; assumption.
Qed.

Lemma substring_length (m : nat) (s : string) :
  String.length (String.substring 0 m s) = Nat.min m (String.length s).
Proof.
  revert s. induction m as [|m IH]; intros s.
  - now destruct s.
  - destruct s as [|c r]; [reflexivity|]. simpl. now rewrite IH.
Qed.

Lemma repeatString_space_length (n : nat) :
  String.length (repeatString " " n) = n.
Proof. induction n as [|n IH]; [reflexivity|]. simpl. now rewrite IH. Qed.

Lemma append_string_length (a b : string) :
  String.length (a ++ b) = (String.length a + String.length b)%nat.
Proof. induction a as [|c r IH]; simpl; [reflexivity|now rewrite IH]. Qed.

Lemma prefix_append (a b : string) : String.prefix a (a ++ b) = true.
Proof.
  induction a as [|c r IH]; simpl; [now destruct b|].
  destruct (ascii_dec c c); [exact IH|congruence].
Qed.

Lemma padEnd_length (s : string) (target : nat) :
  String.length (Excel.padEnd s target) = Nat.max (String.length s) target.
Proof.
  unfold Excel.padEnd. rewrite append_string_length, repeatString_space_length.
  lia.
Qed.

Lemma renderCells_nth (W : list nat) (row : list string) (i0 k : nat) :
  nth_error (Excel.renderCells W row i0) k =
  option_map
    (fun cell => Excel.padEnd (String.substring 0 30 cell)
                   (Excel.orTen (nth (i0 + k) W 0%nat)))
    (nth_error row k).
Proof.
  revert i0 k. induction row as [|cell rest IH]; intros i0 k.
  - now destruct k.
  - destruct k as [|k]; simpl.
    + now rewrite Nat.add_0_r.
    + rewrite IH. now replace (S i0 + k)%nat with (i0 + S k)%nat by lia.
Qed.

(** X14. The columns of a sheet line up.  In every line of the table the
    cell of column [i] shows the first 30 characters of the cell text,
    followed by spaces up to the width of the column, and that width is the
    same in every row.  It is the longest text of the column, 30 at most:
    no cell of the column is longer, capped at 30, and one of them has that
    length; a column whose cells are all empty has the width 10. *)
Theorem excel_columns_line_up (data : list (list string))
  (row : list string) (i : nat) (cell : string) :
  In row data -> nth_error row i = Some cell ->
  let longest := nth i (Excel.columnWidths data) 0%nat in
  let width := Excel.orTen longest in
  (exists shown,
     nth_error (Excel.renderCells (Excel.columnWidths data) row 0) i
       = Some shown /\
     shown = Excel.padEnd (String.substring 0 30 cell) width /\
     String.prefix (String.substring 0 30 cell) shown = true /\
     String.length shown = width) /\
  (forall row' cell', In row' data -> nth_error row' i = Some cell' ->
     (Nat.min (String.length cell') 30 <= longest)%nat) /\
  (exists row' cell', In row' data /\ nth_error row' i = Some cell' /\
     longest = Nat.min (String.length cell') 30) /\
  width = (if (longest =? 0)%nat then 10%nat else longest) /\
  (longest = 0%nat <->
   forall row' cell', In row' data -> nth_error row' i = Some cell' ->
                      cell' = EmptyString) /\
  (1 <= width <= 30)%nat.
Proof.
  intros Hin Hcell. cbv zeta.
  destruct (columnWidths_from data [] ltac:(intros [|j]; simpl; lia))
    as (B1 & _ & B3 & B4).
  fold (Excel.columnWidths data) in B1, B3, B4.
  assert (Hcol : forall row' cell', In row' data ->
            nth_error row' i = Some cell' ->
            (Nat.min (String.length cell') 30
             <= nth i (Excel.columnWidths data) 0)%nat).
  { intros row' cell' Hin' Hc'.
    assert (Hi' : (i < List.length row')%nat)
      by (apply nth_error_Some; congruence).
    pose proof (B3 row' i Hin' Hi') as Hlow.
    now rewrite (nth_error_nth row' i EmptyString Hc') in Hlow. }
  pose proof (Hcol row cell Hin Hcell) as Hlow.
  pose proof (B1 i) as Hup.
  assert (Hatt : exists row' cell', In row' data /\
            nth_error row' i = Some cell' /\
            nth i (Excel.columnWidths data) 0%nat =
            Nat.min (String.length cell') 30).
  { destruct (B4 i) as [E|(row' & Hin' & Hi' & E)].
    - exists row, cell. split; [exact Hin|]. split; [exact Hcell|].
      rewrite E in *. destruct i; simpl in *; lia.
    - exists row', (nth i row' EmptyString). split; [exact Hin'|].
      split; [|exact E]. now apply nth_error_nth'. }
  set (w := nth i (Excel.columnWidths data) 0%nat) in *.
  assert (Hw : (1 <= Excel.orTen w <= 30)%nat).
  { unfold Excel.orTen. destruct (Nat.eqb_spec w 0); lia. }
  split; [|split; [exact Hcol|split; [exact Hatt|split;
            [reflexivity|split; [|exact Hw]]]]].
  - eexists. split.
    + rewrite renderCells_nth, Hcell. reflexivity.
    + cbn [Nat.add]. fold w. split; [reflexivity|]. split.
      * apply prefix_append.
      * rewrite padEnd_length, substring_length.
        unfold Excel.orTen. destruct (Nat.eqb_spec w 0); lia.
  - split.
    + intros Hz row' cell' Hin' Hc'. pose proof (Hcol row' cell' Hin' Hc').
      destruct cell'; [reflexivity|simpl in *; lia].
    + intros Hall. destruct Hatt as (row' & cell' & Hin' & Hc' & E).
      rewrite (Hall row' cell' Hin' Hc') in E. exact E.
Qed.

Lemma excel_columns_line_up_witness :
  exists shown,
    nth_error
      (Excel.renderCells
         (Excel.columnWidths [["Name"; "Qty"]; ["Widget"; "7"]])
         ["Name"; "Qty"] 0) 0 = Some shown /\
    String.length shown = 6%nat.
Proof.
  destruct (excel_columns_line_up [["Name"; "Qty"]; ["Widget"; "7"]]
              ["Name"; "Qty"] 0 "Name")
    as ((shown & H1 & _ & _ & H4) & _).
  - simpl. auto.
  - reflexivity.
  - exists shown. split; [exact H1|exact H4].
Defined.

(** ** Trimmed text *)

Lemma trimStart_starts (s : string) :
  startsWithSpace (Js.trimStart s) = false.
Proof.
  induction s as [|c r IH]; [reflexivity|]. simpl.
  destruct (Js.isSpace c) eqn:Ec; [exact IH|]. simpl. exact Ec.
Qed.

Lemma trimEnd_ends (s : string) : endsWithSpace (Js.trimEnd s) = false.
Proof.
  induction s as [|c r IH]; [reflexivity|]. cbn [Js.trimEnd].
  destruct (Js.trimEnd r) as [|c' r'] eqn:Er.
  - destruct (Js.isSpace c) eqn:Ec; [reflexivity|]. simpl. exact Ec.
  - exact IH.
Qed.

Lemma trimEnd_starts (s : string) :
  startsWithSpace s = false -> startsWithSpace (Js.trimEnd s) = false.
Proof.
  destruct s as [|c r]; [reflexivity|]. cbn [Js.trimEnd startsWithSpace].
  intros Hc. destruct (Js.trimEnd r); [|exact Hc].
  rewrite Hc. exact Hc.
Qed.

Lemma trimStart_fixed (s : string) :
  startsWithSpace s = false -> Js.trimStart s = s.
Proof. destruct s as [|c r]; [reflexivity|]. simpl. now intros ->. Qed.

Lemma trimEnd_fixed (s : string) :
  endsWithSpace s = false -> Js.trimEnd s = s.
Proof.
  induction s as [|c r IH]; [reflexivity|]. cbn [Js.trimEnd].
  destruct r as [|c' r'].
  - simpl. now intros ->.
  - intros H. change (endsWithSpace (String c (String c' r')))
      with (endsWithSpace (String c' r')) in H.
    rewrite (IH H). reflexivity.
Qed.

Lemma trim_trimmed (s : string) :
  startsWithSpace (Js.trim s) = false /\
  endsWithSpace (Js.trim s) = false /\
  Js.trim (Js.trim s) = Js.trim s.
Proof.
  unfold Js.trim.
  assert (H1 : startsWithSpace (Js.trimEnd (Js.trimStart s)) = false)
    by apply trimEnd_starts, trimStart_starts.
  assert (H2 : endsWithSpace (Js.trimEnd (Js.trimStart s)) = false)
    by apply trimEnd_ends.
  split; [exact H1|]. split; [exact H2|].
  now rewrite (trimStart_fixed _ H1), (trimEnd_fixed _ H2).
Qed.

(** X15. [excelToText] does not throw: when the workbook is read it
    returns the table without white space at either end, and when the
    reader throws it returns the line [Error reading spreadsheet:] with the
    message. *)
Theorem excelToText_trimmed (E : Env) (buffer : Buffer) (filename : string) :
  (forall output, xlsx_table E buffer = Ok output ->
     excelToText E buffer filename = Js.trim output /\
     startsWithSpace (excelToText E buffer filename) = false /\
     endsWithSpace (excelToText E buffer filename) = false) /\
  (forall workbook, xlsx_table E buffer = Ok (Excel.excelTable workbook) ->
     excelToText E buffer filename = Js.trim (Excel.excelTable workbook)) /\
  (forall msg, xlsx_table E buffer = Throw msg ->
     excelToText E buffer filename =
     ("Error reading spreadsheet: " ++ msg)%string).
Proof.
  unfold excelToText. split; [|split].
  - intros output ->. split; [reflexivity|].
    split; apply (trim_trimmed output).
  - now intros workbook ->.
  - now intros msg ->.
Qed.

Lemma excelToText_trimmed_witness :
  excelToText (Fixture.env [] []) "  a,b  " "t.csv" = "a,b".
Proof.
  apply (proj1 (proj1 (excelToText_trimmed (Fixture.env [] []) "  a,b  "
                         "t.csv") "  a,b  " eq_refl)).
Defined.

(** ** Whole batches *)

Section Batches.

Variable E : Env.
Variable reqQuality : string.

Lemma contributions_pdf (uploaded : list File)
  (loaded : list (list SrcPage)) :
  Forall2 (fun f srcPages =>
             getFileType (originalname f) = Some Category.pdf /\
             PDFDocument_load E (buffer f) = Ok srcPages)
          uploaded loaded ->
  Forall (fun f => outcome E reqQuality f = Ok tt) uploaded /\
  List.concat (map (contribution E reqQuality) uploaded) =
  map Copied (List.concat loaded).
Proof.
  intros H. induction H as [|f ps rest more [Ht Hl] _ [IH1 IH2]].
  - split; [constructor|reflexivity].
  - destruct (contribution_pdf E reqQuality f ps Ht Hl) as [Ho Hc].
    split; [constructor; assumption|].
    simpl. now rewrite Hc, IH2, map_app.
Qed.

(** X16. A batch of PDFs that all load is answered with the saved
    document of their pages, copied one for one.  When the sources have a
    page, these are every page of every source, in file order and in source
    order, and nothing else; when they have none, the answer holds the one
    blank page that saving adds. *)
Theorem merge_copies_pdf_pages (uploaded : list File)
  (loaded : list (list SrcPage)) :
  uploaded <> [] ->
  Forall2 (fun f srcPages =>
             getFileType (originalname f) = Some Category.pdf /\
             PDFDocument_load E (buffer f) = Ok srcPages)
          uploaded loaded ->
  merge E reqQuality uploaded =
    sendPdf (save (map Copied (List.concat loaded))) /\
  (List.concat loaded <> [] ->
   merge E reqQuality uploaded = sendPdf (map Copied (List.concat loaded))) /\
  (List.concat loaded = [] ->
   merge E reqQuality uploaded = sendPdf [blankPage]).
Proof.
  intros Hne H. destruct (contributions_pdf uploaded loaded H) as [Ho Hc].
  assert (Hm : merge E reqQuality uploaded =
               sendPdf (save (map Copied (List.concat loaded)))).
  { apply merge_pdf_iff. split; [exact Hne|]. split; [exact Ho|].
    now rewrite Hc. }
  rewrite Hm. split; [reflexivity|]. split.
  - intros Hp. rewrite save_nonempty; [reflexivity|].
    destruct (List.concat loaded); [congruence|discriminate].
  - intros ->. reflexivity.
Qed.

Lemma forEach_recognized (uploaded : list File) (doc : Doc) :
  forEach E reqQuality (filter recognized uploaded) doc =
  forEach E reqQuality uploaded doc.
Proof.
  revert doc. induction uploaded as [|f rest IH]; intros doc; [reflexivity|].
  cbn [filter]. unfold recognized at 1.
  destruct (getFileType (originalname f)) as [t|] eqn:Et.
  - cbn [forEach]. unfold bind.
    destruct (processFile E reqQuality f doc) as [[u|msg] d];
      [apply IH|reflexivity].
  - cbn [forEach]. unfold bind, processFile, tryCatch, convert.
    rewrite Et. unfold ret. apply IH.
Qed.

(** X17. Files of an unrecognized type are skipped silently: taking them
    out of a batch that keeps one recognized file changes nothing in the
    answer. *)
Theorem merge_ignores_unrecognized (uploaded : list File) :
  filter recognized uploaded <> [] ->
  merge E reqQuality (filter recognized uploaded) =
  merge E reqQuality uploaded.
Proof.
  intros Hne. unfold merge. rewrite forEach_recognized.
  destruct uploaded as [|f rest]; [reflexivity|].
  destruct (filter recognized (f :: rest)); [congruence|reflexivity].
Qed.

End Batches.

Lemma merge_copies_pdf_pages_witness :
  merge Fixture.library ""
    [Fixture.file "one.pdf" "%PDF two pages";
     Fixture.file "two.PDF" "%PDF two pages"] =
  sendPdf (map Copied (List.concat [["cover"; "back"]; ["cover"; "back"]])).
Proof.
  apply (proj1 (proj2 (merge_copies_pdf_pages Fixture.library ""
           [Fixture.file "one.pdf" "%PDF two pages";
            Fixture.file "two.PDF" "%PDF two pages"]
           [["cover"; "back"]; ["cover"; "back"]]
           ltac:(discriminate) ltac:(repeat constructor)))).
  discriminate.
Defined.

Lemma merge_ignores_unrecognized_witness :
  merge Fixture.library ""
    (filter recognized
       [Fixture.file "notes" "zz"; Fixture.file "a.txt" "alpha"]) =
  merge Fixture.library ""
    [Fixture.file "notes" "zz"; Fixture.file "a.txt" "alpha"].
Proof.
  apply (merge_ignores_unrecognized Fixture.library ""). discriminate.
Defined.

(** ** The layout of a text page in the earlier variant *)

Section MinimalLayout.

Variable E : Env.




End MinimalLayout.

